(** * Retrieval-augmented component index: a shallow embedding

    The development embeds the RAG core of the repository
    (component parser, OpenAI embedder, file vector store, smart cache and
    the RAG service that wires them) and states the properties of the
    specification over that embedding.

    Conventions of the embedding.
    - A JavaScript string is a [string] of bytes (its UTF-8 encoding); the
      case and whitespace functions act on the ASCII range.
    - A JavaScript number used as a score is a rational [Q] (exact
      arithmetic); [Math.sqrt] is a parameter of the definitions that use it.
      Counters and indices are [nat] or [Z].
    - A [Promise] that rejects and a [throw] are the [Err] case of [result].
    - [Date.now()] is an argument of the operation that reads the clock.
    - An [Array] is a [list]; a [Map] is an association list in insertion
      order.
    - The embedding provider is a function from the texts of a request and
      the number of the attempt to its reply; the promises of a batch are
      run in the order of the batch, which is the order [Promise.all] gives
      their results.
    - The backing files of the vector store are its state; reading and
      writing them does not fail.
    - An HTTP handler is a function of the parsed body, the environment
      and what the service it creates reads (provider, index files, source
      tree); it returns the status and the JSON of its reply. *)

From Stdlib Require Import List String Ascii Bool Arith ZArith QArith Lia.
From Stdlib Require Import Permutation Sorted DecimalString Lqa Qround.
Import ListNotations.

Close Scope Q_scope.
Local Open Scope list_scope.

(** ** JavaScript values: strings, errors, arrays *)

Module JS.

(** *** Results of fallible code *)

(** An [Error] object: [name] and [message] are what [toString] prints;
    [code] is the [code] field of [RAGError] (empty for a plain error). *)
Record Error : Type := mkError {
  name : string;
  message : string;
  code : string
}.

Inductive result (A : Type) : Type :=
| Ok (a : A)
| Err (e : Error).
Arguments Ok {A} a.
Arguments Err {A} e.

Definition bind {A B : Type} (r : result A) (k : A -> result B) : result B :=
  match r with
  | Ok a => k a
  | Err e => Err e
  end.

(** [try { r } catch (error) { h error }] *)
Definition catch {A : Type} (r : result A) (h : Error -> result A) : result A :=
  match r with
  | Ok a => Ok a
  | Err e => h e
  end.

(** [`${error}`]: [Error.prototype.toString]. *)
Definition errorToString (e : Error) : string :=
  (name e ++ ": " ++ message e)%string.

(** *** Characters *)

Definition isUpper (c : ascii) : bool :=
  let n := nat_of_ascii c in (65 <=? n) && (n <=? 90).

Definition isLower (c : ascii) : bool :=
  let n := nat_of_ascii c in (97 <=? n) && (n <=? 122).

Definition lowerChar (c : ascii) : ascii :=
  if isUpper c then ascii_of_nat (nat_of_ascii c + 32) else c.

Definition upperChar (c : ascii) : ascii :=
  if isLower c then ascii_of_nat (nat_of_ascii c - 32) else c.

(** White space and line terminators that [trim] removes (ASCII range):
    TAB, LF, VT, FF, CR and SPACE. *)
Definition isSpace (c : ascii) : bool :=
  let n := nat_of_ascii c in
  ((9 <=? n) && (n <=? 13)) || (n =? 32).

Definition LF : ascii := ascii_of_nat 10.

(** *** Strings *)

Fixpoint toLowerCase (s : string) : string :=
  match s with
  | EmptyString => EmptyString
  | String c t => String (lowerChar c) (toLowerCase t)
  end.

Fixpoint trimStart (s : string) : string :=
  match s with
  | EmptyString => EmptyString
  | String c t => if isSpace c then trimStart t else s
  end.

(** [trimEnd] drops the trailing white space: a character is kept when it
    is not white space or when something is kept after it. *)
Fixpoint trimEnd (s : string) : string :=
  match s with
  | EmptyString => EmptyString
  | String c t =>
      match trimEnd t with
      | EmptyString => if isSpace c then EmptyString else String c EmptyString
      | t' => String c t'
      end
  end.

Definition trim (s : string) : string := trimEnd (trimStart s).

(** A string in a condition: [""] is falsy, every other string truthy. *)
Definition truthy (s : string) : bool :=
  match s with
  | EmptyString => false
  | String _ _ => true
  end.

Definition startsWith (s p : string) : bool := String.prefix p s.

(** [hay.includes(needle)] *)
Fixpoint includes (hay needle : string) : bool :=
  String.prefix needle hay ||
  match hay with
  | EmptyString => false
  | String _ t => includes t needle
  end.

(** [s.split(sep)] for a one-character separator: [cur] is the segment
    being read. *)
Fixpoint splitAux (sep : ascii) (s : string) (cur : string) : list string :=
  match s with
  | EmptyString => [cur]
  | String c t =>
      if Ascii.eqb c sep then cur :: splitAux sep t EmptyString
      else splitAux sep t (cur ++ String c EmptyString)%string
  end.

Definition split (sep : ascii) (s : string) : list string :=
  splitAux sep s EmptyString.

(** [parts.join(sep)] *)
Fixpoint join (sep : string) (parts : list string) : string :=
  match parts with
  | [] => EmptyString
  | [p] => p
  | p :: rest => (p ++ sep ++ join sep rest)%string
  end.

(** [`${n}`] for a natural number. *)
Definition natToString (n : nat) : string :=
  NilZero.string_of_uint (Nat.to_uint n).

(** [s.slice(0, n)] *)
Definition take (n : nat) (s : string) : string := String.substring 0 n s.

(** *** Arrays *)

(** [arr.findIndex(p)], where [p] receives the element and its index;
    [None] is the [-1] of JavaScript. *)
Fixpoint findIndexFrom {A : Type} (p : A -> nat -> bool) (l : list A) (i : nat)
  : option nat :=
  match l with
  | [] => None
  | x :: t => if p x i then Some i else findIndexFrom p t (S i)
  end.

Definition findIndex {A : Type} (p : A -> nat -> bool) (l : list A) : option nat :=
  findIndexFrom p l 0.

(** [arr.slice(from, to)] *)
Definition slice {A : Type} (from to : nat) (l : list A) : list A :=
  firstn (to - from) (skipn from l).

(** [arr.sort(cmp)]: the sort is stable (ECMAScript 2019), so for a
    comparator that is a consistent order it returns the stable sorted
    arrangement, which insertion computes. [before a b] reads
    [cmp(a, b) <= 0]: [a] may stay in front of [b]. *)
Fixpoint insertSorted {A : Type} (before : A -> A -> bool) (x : A) (l : list A)
  : list A :=
  match l with
  | [] => [x]
  | y :: t => if before x y then x :: y :: t else y :: insertSorted before x t
  end.

Definition sort {A : Type} (before : A -> A -> bool) (l : list A) : list A :=
  fold_right (insertSorted before) [] l.

(** The successive slices [l.slice(i, i + n)] for [i = 0, n, 2n, ...]
    below the length of [l], as the batching loops build them. The fuel
    is the length of the list: each slice takes at least one element when
    [n] is positive. *)
Fixpoint chunksFuel {A : Type} (fuel n : nat) (l : list A) : list (list A) :=
  match fuel, l with
  | O, _ => []
  | _, [] => []
  | S fuel', _ => firstn n l :: chunksFuel fuel' n (skipn n l)
  end.

Definition chunks {A : Type} (n : nat) (l : list A) : list (list A) :=
  chunksFuel (List.length l) n l.

(** [arr.map((x, index) => f(x, index))] *)
Fixpoint mapiFrom {A B : Type} (f : A -> nat -> B) (l : list A) (i : nat) : list B :=
  match l with
  | [] => []
  | x :: t => f x i :: mapiFrom f t (S i)
  end.

(** A loop whose body may throw: the results in order, or the first error. *)
Fixpoint sequence {A : Type} (l : list (result A)) : result (list A) :=
  match l with
  | [] => Ok []
  | r :: t => bind r (fun a => bind (sequence t) (fun rest => Ok (a :: rest)))
  end.

(** [Math.min] and [Math.max] of two numbers. *)
Definition Math_min (a b : Q) : Q := if Qle_bool a b then a else b.
Definition Math_max (a b : Q) : Q := if Qle_bool a b then b else a.

End JS.

(** ** MD5 ([crypto.createHash('md5')], RFC 1321) *)

Module MD5.

Local Open Scope Z_scope.

Definition K : list Z :=
  [ 3614090360; 3905402710; 606105819; 3250441966;
    4118548399; 1200080426; 2821735955; 4249261313;
    1770035416; 2336552879; 4294925233; 2304563134;
    1804603682; 4254626195; 2792965006; 1236535329;
    4129170786; 3225465664; 643717713; 3921069994;
    3593408605; 38016083; 3634488961; 3889429448;
    568446438; 3275163606; 4107603335; 1163531501;
    2850285829; 4243563512; 1735328473; 2368359562;
    4294588738; 2272392833; 1839030562; 4259657740;
    2763975236; 1272893353; 4139469664; 3200236656;
    681279174; 3936430074; 3572445317; 76029189;
    3654602809; 3873151461; 530742520; 3299628645;
    4096336452; 1126891415; 2878612391; 4237533241;
    1700485571; 2399980690; 4293915773; 2240044497;
    1873313359; 4264355552; 2734768916; 1309151649;
    4149444226; 3174756917; 718787259; 3951481745 ].

Definition shifts : list Z :=
  [ 7; 12; 17; 22; 7; 12; 17; 22; 7; 12; 17; 22; 7; 12; 17; 22;
    5; 9; 14; 20; 5; 9; 14; 20; 5; 9; 14; 20; 5; 9; 14; 20;
    4; 11; 16; 23; 4; 11; 16; 23; 4; 11; 16; 23; 4; 11; 16; 23;
    6; 10; 15; 21; 6; 10; 15; 21; 6; 10; 15; 21; 6; 10; 15; 21 ].

Definition wrap32 (x : Z) : Z := x mod 4294967296.
Definition not32 (x : Z) : Z := Z.lxor x 4294967295.
Definition rotl32 (x c : Z) : Z :=
  wrap32 (Z.lor (Z.shiftl x c) (Z.shiftr x (32 - c))).

(** The four chaining words. *)
Record state : Type := mkState { sa : Z; sb : Z; sc : Z; sd : Z }.

Definition init : state :=
  mkState 1732584193 4023233417 2562383102 271733878.

(** One of the 64 operations on a block [m] of sixteen words. *)
Definition step (m : list Z) (st : state) (i : nat) : state :=
  let '(mkState a b c d) := st in
  let iz := Z.of_nat i in
  let '(f, g) :=
    if (i <? 16)%nat then (Z.lor (Z.land b c) (Z.land (not32 b) d), iz)
    else if (i <? 32)%nat then
      (Z.lor (Z.land d b) (Z.land (not32 d) c), (5 * iz + 1) mod 16)
    else if (i <? 48)%nat then (Z.lxor b (Z.lxor c d), (3 * iz + 5) mod 16)
    else (Z.lxor c (Z.lor b (not32 d)), (7 * iz) mod 16) in
  let f' := wrap32 (f + a + nth i K 0 + nth (Z.to_nat g) m 0) in
  mkState d (wrap32 (b + rotl32 f' (nth i shifts 0))) b c.

Definition processBlock (st : state) (m : list Z) : state :=
  let st' := fold_left (step m) (seq 0 64) st in
  mkState (wrap32 (sa st + sa st')) (wrap32 (sb st + sb st'))
          (wrap32 (sc st + sc st')) (wrap32 (sd st + sd st')).

(** [n] bytes of [x], least significant first. *)
Fixpoint leBytes (n : nat) (x : Z) : list Z :=
  match n with
  | O => []
  | S n' => (x mod 256) :: leBytes n' (x / 256)
  end.

Fixpoint leWord (bs : list Z) : Z :=
  match bs with
  | [] => 0
  | b :: t => b + 256 * leWord t
  end.

(** The message followed by [0x80], zeros up to 56 modulo 64, and the bit
    length on eight bytes. *)
Definition pad (msg : list Z) : list Z :=
  let len := Z.of_nat (List.length msg) in
  let zeros := Z.to_nat ((55 - len) mod 64) in
  msg ++ [128] ++ repeat 0 zeros ++ leBytes 8 (8 * len).

Definition words (block : list Z) : list Z :=
  map leWord (JS.chunks 4 block).

Definition digest (msg : list Z) : list Z :=
  let p := pad msg in
  let st := fold_left processBlock (map words (JS.chunks 64 p)) init in
  leBytes 4 (sa st) ++ leBytes 4 (sb st) ++ leBytes 4 (sc st) ++ leBytes 4 (sd st).

Definition hexDigit (d : Z) : ascii :=
  if d <? 10 then ascii_of_nat (Z.to_nat (48 + d))
  else ascii_of_nat (Z.to_nat (87 + d)).

Fixpoint hexOfBytes (bs : list Z) : string :=
  match bs with
  | [] => EmptyString
  | b :: t => String (hexDigit (b / 16)) (String (hexDigit (b mod 16)) (hexOfBytes t))
  end.

Definition bytesOfString (s : string) : list Z :=
  map (fun c => Z.of_nat (nat_of_ascii c)) (list_ascii_of_string s).

(** [crypto.createHash('md5').update(s).digest('hex')] *)
Definition hex (s : string) : string :=
  hexOfBytes (digest (bytesOfString s)).

End MD5.

(** ** Types of the RAG core *)

(** [RAGError] and its subclasses; the constructor of [RAGError] sets
    [name] to ["RAGError"] for all of them. *)
Definition RAGError (message code : string) : JS.Error :=
  JS.mkError "RAGError" message code.

Definition ComponentParseError (message filePath : string) : JS.Error :=
  RAGError message "COMPONENT_PARSE_ERROR".

Definition VectorStoreError (message operation : string) : JS.Error :=
  RAGError message "VECTOR_STORE_ERROR".

Definition EmbeddingError (message provider : string) : JS.Error :=
  RAGError message "EMBEDDING_ERROR".

Definition TypeError (message : string) : JS.Error :=
  JS.mkError "TypeError" message "".

Module ComponentDoc.
Record t : Type := mk {
  packageName : string;
  componentName : string;
  description : string;
  api : string;
  examples : list string;
  tags : list string;
  version : string;
  dependencies : list string;
  updatedAt : string
}.
End ComponentDoc.

Module VectorDocument.

(** [metadata.type] *)
Inductive facet : Type := description | api | example | usage.

Definition facetName (f : facet) : string :=
  match f with
  | description => "description"
  | api => "api"
  | example => "example"
  | usage => "usage"
  end.

Definition facet_eqb (f g : facet) : bool :=
  match f, g with
  | description, description | api, api | example, example | usage, usage => true
  | _, _ => false
  end.

Record metadata : Type := mkMetadata {
  componentName : string;
  packageName : string;
  type : facet;
  tags : list string;
  version : string
}.

Record t : Type := mk {
  id : string;
  content : string;
  embedding : list Q;
  meta : metadata
}.

End VectorDocument.

Module ParsedComponent.
(** ['success' | 'error' | 'partial'] *)
Inductive parseStatus : Type := Success | Error | Partial.

Record t : Type := mk {
  info : ComponentDoc.t;
  filePath : string;
  status : parseStatus;
  error : option string
}.
End ParsedComponent.

Module RAGSearchResponse.
Record t : Type := mk {
  components : list ComponentDoc.t;
  scores : list Q;
  confidence : Q;
  suggestions : list string;
  duration : Z
}.
End RAGSearchResponse.

Module RAGSearchRequest.
(** The [filters] of a request: the fields the vector store reads, and
    [JSON.stringify(filters)], which keys the cache. *)
Record filters : Type := mkFilters {
  packageName : option string;
  componentName : option string;
  tags : option (list string);
  type : option string;
  json : string
}.

Record t : Type := mk {
  query : string;
  topK : option nat;
  requestFilters : option filters;
  threshold : option Q
}.
End RAGSearchRequest.

Module ComponentSyncRequest.
Record t : Type := mk {
  sourcePath : string;
  forceReindex : option bool;
  packages : option (list string)
}.
End ComponentSyncRequest.

Module ComponentSyncResponse.
(** ['success' | 'partial' | 'failed'] *)
Inductive syncStatus : Type := Success | Partial | Failed.

Record t : Type := mk {
  status : syncStatus;
  processedCount : Z;
  successCount : Z;
  failedCount : Z;
  errors : list string;
  duration : Z
}.
End ComponentSyncResponse.

(** ** The file system the parser reads *)

Module FS.

(** [path.join(a, b)], for paths that need no normalisation. *)
Definition pathJoin (a b : string) : string := (a ++ "/" ++ b)%string.

(** [path.basename(p)]: the last segment of the path. *)
Definition basename (p : string) : string :=
  last (JS.split "/"%char p) EmptyString.

(** An entry of [readdir(..., { withFileTypes: true })]. *)
Record Dirent : Type := mkDirent {
  name : string;
  isDirectory : bool
}.

(** What the parser reads under one component directory. A read that
    fails is [None]; the error value is never inspected by the parser. *)
Record ComponentFiles : Type := mkComponentFiles {
  (** [fs.access(componentPath)] *)
  access : JS.result unit;
  (** [readFile(<dir>/index.en-US.md)] *)
  indexMd : option string;
  (** [readdir(<dir>/demo)] with the content of each file, when the
      directory can be accessed and listed *)
  demo : option (list (string * option string));
  (** [readFile(<dir>/index.ts)] *)
  indexTs : option string
}.

Record t : Type := mk {
  (** [readdir(<sourcePath>/components)] *)
  readdir : JS.result (list Dirent);
  (** the reads under a component directory, by its path *)
  files : string -> ComponentFiles;
  (** [JSON.parse(readFile(<sourcePath>/package.json)).version], when the
      file reads and parses and has the field *)
  packageVersion : option string
}.

End FS.

(** ** ComponentParser *)

Module ComponentParser.

Import JS.
Local Open Scope string_scope.

(** [capitalizeComponentName] *)
Definition capitalizeWord (word : string) : string :=
  match word with
  | EmptyString => EmptyString
  | String c rest => String (upperChar c) rest
  end.

Definition capitalizeComponentName (name : string) : string :=
  join "" (map capitalizeWord (split "-"%char name)).

Definition fallbackDescription (componentPath : string) : string :=
  capitalizeComponentName (FS.basename componentPath) ++ " component".

(** [extractDescription]; [md] is the read of [index.en-US.md]. *)
Definition extractDescription (componentPath : string) (md : option string) : string :=
  match md with
  | None => fallbackDescription componentPath
  | Some content =>
      let lines := split LF content in
      let startIndex := findIndex (fun line _ => String.eqb (trim line) "---") lines in
      let endIndex :=
        findIndex
          (fun line index =>
             match startIndex with
             | Some st => (st <? index)%nat
             | None => true
             end && startsWith line "## ")
          lines in
      match startIndex, endIndex with
      | Some st, Some en =>
          let descriptionLines :=
            trim
              (join " "
                 (filter
                    (fun line => negb (startsWith line "---")
                                 && negb (String.eqb (trim line) ""))
                    (slice (st + 1) en lines))) in
          if truthy descriptionLines then descriptionLines
          else fallbackDescription componentPath
      | _, _ => fallbackDescription componentPath
      end
  end.

(** The suffix of [s] at the first position where [p] holds of the
    suffix ([indexOf] followed by [slice]). *)
Fixpoint sliceFromFirst (p : string -> bool) (s : string) : option string :=
  if p s then Some s
  else match s with
       | EmptyString => None
       | String _ t => sliceFromFirst p t
       end.

(** The prefix of [s] before the first position where [p] holds of the
    suffix; all of [s] when there is none. *)
Fixpoint sliceToFirst (p : string -> bool) (s : string) : string :=
  if p s then EmptyString
  else match s with
       | EmptyString => EmptyString
       | String c t => String c (sliceToFirst p t)
       end.

Definition apiNotAvailable : string := "API documentation not available".

(** The regular expression [/\n## (?!API)/] at the head of [s]. *)
Definition nextSection (s : string) : bool :=
  startsWith s (String LF "## ") && negb (startsWith s (String LF "## API")).

(** [extractAPI] *)
Definition extractAPI (md : option string) : string :=
  match md with
  | None => apiNotAvailable
  | Some content =>
      match sliceFromFirst (fun s => startsWith s "## API") content with
      | Some apiContent => trim (sliceToFirst nextSection apiContent)
      | None => apiNotAvailable
      end
  end.

(** [file.endsWith('.tsx')] *)
Definition endsWithTsx (file : string) : bool :=
  let n := String.length file in
  (4 <=? n)%nat && String.eqb (String.substring (n - 4) 4 file) ".tsx".

(** [extractExamples] *)
Definition extractExamples (demo : option (list (string * option string)))
  : list string :=
  match demo with
  | None => []
  | Some demoFiles =>
      let tsxFiles := filter (fun f => endsWithTsx (fst f)) demoFiles in
      flat_map
        (fun f =>
           match snd f with
           | None => []
           | Some content =>
               let codeWithoutImports :=
                 trim
                   (join (String LF "")
                      (filter (fun line => negb (startsWith (trim line) "import"))
                         (split LF content))) in
               if truthy codeWithoutImports then [codeWithoutImports] else []
           end)
        (slice 0 3 tsxFiles)
  end.

(** The name-to-tags table of [extractTags], an object literal. *)
Definition tagMapping : list (string * list string) :=
  [ ("button", ["form"; "action"; "ui"; "interactive"]);
    ("input", ["form"; "data-entry"; "ui"]);
    ("table", ["data-display"; "list"; "ui"]);
    ("form", ["data-entry"; "validation"; "ui"]);
    ("modal", ["feedback"; "overlay"; "ui"]);
    ("alert", ["feedback"; "message"; "ui"]);
    ("card", ["data-display"; "container"; "ui"]);
    ("menu", ["navigation"; "ui"]);
    ("breadcrumb", ["navigation"; "ui"]);
    ("pagination", ["navigation"; "data-display"; "ui"]);
    ("tabs", ["navigation"; "ui"]);
    ("select", ["form"; "data-entry"; "ui"]);
    ("checkbox", ["form"; "data-entry"; "ui"]);
    ("radio", ["form"; "data-entry"; "ui"]);
    ("switch", ["form"; "data-entry"; "ui"]);
    ("slider", ["form"; "data-entry"; "ui"]);
    ("upload", ["form"; "data-entry"; "ui"]);
    ("progress", ["feedback"; "ui"]);
    ("spin", ["feedback"; "loading"; "ui"]);
    ("avatar", ["data-display"; "ui"]);
    ("badge", ["data-display"; "ui"]);
    ("tag", ["data-display"; "ui"]);
    ("tooltip", ["data-display"; "overlay"; "ui"]);
    ("popover", ["data-display"; "overlay"; "ui"]);
    ("dropdown", ["navigation"; "overlay"; "ui"]) ].

Fixpoint lookup {V : Type} (key : string) (table : list (string * V)) : option V :=
  match table with
  | [] => None
  | (k, v) :: rest => if String.eqb key k then Some v else lookup key rest
  end.

(** The properties every object literal inherits from [Object.prototype]:
    [tagMapping[key]] finds them when the literal has no such key of its
    own. Each is a function or an object: truthy, and not iterable. *)
Definition objectPrototypeKeys : list string :=
  [ "constructor"; "__proto__"; "hasOwnProperty"; "isPrototypeOf";
    "propertyIsEnumerable"; "toString"; "toLocaleString"; "valueOf";
    "__defineGetter__"; "__defineSetter__"; "__lookupGetter__";
    "__lookupSetter__" ].

Definition inherited (key : string) : bool :=
  existsb (String.eqb key) objectPrototypeKeys.

(** [extractTags]: [tagMapping[componentName] || ['ui']], then the spread
    [[...baseTags, 'react', 'component']], which throws on an inherited
    property. *)
Definition extractTags (componentPath : string) : result (list string) :=
  let componentName := toLowerCase (FS.basename componentPath) in
  match lookup componentName tagMapping with
  | Some baseTags => Ok (baseTags ++ ["react"; "component"])%list
  | None =>
      if inherited componentName
      then Err (TypeError "baseTags is not iterable")
      else Ok (["ui"] ++ ["react"; "component"])%list
  end.

(** [s] with its longest prefix of characters satisfying [p] removed,
    and the length of that prefix. *)
Fixpoint dropWhile (p : ascii -> bool) (s : string) : nat * string :=
  match s with
  | EmptyString => (O, EmptyString)
  | String c t =>
      if p c then let '(n, r) := dropWhile p t in (S n, r) else (O, s)
  end.

Fixpoint takeWhile (p : ascii -> bool) (s : string) : string :=
  match s with
  | EmptyString => EmptyString
  | String c t => if p c then String c (takeWhile p t) else EmptyString
  end.

Definition isQuote (c : ascii) : bool :=
  Ascii.eqb c "'"%char || Ascii.eqb c (ascii_of_nat 34).

Definition dropString (n : nat) (s : string) : string :=
  String.substring n (String.length s - n) s.

(** A match at the head of [s] of the import pattern of
    [extractDependencies]: the word from, white space, a quote (single or
    double), dot dot slash, one or more characters that are not quotes
    (the captured group), and a quote. The result is the captured group
    and the length of the match. *)
Definition importAt (s : string) : option (string * nat) :=
  if startsWith s "from" then
    let '(spaces, afterSpaces) := dropWhile isSpace (dropString 4 s) in
    match spaces, afterSpaces with
    | S _, String q afterQuote =>
        if isQuote q && startsWith afterQuote "../" then
          let rest := dropString 3 afterQuote in
          let captured := takeWhile (fun c => negb (isQuote c)) rest in
          let n := String.length captured in
          if (1 <=? n)%nat && (n <? String.length rest)%nat
          then Some (captured, (4 + spaces + 1 + 3 + n + 1)%nat)
          else None
        else None
    | _, _ => None
    end
  else None.

(** The captures of the successive matches ([g] flag): after a match the
    scan resumes behind it; [skip] counts the characters still covered by
    the last match. *)
Fixpoint importsFrom (s : string) (skip : nat) : list string :=
  match s with
  | EmptyString => []
  | String _ t =>
      match skip with
      | S k => importsFrom t k
      | O =>
          match importAt s with
          | Some (captured, len) => captured :: importsFrom t (len - 1)
          | None => importsFrom t 0
          end
      end
  end.

(** [extractDependencies]; [indexTs] is the read of [index.ts]. *)
Definition extractDependencies (indexTs : option string) : list string :=
  match indexTs with
  | None => []
  | Some content => map capitalizeComponentName (importsFrom content 0)
  end.

(** [extractVersion]: [packageJson.version || '1.0.0']. *)
Definition extractVersion (packageVersion : option string) : string :=
  match packageVersion with
  | Some v => if truthy v then v else "1.0.0"
  | None => "1.0.0"
  end.

(** The parser object: [new ComponentParser(sourcePath, packageName)]. *)
Record t : Type := mk {
  sourcePath : string;
  packageName : string
}.

Definition new (sourcePath : string) : t :=
  mk sourcePath "@private/basic-components".

Section Parse.

Variable this : t.
Variable fs : FS.t.
(** [new Date().toISOString()] *)
Variable now : string.

(** [extractComponentDoc] *)
Definition extractComponentDoc (componentPath componentName : string)
  : result ComponentDoc.t :=
  let files := FS.files fs componentPath in
  let description := extractDescription componentPath (FS.indexMd files) in
  let api := extractAPI (FS.indexMd files) in
  let examples := extractExamples (FS.demo files) in
  bind (extractTags componentPath) (fun tags =>
  let dependencies := extractDependencies (FS.indexTs files) in
  Ok (ComponentDoc.mk
        (packageName this)
        (capitalizeComponentName componentName)
        description api examples tags
        (extractVersion (FS.packageVersion fs))
        dependencies now)).

(** [createEmptyComponentDoc] *)
Definition createEmptyComponentDoc (componentName : string) : ComponentDoc.t :=
  ComponentDoc.mk
    (packageName this)
    (capitalizeComponentName componentName)
    (capitalizeComponentName componentName ++ " component")
    apiNotAvailable [] ["ui"; "react"; "component"] "1.0.0" [] now.

(** [parseComponent] *)
Definition parseComponent (componentName : string) : result ParsedComponent.t :=
  let componentPath :=
    FS.pathJoin (FS.pathJoin (sourcePath this) "components") componentName in
  catch
    (bind (FS.access (FS.files fs componentPath)) (fun _ =>
     bind (extractComponentDoc componentPath componentName) (fun componentDoc =>
     Ok (ParsedComponent.mk componentDoc componentPath
           ParsedComponent.Success None))))
    (fun error =>
       Err (ComponentParseError
              ("Failed to parse component " ++ componentName ++ ": "
               ++ errorToString error)
              componentPath)).

(** [parseAllComponents] *)
Definition parseAllComponents : result (list ParsedComponent.t) :=
  let componentsPath := FS.pathJoin (sourcePath this) "components" in
  catch
    (bind (FS.readdir fs) (fun entries =>
     let componentDirs :=
       map FS.name
         (filter
            (fun entry => FS.isDirectory entry
                          && negb (startsWith (FS.name entry) "_"))
            entries) in
     Ok (map
           (fun componentName =>
              match parseComponent componentName with
              | Ok parsed => parsed
              | Err error =>
                  ParsedComponent.mk
                    (createEmptyComponentDoc componentName)
                    (FS.pathJoin componentsPath componentName)
                    ParsedComponent.Error
                    (Some (message error))
              end)
           componentDirs)))
    (fun error =>
       Err (ComponentParseError
              ("Failed to parse components: " ++ errorToString error)
              (sourcePath this))).

End Parse.

End ComponentParser.

(** ** OpenAIEmbeddings *)

Module OpenAIEmbeddings.

Import JS.
Local Open Scope string_scope.

(** One element of [response.data]. *)
Record item : Type := mkItem {
  index : Z;
  embedding : list Q
}.

(** What [client.embeddings.create] does with a request: it resolves to a
    response or rejects with an error. *)
Inductive reply : Type :=
| Response (data : list item)
| Failure (error : Error).

(** The embedding provider. [client texts attempt] is its reply to the
    [attempt]-th request that one call of [createEmbedding] makes for
    [texts]. *)
Definition Client : Type := list string -> nat -> reply.

(** What [createEmbedding] does besides computing its result. *)
Inductive event : Type :=
| Request (attempt : nat)
| Delay (ms : nat).

Record t : Type := mk {
  client : Client;
  model : string;
  maxRetries : nat;
  retryDelay : nat
}.

(** [new OpenAIEmbeddings(apiKey, model)], with the default
    [maxRetries = 3] and [retryDelay = 1000]. *)
Definition new (client : Client) (model : string) : t :=
  mk client model 3 1000.

Section Methods.

Variable this : t.

(** The error of the last attempt, as the [catch] block words it. *)
Definition finalError (error : Error) : Error :=
  if includes (message error) "quota" then
    EmbeddingError "OpenAI API quota exceeded. Please check your billing." "openai"
  else if includes (message error) "401" then
    EmbeddingError
      "OpenAI API authentication failed. Please check your API key." "openai"
  else
    EmbeddingError
      ("OpenAI API error after " ++ natToString (maxRetries this)
       ++ " attempts: " ++ message error)
      "openai".

Definition afterLoopError : Error :=
  EmbeddingError
    ("Failed to create embedding after " ++ natToString (maxRetries this)
     ++ " attempts")
    "openai".

(** [response.data.sort((a, b) => a.index - b.index).map(item => item.embedding)] *)
Definition orderedEmbeddings (data : list item) : list (list Q) :=
  map embedding (sort (fun a b => (index a - index b <=? 0)%Z) data).

(** The loop [for (attempt = ...; attempt <= maxRetries; attempt++)] of
    [createEmbedding], from the given [attempt] on; [fuel] bounds the
    number of iterations. *)
Fixpoint attemptsFrom (texts : list string) (fuel attempt : nat)
  : result (list (list Q)) * list event :=
  match fuel with
  | O => (Err afterLoopError, [])
  | S fuel' =>
      if (attempt <=? maxRetries this)%nat then
        match client this texts attempt with
        | Response data => (Ok (orderedEmbeddings data), [Request attempt])
        | Failure error =>
            if (attempt <? maxRetries this)%nat then
              let '(r, events) := attemptsFrom texts fuel' (S attempt) in
              (r, Request attempt :: Delay (retryDelay this * attempt) :: events)
            else (Err (finalError error), [Request attempt])
        end
      else (Err afterLoopError, [])
  end.

(** [createEmbedding] with what it did on the way. *)
Definition createEmbeddingTrace (texts : list string)
  : result (list (list Q)) * list event :=
  attemptsFrom texts (S (maxRetries this)) 1.

Definition createEmbedding (texts : list string) : result (list (list Q)) :=
  fst (createEmbeddingTrace texts).

(** [embedText]: the first vector of the response, [response[0]], which is
    [undefined] ([None]) when the response is empty. *)
Definition embedText (text : string) : result (option (list Q)) :=
  if negb (truthy (trim text)) then
    Err (EmbeddingError "Text cannot be empty" "openai")
  else
    catch
      (bind (createEmbedding [text]) (fun response => Ok (nth_error response 0)))
      (fun error =>
         Err (EmbeddingError
                ("Failed to generate embedding for text: " ++ errorToString error)
                "openai")).

(** [embedTexts] *)
Definition embedTexts (texts : list string) : result (list (list Q)) :=
  match texts with
  | [] => Ok []
  | _ =>
      let validTexts := filter (fun text => truthy (trim text)) texts in
      match validTexts with
      | [] => Err (EmbeddingError "No valid texts provided" "openai")
      | _ =>
          catch (createEmbedding validTexts)
            (fun error =>
               Err (EmbeddingError
                      ("Failed to generate embeddings for "
                       ++ natToString (List.length validTexts) ++ " texts: "
                       ++ errorToString error)
                      "openai"))
      end
  end.

(** The loop of [embedTextsInBatches] over the slices of the texts: the
    vectors of each slice are appended to the results; the first slice that
    fails ends the loop with its error. The wait of 100 ms between two
    slices does not enter the result. *)
Fixpoint embedBatches (batches : list (list string)) : result (list (list Q)) :=
  match batches with
  | [] => Ok []
  | batch :: rest =>
      bind (embedTexts batch) (fun embeddings =>
      bind (embedBatches rest) (fun results => Ok (embeddings ++ results)%list))
  end.

(** [embedTextsInBatches]. With a [batchSize] of zero the index of the loop
    never advances: the call does not return ([None]) unless there is no
    text. *)
Definition embedTextsInBatches (texts : list string) (batchSize : nat)
  : option (result (list (list Q))) :=
  match batchSize, texts with
  | O, [] => Some (Ok [])
  | O, _ => None
  | S _, _ => Some (embedBatches (chunks batchSize texts))
  end.

End Methods.

End OpenAIEmbeddings.

(** ** FileVectorStore *)

Module FileVectorStore.

Import JS.
Local Open Scope string_scope.

(** An element of [vectors.json]. *)
Record entry : Type := mkEntry {
  id : string;
  embedding : list Q;
  meta : VectorDocument.metadata
}.

Definition entryOf (doc : VectorDocument.t) : entry :=
  mkEntry (VectorDocument.id doc) (VectorDocument.embedding doc)
          (VectorDocument.meta doc).

(** The backing files, read and written without failure:
    [documents.json], [vectors.json] and the document count of
    [metadata.json]. *)
Record t : Type := mk {
  documents : list VectorDocument.t;
  index : list entry;
  totalDocuments : nat
}.

(** The files as [initialize] creates them. *)
Definition empty : t := mk [] [] 0.

(** [generateDocumentId] *)
Definition generateDocumentId (componentName type content : string) : string :=
  let hash := MD5.hex (componentName ++ "-" ++ type ++ "-" ++ content) in
  componentName ++ "-" ++ type ++ "-" ++ take 8 hash.

Definition hasId (ids : list string) (i : string) : bool :=
  existsb (String.eqb i) ids.

(** [addDocuments] *)
Definition addDocuments (this : t) (docs : list VectorDocument.t) : t :=
  let existingDocs := documents this in
  let existingIndex := index this in
  let existingIds := map VectorDocument.id existingDocs in
  let newDocs :=
    filter (fun doc => negb (hasId existingIds (VectorDocument.id doc))) docs in
  match newDocs with
  | [] => this
  | _ =>
      let allDocs := (existingDocs ++ newDocs)%list in
      let newIndexEntries := map entryOf newDocs in
      let allIndexEntries := (existingIndex ++ newIndexEntries)%list in
      mk allDocs allIndexEntries (List.length allDocs)
  end.

(** [deleteDocuments] *)
Definition deleteDocuments (this : t) (ids : list string) : t :=
  let remainingDocs :=
    filter (fun doc => negb (hasId ids (VectorDocument.id doc))) (documents this) in
  let remainingIndex :=
    filter (fun item => negb (hasId ids (id item))) (index this) in
  mk remainingDocs remainingIndex (List.length remainingDocs).

(** [clear] *)
Definition clear (this : t) : t := mk [] [] 0.

(** [new Map(documents.map(doc => [doc.id, doc])).get(id)]: of several
    documents with one id the map keeps the last. *)
Fixpoint docMapGet (docs : list VectorDocument.t) (i : string)
  : option VectorDocument.t :=
  match docs with
  | [] => None
  | doc :: rest =>
      match docMapGet rest i with
      | Some later => Some later
      | None => if String.eqb (VectorDocument.id doc) i then Some doc else None
      end
  end.

(** [new Set(names).size] *)
Fixpoint distinct (names : list string) : list string :=
  match names with
  | [] => []
  | n :: rest => if hasId rest n then distinct rest else n :: distinct rest
  end.

(** [packageStats]: one counter per package name, in the order the names
    first occur (for names that are not inherited object properties). *)
Fixpoint countInto (stats : list (string * nat)) (packageName : string)
  : list (string * nat) :=
  match stats with
  | [] => [(packageName, 1)]
  | (k, n) :: rest =>
      if String.eqb k packageName then (k, S n) :: rest
      else (k, n) :: countInto rest packageName
  end.

Record RAGIndexStats : Type := mkStats {
  totalComponents : nat;
  statsTotalDocuments : nat;
  indexSize : nat;
  lastUpdated : string;
  packageStats : list (string * nat)
}.

(** [getStats]; [indexBytes] and [docsBytes] are the sizes [fs.stat]
    reports for the two files, [now] is [new Date().toISOString()]. *)
Definition getStats (this : t) (indexBytes docsBytes : nat) (now : string)
  : RAGIndexStats :=
  let docs := documents this in
  mkStats
    (List.length
       (distinct
          (map (fun doc => VectorDocument.componentName (VectorDocument.meta doc))
             docs)))
    (List.length docs)
    (indexBytes + docsBytes)
    now
    (fold_left countInto
       (map (fun doc => VectorDocument.packageName (VectorDocument.meta doc)) docs)
       []).

Section Search.

(** [Math.sqrt] *)
Variable sqrt : Q -> Q.

(** The three sums of the loop of [cosineSimilarity]. *)
Fixpoint sums (vecA vecB : list Q) (acc : Q * Q * Q) : Q * Q * Q :=
  match vecA, vecB with
  | a :: restA, b :: restB =>
      let '(dotProduct, normA, normB) := acc in
      sums restA restB (dotProduct + a * b, normA + a * a, normB + b * b)%Q
  | _, _ => acc
  end.

(** [cosineSimilarity] *)
Definition cosineSimilarity (vecA vecB : list Q) : result Q :=
  if negb (List.length vecA =? List.length vecB)%nat then
    Err (mkError "Error" "Vector dimensions must match" "")
  else
    let '(dotProduct, normA, normB) := sums vecA vecB (0, 0, 0)%Q in
    let magnitude := (sqrt normA * sqrt normB)%Q in
    if Qeq_bool magnitude 0 then Ok 0%Q
    else Ok (dotProduct / magnitude)%Q.

(** An index entry with its [similarity]. *)
Definition scored : Type := (entry * Q)%type.

(** [similarities.filter(...).sort(...).slice(0, topK)] *)
Definition best (topK : nat) (threshold : Q) (similarities : list scored)
  : list scored :=
  slice 0 topK
    (sort (fun a b => Qle_bool (snd b - snd a) 0)
       (filter (fun item => Qle_bool threshold (snd item)) similarities)).

(** [filtered.map(item => docMap.get(item.id)).filter(doc => doc !== undefined)] *)
Definition fullDocuments (docs : list VectorDocument.t) (items : list scored)
  : list VectorDocument.t :=
  flat_map
    (fun item =>
       match docMapGet docs (id (fst item)) with
       | Some doc => [doc]
       | None => []
       end)
    items.

(** [similaritySearch] *)
Definition similaritySearch (this : t) (queryEmbedding : list Q)
    (topK : nat) (threshold : Q) : result (list VectorDocument.t) :=
  catch
    (match index this with
     | [] => Ok []
     | idx =>
         bind
           (sequence
              (map
                 (fun item =>
                    bind (cosineSimilarity queryEmbedding (embedding item))
                      (fun similarity => Ok (item, similarity)))
                 idx))
           (fun similarities =>
              Ok (fullDocuments (documents this)
                    (best topK threshold similarities)))
     end)
    (fun error =>
       Err (VectorStoreError
              ("Failed to perform similarity search: " ++ errorToString error)
              "similaritySearch")).

(** The [filters] argument of [searchWithFilters]. *)
Record Filters : Type := mkFilters {
  packageName : option string;
  componentName : option string;
  tags : option (list string);
  type : option string
}.

(** [filters.x && value !== filters.x] *)
Definition rejects (wanted : option string) (value : string) : bool :=
  match wanted with
  | Some w => truthy w && negb (String.eqb value w)
  | None => false
  end.

Definition passes (filters : Filters) (doc : VectorDocument.t) : bool :=
  let m := VectorDocument.meta doc in
  if rejects (packageName filters) (VectorDocument.packageName m) then false
  else if rejects (componentName filters) (VectorDocument.componentName m) then false
  else if rejects (type filters) (VectorDocument.facetName (VectorDocument.type m))
  then false
  else
    match tags filters with
    | Some (t :: ts) =>
        existsb (fun tag => hasId (VectorDocument.tags m) tag) (t :: ts)
    | _ => true
    end.

(** [searchWithFilters] *)
Definition searchWithFilters (this : t) (queryEmbedding : list Q)
    (filters : Filters) (topK : nat) (threshold : Q)
  : result (list VectorDocument.t) :=
  catch
    (bind (similaritySearch this queryEmbedding 1000 threshold)
       (fun allResults => Ok (slice 0 topK (filter (passes filters) allResults))))
    (fun error =>
       Err (VectorStoreError
              ("Failed to search with filters: " ++ errorToString error)
              "searchWithFilters")).

End Search.

End FileVectorStore.

(** ** SmartCache *)

Module SmartCache.

Import JS.
Local Open Scope string_scope.

Record CacheEntry : Type := mkEntry {
  value : RAGSearchResponse.t;
  timestamp : Z;
  hits : nat;
  embedding : option (list Q)
}.

Record Stats : Type := mkStats {
  statHits : nat;
  statMisses : nat;
  totalResponseTime : Z;
  queries : nat
}.

(** The cache object. An entry is an object that both maps may hold: the
    maps store its address in [heap], so that an update through one map
    is seen through the other. *)
Record t : Type := mk {
  heap : list CacheEntry;
  cache : list (string * nat);
  semanticCache : list (string * nat);
  maxSize : nat;
  maxAge : Z;
  similarityThreshold : Q;
  stats : Stats
}.

(** [new SmartCache(maxSize, maxAge, similarityThreshold)]; the defaults
    of the constructor are [1000], [300000] and [0.95]. *)
Definition new (maxSize : nat) (maxAge : Z) (similarityThreshold : Q) : t :=
  mk [] [] [] maxSize maxAge similarityThreshold (mkStats 0 0 0 0).

(** *** [Map] operations, in insertion order *)

Fixpoint mapGet {V : Type} (m : list (string * V)) (key : string) : option V :=
  match m with
  | [] => None
  | (k, v) :: rest => if String.eqb k key then Some v else mapGet rest key
  end.

Definition mapHas {V : Type} (m : list (string * V)) (key : string) : bool :=
  match mapGet m key with Some _ => true | None => false end.

Definition mapDelete {V : Type} (m : list (string * V)) (key : string)
  : list (string * V) :=
  filter (fun kv => negb (String.eqb (fst kv) key)) m.

(** [m.set(key, v)]: a key already present keeps its place. *)
Fixpoint mapSet {V : Type} (m : list (string * V)) (key : string) (v : V)
  : list (string * V) :=
  match m with
  | [] => [(key, v)]
  | (k, old) :: rest =>
      if String.eqb k key then (k, v) :: rest else (k, old) :: mapSet rest key v
  end.

(** [entry.hits++] on the object at [address]. *)
Fixpoint bumpHits (heap : list CacheEntry) (address : nat) : list CacheEntry :=
  match heap, address with
  | [], _ => []
  | e :: rest, O =>
      mkEntry (value e) (timestamp e) (S (hits e)) (embedding e) :: rest
  | e :: rest, S a => e :: bumpHits rest a
  end.

(** [generateKey]; [filters] is [JSON.stringify(filters)] when the
    argument is given. *)
Definition generateKey (query : string) (filters : option string) : string :=
  MD5.hex (trim (toLowerCase query)
           ++ match filters with Some json => json | None => "" end).

Section Methods.

(** [Math.sqrt] *)
Variable sqrt : Q -> Q.

Fixpoint sums (a b : list Q) (acc : Q * Q * Q) : Q * Q * Q :=
  match a, b with
  | x :: restA, y :: restB =>
      let '(dotProduct, normA, normB) := acc in
      sums restA restB (dotProduct + x * y, normA + x * x, normB + y * y)%Q
  | _, _ => acc
  end.

(** [cosineSimilarity] *)
Definition cosineSimilarity (a b : list Q) : Q :=
  if negb (List.length a =? List.length b)%nat then 0%Q
  else
    let '(dotProduct, normA, normB) := sums a b (0, 0, 0)%Q in
    if Qeq_bool normA 0 || Qeq_bool normB 0 then 0%Q
    else (dotProduct / (sqrt normA * sqrt normB))%Q.

Definition withStats (this : t) (s : Stats) : t :=
  mk (heap this) (cache this) (semanticCache this) (maxSize this)
     (maxAge this) (similarityThreshold this) s.

Definition withCache (this : t) (c : list (string * nat)) : t :=
  mk (heap this) c (semanticCache this) (maxSize this)
     (maxAge this) (similarityThreshold this) (stats this).

Definition withHeap (this : t) (h : list CacheEntry) : t :=
  mk h (cache this) (semanticCache this) (maxSize this)
     (maxAge this) (similarityThreshold this) (stats this).

(** [stats.hits++; stats.totalResponseTime += Date.now() - startTime] *)
Definition recordHit (this : t) (elapsed : Z) : t :=
  let s := stats this in
  withStats this
    (mkStats (S (statHits s)) (statMisses s) (totalResponseTime s + elapsed)
       (queries s)).

(** [stats.misses++; stats.totalResponseTime += Date.now() - startTime] *)
Definition recordMiss (this : t) (elapsed : Z) : t :=
  let s := stats this in
  withStats this
    (mkStats (statHits s) (S (statMisses s)) (totalResponseTime s + elapsed)
       (queries s)).

(** The test of the semantic loop on the entry at [address]. *)
Definition semanticMatch (this : t) (queryEmbedding : list Q) (now : Z)
    (address : nat) : bool :=
  match nth_error (heap this) address with
  | Some entry =>
      match embedding entry with
      | Some e =>
          (now - timestamp entry <=? maxAge this)%Z
          && Qle_bool (similarityThreshold this)
               (cosineSimilarity queryEmbedding e)
      | None => false
      end
  | None => false
  end.

(** Step 2 of [get] and its fall-through to the miss. *)
Definition getSemantic (this : t) (queryEmbedding : option (list Q))
    (startTime now : Z) : option RAGSearchResponse.t * t :=
  let found :=
    match queryEmbedding with
    | Some (x :: rest) =>
        find (semanticMatch this (x :: rest) now) (map snd (semanticCache this))
    | _ => None
    end in
  match found with
  | Some address =>
      (option_map value (nth_error (heap this) address),
       recordHit (withHeap this (bumpHits (heap this) address))
         (now - startTime)%Z)
  | None => (None, recordMiss this (now - startTime)%Z)
  end.

(** [get]; [startTime] is the first reading of [Date.now()], [now] the
    later ones. *)
Definition get (this : t) (query : string) (queryEmbedding : option (list Q))
    (filters : option string) (startTime now : Z)
  : option RAGSearchResponse.t * t :=
  let s := stats this in
  let this :=
    withStats this
      (mkStats (statHits s) (statMisses s) (totalResponseTime s) (S (queries s))) in
  let key := generateKey query filters in
  match mapGet (cache this) key with
  | Some address =>
      match nth_error (heap this) address with
      | Some exactMatch =>
          if (now - timestamp exactMatch <=? maxAge this)%Z then
            let this := withHeap this (bumpHits (heap this) address) in
            let this := recordHit this (now - startTime)%Z in
            let this :=
              withCache this (mapSet (mapDelete (cache this) key) key address) in
            (Some (value exactMatch), this)
          else
            getSemantic (withCache this (mapDelete (cache this) key))
              queryEmbedding startTime now
      | None => getSemantic this queryEmbedding startTime now
      end
  | None => getSemantic this queryEmbedding startTime now
  end.

(** [set]; [now] is [Date.now()]. *)
Definition set (this : t) (query : string) (v : RAGSearchResponse.t)
    (queryEmbedding : option (list Q)) (filters : option string) (now : Z) : t :=
  let key := generateKey query filters in
  let '(cache1, semantic1) :=
    if (maxSize this <=? List.length (cache this))%nat then
      match cache this with
      | (firstEntry, _) :: _ =>
          if truthy firstEntry then
            (mapDelete (cache this) firstEntry,
             if mapHas (semanticCache this) firstEntry
             then mapDelete (semanticCache this) firstEntry
             else semanticCache this)
          else (cache this, semanticCache this)
      | [] => (cache this, semanticCache this)
      end
    else (cache this, semanticCache this) in
  let entry := mkEntry v now 0 queryEmbedding in
  let address := List.length (heap this) in
  let semantic2 :=
    match queryEmbedding with
    | Some (_ :: _) => mapSet semantic1 key address
    | _ => semantic1
    end in
  mk (heap this ++ [entry])%list (mapSet cache1 key address) semantic2
     (maxSize this) (maxAge this) (similarityThreshold this) (stats this).

(** [clear] *)
Definition clear (this : t) : t :=
  mk (heap this) [] [] (maxSize this) (maxAge this)
     (similarityThreshold this) (stats this).

Record CacheStats : Type := mkCacheStats {
  size : nat;
  csHits : nat;
  csMisses : nat;
  hitRate : Q;
  avgResponseTime : Q;
  oldestEntry : Z;
  totalQueries : nat
}.

Definition natQ (n : nat) : Q := inject_Z (Z.of_nat n).

(** [getStats]; [now] is [Date.now()]. *)
Definition getStats (this : t) (now : Z) : CacheStats :=
  let timestamps :=
    flat_map
      (fun kv =>
         match nth_error (heap this) (snd kv) with
         | Some e => [timestamp e]
         | None => []
         end)
      (cache this) in
  let oldestTimestamp :=
    match timestamps with
    | [] => now
    | ts :: rest => fold_left Z.min rest ts
    end in
  let s := stats this in
  mkCacheStats
    (List.length (cache this))
    (statHits s)
    (statMisses s)
    (if (0 <? queries s)%nat then (natQ (statHits s) / natQ (queries s))%Q else 0%Q)
    (if (0 <? queries s)%nat
     then (inject_Z (totalResponseTime s) / natQ (queries s))%Q else 0%Q)
    oldestTimestamp
    (queries s).

End Methods.

End SmartCache.

(** ** RAGService *)

Module RAGService.

Import JS.
Local Open Scope string_scope.

Record CacheConfig : Type := mkCacheConfig {
  enabled : bool;
  ttl : Z;
  maxSize : option nat
}.

Record OpenAIConfig : Type := mkOpenAIConfig {
  apiKey : string;
  model : string
}.

Record RAGConfig : Type := mkConfig {
  vectorStoreKind : string;
  embeddingModel : string;
  dimension : nat;
  cacheConfig : option CacheConfig;
  openai : option OpenAIConfig
}.

(** [defaultRAGConfig]; [envKey] is [process.env.OPENAI_API_KEY || '']. *)
Definition defaultRAGConfig (envKey : string) : RAGConfig :=
  mkConfig "file" "openai" 1536
    (Some (mkCacheConfig true 300 None))
    (Some (mkOpenAIConfig envKey "text-embedding-3-small")).

Record t : Type := mk {
  embeddings : OpenAIEmbeddings.t;
  vectorStore : FileVectorStore.t;
  parser : ComponentParser.t;
  config : RAGConfig;
  cache : SmartCache.t
}.

(** The constructor. [client] is the provider behind the OpenAI client and
    [store] the content of [./data/rag-index] when the service starts. *)
Definition new (client : OpenAIEmbeddings.Client) (store : FileVectorStore.t)
    (config : RAGConfig) (sourcePath : string) : t :=
  mk
    (OpenAIEmbeddings.new client
       match openai config with
       | Some o => if truthy (model o) then model o else "text-embedding-3-small"
       | None => "text-embedding-3-small"
       end)
    store
    (ComponentParser.new sourcePath)
    config
    (SmartCache.new
       match cacheConfig config with
       | Some c =>
           match maxSize c with
           | Some (S n) => S n
           | _ => 1000
           end
       | None => 1000
       end
       (match cacheConfig config with
        | Some c => if (ttl c =? 0)%Z then 300 else ttl c
        | None => 300
        end * 1000)%Z
       (92 # 100)%Q).

(** The texts [createComponentVectors] collects, each with the [type] of
    its metadata: the entries of [metadataList] and [contentList] ([texts]
    holds the same strings as [contentList]). *)
Definition collectFacets (component : ComponentDoc.t)
  : list (VectorDocument.facet * string) :=
  ((if truthy (ComponentDoc.description component)
    then [(VectorDocument.description, ComponentDoc.description component)]
    else [])
   ++ (if truthy (ComponentDoc.api component)
          && negb (String.eqb (ComponentDoc.api component)
                     "API documentation not available")
       then [(VectorDocument.api, ComponentDoc.api component)]
       else [])
   ++ flat_map
        (fun example =>
           if truthy (trim example) then [(VectorDocument.example, example)] else [])
        (ComponentDoc.examples component))%list.

(** The [type] argument [createComponentVectors] passes to
    [generateDocumentId] for the facet at position [index]. *)
Definition idType (facet : VectorDocument.facet) (index : nat) : string :=
  match facet with
  | VectorDocument.example => "example-" ++ natToString index
  | other => VectorDocument.facetName other
  end.

(** [createComponentVectors] *)
Definition createComponentVectors (embeddings : OpenAIEmbeddings.t)
    (component : ComponentDoc.t) : result (list VectorDocument.t) :=
  let name := ComponentDoc.componentName component in
  let baseMetadata type :=
    VectorDocument.mkMetadata name (ComponentDoc.packageName component) type
      (ComponentDoc.tags component) (ComponentDoc.version component) in
  let facets := collectFacets component in
  let texts := map snd facets in
  catch
    (match texts with
     | [] => Ok []
     | _ =>
         bind (OpenAIEmbeddings.embedTexts embeddings texts) (fun vectors =>
         sequence
           (mapiFrom
              (fun embedding index =>
                 match nth_error facets index with
                 | Some (type, content) =>
                     Ok (VectorDocument.mk
                           (FileVectorStore.generateDocumentId name
                              (idType type index) content)
                           content embedding (baseMetadata type))
                 | None =>
                     Err (TypeError
                            "Cannot read properties of undefined (reading 'type')")
                 end)
              vectors 0))
     end)
    (fun error =>
       Err (RAGError
              ("Failed to create vectors for " ++ name ++ ": " ++ errorToString error)
              "VECTOR_CREATION_ERROR")).

(** What the promise of one component resolves to in [syncComponents]. *)
Record BatchResult : Type := mkBatchResult {
  success : bool;
  vectors : option (list VectorDocument.t);
  error : option string;
  componentName : string
}.

Definition processComponent (this : t) (parsedComp : ParsedComponent.t)
  : BatchResult :=
  let name := ComponentDoc.componentName (ParsedComponent.info parsedComp) in
  match ParsedComponent.status parsedComp with
  | ParsedComponent.Success =>
      match createComponentVectors (embeddings this) (ParsedComponent.info parsedComp) with
      | Ok vectors => mkBatchResult true (Some vectors) None name
      | Err error =>
          mkBatchResult false None (Some (name ++ ": " ++ errorToString error)) name
      end
  | _ =>
      mkBatchResult false None
        (Some (name ++ ": "
               ++ match ParsedComponent.error parsedComp with
                  | Some m => if truthy m then m else "Parse failed"
                  | None => "Parse failed"
                  end))
        name
  end.

(** The running state of the loop over the batches. *)
Record Progress : Type := mkProgress {
  store : FileVectorStore.t;
  successCount : Z;
  errors : list string
}.

(** The loop [for (const result of batchResults)]: the vectors of the
    batch, the counter and the errors. *)
Fixpoint collect (batchResults : list BatchResult)
    (vectorDocuments : list VectorDocument.t) (successCount : Z)
    (errors : list string) : list VectorDocument.t * Z * list string :=
  match batchResults with
  | [] => (vectorDocuments, successCount, errors)
  | r :: rest =>
      match success r, vectors r with
      | true, Some vs =>
          collect rest (vectorDocuments ++ vs)%list (successCount + 1)%Z errors
      | _, _ =>
          match error r with
          | Some e =>
              if truthy e then collect rest vectorDocuments successCount (errors ++ [e])%list
              else collect rest vectorDocuments successCount errors
          | None => collect rest vectorDocuments successCount errors
          end
      end
  end.

(** One iteration of the loop over the batches. *)
Definition processBatch (this : t) (progress : Progress)
    (batch : list ParsedComponent.t) : Progress :=
  let batchResults := map (processComponent this) batch in
  let '(vectorDocuments, successCount, errors) :=
    collect batchResults [] (successCount progress) (errors progress) in
  mkProgress
    match vectorDocuments with
    | [] => store progress
    | _ => FileVectorStore.addDocuments (store progress) vectorDocuments
    end
    successCount errors.

Definition BATCH_SIZE : nat := 10.

(** [clearCache] *)
Definition clearCache (this : t) : t :=
  mk (embeddings this) (vectorStore this) (parser this) (config this)
     (SmartCache.clear (cache this)).

(** [syncComponents]. [fs] is the source tree, [now] the time stamp the
    parser writes, [duration] what [Date.now() - startTime] evaluates to. *)
Definition syncComponents (this : t) (fs : FS.t) (now : string) (duration : Z)
    (request : ComponentSyncRequest.t) : ComponentSyncResponse.t * t :=
  match ComponentParser.parseAllComponents (parser this) fs now with
  | Err error =>
      (ComponentSyncResponse.mk ComponentSyncResponse.Failed 0 0 (0 - 0)
         ([] ++ [("Sync error: " ++ errorToString error)%string])%list duration,
       this)
  | Ok parsedComponents =>
      let processedCount := Z.of_nat (List.length parsedComponents) in
      let componentsToSync :=
        match ComponentSyncRequest.packages request with
        | Some packages =>
            filter
              (fun comp =>
                 FileVectorStore.hasId packages
                   (ComponentDoc.packageName (ParsedComponent.info comp)))
              parsedComponents
        | None => parsedComponents
        end in
      let store0 :=
        match ComponentSyncRequest.forceReindex request with
        | Some true => FileVectorStore.clear (vectorStore this)
        | _ => vectorStore this
        end in
      let batches := chunks BATCH_SIZE componentsToSync in
      let progress :=
        fold_left (processBatch this) batches (mkProgress store0 0 []) in
      let this :=
        clearCache
          (mk (embeddings this) (store progress) (parser this) (config this)
             (cache this)) in
      (ComponentSyncResponse.mk
         match errors progress with
         | [] => ComponentSyncResponse.Success
         | _ =>
             if (0 <? successCount progress)%Z then ComponentSyncResponse.Partial
             else ComponentSyncResponse.Failed
         end
         processedCount
         (successCount progress)
         (processedCount - successCount progress)
         (errors progress)
         duration,
       this)
  end.

Record RAGServiceStatus : Type := mkStatus {
  available : bool;
  stats : FileVectorStore.RAGIndexStats;
  checkedAt : string
}.

(** [getStatus]; the arguments are those of [FileVectorStore.getStats]. *)
Definition getStatus (this : t) (indexBytes docsBytes : nat) (now : string)
  : RAGServiceStatus :=
  mkStatus true (FileVectorStore.getStats (vectorStore this) indexBytes docsBytes now)
    now.

(** [calculateRelevanceScore]: the score [searchComponents] records for
    each document the vector search returns. *)
Definition calculateRelevanceScore (doc : VectorDocument.t) (query : string) : Q :=
  let score := (8 # 10)%Q in
  let score :=
    match VectorDocument.type (VectorDocument.meta doc) with
    | VectorDocument.description => (score * (12 # 10))%Q
    | VectorDocument.api => (score * 1)%Q
    | VectorDocument.example => (score * (8 # 10))%Q
    | VectorDocument.usage => score
    end in
  let queryLower := toLowerCase query in
  let contentLower := toLowerCase (VectorDocument.content doc) in
  let score :=
    if includes contentLower queryLower then (score * (13 # 10))%Q else score in
  Math_min score 1.

(** [calculateConfidence] *)
Definition calculateConfidence (scores : list Q) : Q :=
  match scores with
  | [] => 0%Q
  | s :: rest =>
      let avgScore :=
        (fold_left Qplus scores 0 / inject_Z (Z.of_nat (List.length scores)))%Q in
      let maxScore := fold_left Math_max rest s in
      (avgScore * (6 # 10) + maxScore * (4 # 10))%Q
  end.

(** [generateSuggestions] *)
Definition generateSuggestions (query : string) (components : list ComponentDoc.t)
  : list string :=
  match components with
  | [] =>
      [ "Try using more general terms in your search";
        "Check if the component name is correct" ]
  | [c] => [ "Found perfect match: " ++ ComponentDoc.componentName c ]
  | c :: _ =>
      [ "Found " ++ natToString (List.length components) ++ " relevant components";
        "Top match: " ++ ComponentDoc.componentName c ]
  end.

(** [reconstructComponentDoc]; [now] is [new Date().toISOString()]. *)
Definition reconstructComponentDoc (metadata : VectorDocument.metadata) (now : string)
  : ComponentDoc.t :=
  ComponentDoc.mk
    (VectorDocument.packageName metadata)
    (VectorDocument.componentName metadata)
    (VectorDocument.componentName metadata ++ " component")
    "API documentation available"
    []
    (VectorDocument.tags metadata)
    (VectorDocument.version metadata)
    []
    now.

(** A value of [componentMap]. *)
Record Group : Type := mkGroup {
  component : ComponentDoc.t;
  scores : list Q;
  totalScore : Q
}.

(** The loop [for (const doc of vectorResults)] of [searchComponents]: a
    document opens the group of its component or adds its score to it. *)
Fixpoint addScore (componentMap : list (string * Group)) (componentKey : string)
    (fresh : Group) (score : Q) : list (string * Group) :=
  match componentMap with
  | [] => [(componentKey, fresh)]
  | (k, existing) :: rest =>
      if String.eqb k componentKey then
        (k, mkGroup (component existing) (scores existing ++ [score])%list
              (totalScore existing))
        :: rest
      else (k, existing) :: addScore rest componentKey fresh score
  end.

Definition groupHits (vectorResults : list VectorDocument.t) (query now : string)
  : list (string * Group) :=
  fold_left
    (fun componentMap doc =>
       let metadata := VectorDocument.meta doc in
       let componentKey :=
         VectorDocument.packageName metadata ++ "-"
         ++ VectorDocument.componentName metadata in
       let score := calculateRelevanceScore doc query in
       addScore componentMap componentKey
         (mkGroup (reconstructComponentDoc metadata now) [score] 0%Q) score)
    vectorResults [].

(** [Math.max(...scores) * 0.7 + (sum / scores.length) * 0.3] *)
Definition groupTotal (scores : list Q) : Q :=
  (match scores with
   | [] => 0
   | s :: rest => fold_left Math_max rest s
   end * (7 # 10)
   + (fold_left Qplus scores 0 / inject_Z (Z.of_nat (List.length scores)))
     * (3 # 10))%Q.

(** The groups with their totals, best first, cut to [topK || 5]. *)
Definition rankGroups (componentMap : list (string * Group)) (topK : option nat)
  : list Group :=
  slice 0
    match topK with
    | Some (S n) => S n
    | _ => 5
    end
    (sort (fun a b => Qle_bool (totalScore b - totalScore a) 0)
       (map
          (fun item =>
             mkGroup (component item) (scores item) (groupTotal (scores item)))
          (map snd componentMap))).

Definition withCache (this : t) (c : SmartCache.t) : t :=
  mk (embeddings this) (vectorStore this) (parser this) (config this) c.

Definition cacheEnabled (this : t) : bool :=
  match cacheConfig (config this) with
  | Some c => enabled c
  | None => false
  end.

(** The filters of the request, as [searchWithFilters] reads them. *)
Definition storeFilters (f : RAGSearchRequest.filters) : FileVectorStore.Filters :=
  FileVectorStore.mkFilters
    (RAGSearchRequest.packageName f) (RAGSearchRequest.componentName f)
    (RAGSearchRequest.tags f) (RAGSearchRequest.type f).

Section Search.

(** [Math.sqrt] *)
Variable sqrt : Q -> Q.

(** The vector search of [searchComponents]. Without a query vector
    ([undefined]) the store returns nothing from an empty index and throws
    on the first entry of any other. *)
Definition vectorSearch (this : t) (queryEmbedding : option (list Q))
    (request : RAGSearchRequest.t) : result (list VectorDocument.t) :=
  let topK :=
    match RAGSearchRequest.topK request with
    | Some (S n) => S n
    | _ => 10
    end in
  let threshold :=
    match RAGSearchRequest.threshold request with
    | Some th => if Qeq_bool th 0 then (5 # 10)%Q else th
    | None => (5 # 10)%Q
    end in
  match queryEmbedding with
  | Some qv =>
      match RAGSearchRequest.requestFilters request with
      | Some f =>
          FileVectorStore.searchWithFilters sqrt (vectorStore this) qv
            (storeFilters f) topK threshold
      | None =>
          FileVectorStore.similaritySearch sqrt (vectorStore this) qv topK threshold
      end
  | None =>
      match FileVectorStore.index (vectorStore this) with
      | [] => Ok []
      | _ =>
          let inner :=
            VectorStoreError
              ("Failed to perform similarity search: "
               ++ errorToString
                    (TypeError "Cannot read properties of undefined (reading 'length')"))
              "similaritySearch" in
          match RAGSearchRequest.requestFilters request with
          | Some _ =>
              Err (VectorStoreError
                     ("Failed to search with filters: " ++ errorToString inner)
                     "searchWithFilters")
          | None => Err inner
          end
      end
  end.

(** [searchComponents]. [now] is the time stamp of the rebuilt component
    records, [clock] the reading of [Date.now()] in the cache, [duration]
    what [Date.now() - startTime] evaluates to. *)
Definition searchComponents (this : t) (now : string) (clock duration : Z)
    (request : RAGSearchRequest.t) : result RAGSearchResponse.t * t :=
  let query := RAGSearchRequest.query request in
  let filtersJson := option_map RAGSearchRequest.json (RAGSearchRequest.requestFilters request) in
  let searchError error :=
    Err (RAGError ("Search failed: " ++ errorToString error) "SEARCH_ERROR") in
  match OpenAIEmbeddings.embedText (embeddings this) query with
  | Err error => (searchError error, this)
  | Ok queryEmbedding =>
      let '(cached, this) :=
        if cacheEnabled this then
          let '(hit, c) :=
            SmartCache.get sqrt (cache this) query queryEmbedding filtersJson
              clock clock in
          (hit, withCache this c)
        else (None, this) in
      match cached with
      | Some response =>
          (Ok (RAGSearchResponse.mk
                 (RAGSearchResponse.components response)
                 (RAGSearchResponse.scores response)
                 (RAGSearchResponse.confidence response)
                 (RAGSearchResponse.suggestions response)
                 duration),
           this)
      | None =>
          match vectorSearch this queryEmbedding request with
          | Err error => (searchError error, this)
          | Ok vectorResults =>
              let results :=
                rankGroups (groupHits vectorResults query now)
                  (RAGSearchRequest.topK request) in
              let response :=
                RAGSearchResponse.mk
                  (map component results)
                  (map totalScore results)
                  (calculateConfidence (map totalScore results))
                  (generateSuggestions query (map component results))
                  duration in
              (Ok response,
               if cacheEnabled this then
                 withCache this
                   (SmartCache.set (cache this) query response queryEmbedding
                      filtersJson clock)
               else this)
          end
      end
  end.

End Search.

End RAGService.

(** ** The HTTP handlers *)

(** What the handlers share: the environment, the configuration they build
    from it and the JSON replies. *)
Module Route.

Import JS.
Local Open Scope string_scope.

(** [process.env] *)
Record Env : Type := mkEnv {
  OPENAI_API_KEY : option string;
  OPENAI_EMBEDDING_MODEL : option string;
  PRIVATE_COMPONENTS_SOURCE_PATH : option string
}.

(** [value || fallback] for a string that may be undefined. *)
Definition orElse (value : option string) (fallback : string) : string :=
  match value with
  | Some v => if truthy v then v else fallback
  | None => fallback
  end.

(** [{ ...defaultRAGConfig, openai: { apiKey, model } }] *)
Definition config (env : Env) : RAGService.RAGConfig :=
  let base := RAGService.defaultRAGConfig (orElse (OPENAI_API_KEY env) "") in
  RAGService.mkConfig
    (RAGService.vectorStoreKind base) (RAGService.embeddingModel base)
    (RAGService.dimension base) (RAGService.cacheConfig base)
    (Some (RAGService.mkOpenAIConfig
             (orElse (OPENAI_API_KEY env) "")
             (orElse (OPENAI_EMBEDDING_MODEL env) "text-embedding-3-small"))).

Definition apiKey (env : Env) : string := orElse (OPENAI_API_KEY env) "".

Definition defaultSourcePath (env : Env) : string :=
  orElse (PRIVATE_COMPONENTS_SOURCE_PATH env)
    "/Users/zhangyanhua/Desktop/AI/docs/private-bizcomponent-website/packages/@private-basic-components".

(** A reply: [{ success: true, ... }] with status 200, or an error text
    with its status and its [details]. *)
Inductive Reply (A : Type) : Type :=
| Json200 (data : A)
| JsonError (status : nat) (error : string) (details : option string).
Arguments Json200 {A} data.
Arguments JsonError {A} status error details.

Definition statusOf {A : Type} (reply : Reply A) : nat :=
  match reply with
  | Json200 _ => 200
  | JsonError status _ _ => status
  end.

(** A number in a condition: zero is falsy (the numbers of a body are
    taken to be finite). *)
Definition truthyNumber (q : Q) : bool := negb (Qeq_bool q 0).

Definition lessThan (a b : Q) : bool := negb (Qle_bool b a).

End Route.

(** [src/app/api/rag/search/route.ts] *)
Module SearchRoute.

Import JS Route.
Local Open Scope string_scope.

(** The body of the request, read as a [RAGSearchRequest]: [query] is
    [None] when the field is absent or not a string; [topK] and
    [threshold] are numbers when present. *)
Record Body : Type := mkBody {
  query : option string;
  topK : option Q;
  threshold : option Q;
  filters : option RAGSearchRequest.filters
}.

(** The [catch] block of [POST]. *)
Definition handleError (error : Error) : Reply RAGSearchResponse.t :=
  if includes (message error) "OpenAI API" then
    JsonError 503 "AI service temporarily unavailable" (Some (message error))
  else if includes (message error) "quota" then
    JsonError 429 "AI service quota exceeded" (Some (message error))
  else if includes (message error) "authentication" then
    JsonError 401 "AI service authentication failed" None
  else JsonError 500 "Internal server error" (Some (message error)).

(** The request [POST] hands to the service. The service uses [topK] as
    the end of a slice only, which drops its fraction. *)
Definition searchRequest (body : Body) (q : string) : RAGSearchRequest.t :=
  RAGSearchRequest.mk q
    (Some (Z.to_nat
             (Qfloor
                match topK body with
                | Some k => if truthyNumber k then k else 5%Q
                | None => 5%Q
                end)))
    (filters body)
    (Some match threshold body with
          | Some t => if truthyNumber t then t else (5 # 10)%Q
          | None => (5 # 10)%Q
          end).

(** [POST]. [body] is the outcome of [request.json()], [client] the
    provider, [store] the index files once [initialize] has run; the
    other arguments are those of [searchComponents]. *)
Definition POST (sqrt : Q -> Q) (env : Env) (client : OpenAIEmbeddings.Client)
    (store : FileVectorStore.t) (now : string) (clock duration : Z)
    (body : result Body) : Reply RAGSearchResponse.t :=
  match body with
  | Err error => handleError error
  | Ok body =>
      match query body with
      | None =>
          JsonError 400 "Query parameter is required and must be a string" None
      | Some q =>
          if negb (truthy q) then
            JsonError 400 "Query parameter is required and must be a string" None
          else if match topK body with
                  | Some k => truthyNumber k && (lessThan k 1 || lessThan 50 k)
                  | None => false
                  end
          then JsonError 400 "topK must be between 1 and 50" None
          else if match threshold body with
                  | Some t => truthyNumber t && (lessThan t 0 || lessThan 1 t)
                  | None => false
                  end
          then JsonError 400 "threshold must be between 0 and 1" None
          else if negb (truthy (apiKey env)) then
            JsonError 500 "OpenAI API key not configured" None
          else
            let ragService :=
              RAGService.new client store (config env) (defaultSourcePath env) in
            match
              fst (RAGService.searchComponents sqrt ragService now clock duration
                     (searchRequest body q))
            with
            | Ok result => Json200 result
            | Err error => handleError error
            end
      end
  end.

End SearchRoute.

(** [src/app/api/rag/sync/route.ts] *)
Module SyncRoute.

Import JS Route.
Local Open Scope string_scope.

(** [body.packages]: absent or falsy, an array (of strings), or any other
    truthy value. *)
Inductive PackagesField : Type :=
| NoPackages
| PackageList (packages : list string)
| NotAnArray.

(** The body of the request, read as a [ComponentSyncRequest]:
    [sourcePath] is [None] when the field is absent or not a string,
    [forceReindex] is the truthiness of the field. *)
Record Body : Type := mkBody {
  sourcePath : option string;
  forceReindex : bool;
  packages : PackagesField
}.

(** The [catch] block of [POST]. *)
Definition handleError (error : Error) : Reply ComponentSyncResponse.t :=
  if includes (message error) "ENOENT" || includes (message error) "not found" then
    JsonError 404 "Source path not found" (Some (message error))
  else if includes (message error) "EACCES" || includes (message error) "permission"
  then JsonError 403 "Permission denied accessing source path" (Some (message error))
  else if includes (message error) "OpenAI API" then
    JsonError 503 "AI service temporarily unavailable" (Some (message error))
  else if includes (message error) "quota" then
    JsonError 429 "AI service quota exceeded" (Some (message error))
  else JsonError 500 "Internal server error" (Some (message error)).

(** [POST], with the index files it leaves. [body] is the outcome of
    [request.json()], [fs] the tree under the source path of the body;
    the other arguments are those of [syncComponents], which returns a
    response whatever happens. *)
Definition POST (env : Env) (client : OpenAIEmbeddings.Client)
    (store : FileVectorStore.t) (fs : FS.t) (now : string) (duration : Z)
    (body : result Body) : Reply ComponentSyncResponse.t * FileVectorStore.t :=
  match body with
  | Err error => (handleError error, store)
  | Ok body =>
      match sourcePath body with
      | None =>
          (JsonError 400 "sourcePath parameter is required and must be a string" None,
           store)
      | Some path =>
          if negb (truthy path) then
            (JsonError 400 "sourcePath parameter is required and must be a string"
               None,
             store)
          else
            match packages body with
            | NotAnArray =>
                (JsonError 400 "packages parameter must be an array of strings" None,
                 store)
            | field =>
                if negb (truthy (apiKey env)) then
                  (JsonError 500 "OpenAI API key not configured" None, store)
                else
                  let ragService := RAGService.new client store (config env) path in
                  let syncRequest :=
                    ComponentSyncRequest.mk path
                      (Some (forceReindex body || false))
                      match field with
                      | PackageList l => Some l
                      | _ => None
                      end in
                  let '(result, ragService) :=
                    RAGService.syncComponents ragService fs now duration syncRequest in
                  (Json200 result, RAGService.vectorStore ragService)
            end
      end
  end.

End SyncRoute.

(** [src/app/api/admin/rag/route.ts] *)
Module AdminRoute.

Import JS Route.
Local Open Scope string_scope.

(** [DELETE], with the index files it leaves. [syncComponents] returns a
    response whatever happens, which the handler drops. *)
Definition DELETE (env : Env) (client : OpenAIEmbeddings.Client)
    (store : FileVectorStore.t) (fs : FS.t) (now : string) (duration : Z)
  : Reply string * FileVectorStore.t :=
  let ragService :=
    RAGService.new client store (config env) (defaultSourcePath env) in
  let '(_, ragService) :=
    RAGService.syncComponents ragService fs now duration
      (ComponentSyncRequest.mk (defaultSourcePath env) (Some true) (Some [])) in
  let ragService := RAGService.clearCache ragService in
  (Json200 "All RAG index data deleted successfully",
   RAGService.vectorStore ragService).

End AdminRoute.

(** ** Vocabulary of the specification *)

Module Spec.

Import JS.
Local Open Scope string_scope.

(** Two lists hold the same set of tags. *)
Definition sameTags (l1 l2 : list string) : Prop :=
  forall tag, In tag l1 <-> In tag l2.

(** The key [extractTags] looks up for a component directory. *)
Definition tagKey (componentPath : string) : string :=
  toLowerCase (FS.basename componentPath).

(** The extra tags of a key: its row of [tagMapping], or [ui]. *)
Definition extraTags (key : string) : list string :=
  match ComponentParser.lookup key ComponentParser.tagMapping with
  | Some tags => tags
  | None => ["ui"]
  end.

Definition componentNameOf (doc : VectorDocument.t) : string :=
  VectorDocument.componentName (VectorDocument.meta doc).

Definition packageNameOf (doc : VectorDocument.t) : string :=
  VectorDocument.packageName (VectorDocument.meta doc).

Definition pair_eq_dec (a b : string * string) : {a = b} + {a <> b}.
Proof. decide equality; apply string_dec. Defined.

(** The specification's count of components: the number of distinct
    [(packageName, componentName)] pairs among the documents. *)
Definition distinctPairs (docs : list VectorDocument.t) : nat :=
  List.length
    (nodup pair_eq_dec (map (fun doc => (packageNameOf doc, componentNameOf doc)) docs)).

(** The events of [k] attempts of which all but the last fail: each failed
    attempt is followed by a delay of [retryDelay * attempt]. *)
Fixpoint scheduleFrom (retryDelay n attempt : nat) : list OpenAIEmbeddings.event :=
  match n with
  | O => []
  | S O => [OpenAIEmbeddings.Request attempt]
  | S n' =>
      OpenAIEmbeddings.Request attempt
      :: OpenAIEmbeddings.Delay (retryDelay * attempt)
      :: scheduleFrom retryDelay n' (S attempt)
  end.

Definition schedule (retryDelay k : nat) : list OpenAIEmbeddings.event :=
  scheduleFrom retryDelay k 1.

(** The number of requests sent to the provider. *)
Fixpoint requests (events : list OpenAIEmbeddings.event) : nat :=
  match events with
  | [] => O
  | OpenAIEmbeddings.Request _ :: rest => S (requests rest)
  | OpenAIEmbeddings.Delay _ :: rest => requests rest
  end.

(** A text that [embedTexts] keeps: not empty and not only white space. *)
Definition nonBlank (text : string) : Prop := truthy (trim text) = true.

(** The provider's answer to a request for [n] texts is well formed when it
    holds one item for each position [0 .. n-1]. *)
Definition wellFormed (data : list OpenAIEmbeddings.item) (n : nat) : Prop :=
  Permutation (map OpenAIEmbeddings.index data) (map Z.of_nat (seq 0 n)).

(** The provider fails at the attempts before [k] and answers [data] at
    attempt [k]. *)
Definition respondsAt (this : OpenAIEmbeddings.t) (texts : list string)
    (k : nat) (data : list OpenAIEmbeddings.item) : Prop :=
  (1 <= k <= OpenAIEmbeddings.maxRetries this)%nat
  /\ (forall a, (1 <= a < k)%nat ->
        exists e, OpenAIEmbeddings.client this texts a = OpenAIEmbeddings.Failure e)
  /\ OpenAIEmbeddings.client this texts k = OpenAIEmbeddings.Response data.

(** The id of a document as the specification words it: the component
    name, the [type] of the metadata, and eight digits of the MD5 of the
    concatenation of name, type and content. *)
Definition claimedId (doc : VectorDocument.t) : string :=
  let name := componentNameOf doc in
  let facetType := VectorDocument.facetName (VectorDocument.type (VectorDocument.meta doc)) in
  name ++ "-" ++ facetType ++ "-"
  ++ take 8 (MD5.hex (name ++ facetType ++ VectorDocument.content doc)).

(** The same, when the hash is read as taken of the three parts joined
    with dashes, as in the id itself. *)
Definition claimedIdDashed (doc : VectorDocument.t) : string :=
  let name := componentNameOf doc in
  let facetType := VectorDocument.facetName (VectorDocument.type (VectorDocument.meta doc)) in
  name ++ "-" ++ facetType ++ "-"
  ++ take 8 (MD5.hex (name ++ "-" ++ facetType ++ "-" ++ VectorDocument.content doc)).

(** A call on the cache, with the readings of the clock it makes. *)
Inductive cacheCall : Type :=
| CallGet (query : string) (embedding : option (list Q)) (filters : option string)
    (startTime now : Z)
| CallSet (query : string) (value : RAGSearchResponse.t)
    (embedding : option (list Q)) (filters : option string) (now : Z)
| CallClear.

Definition call (sqrt : Q -> Q) (c : SmartCache.t) (op : cacheCall) : SmartCache.t :=
  match op with
  | CallGet query embedding filters startTime now =>
      snd (SmartCache.get sqrt c query embedding filters startTime now)
  | CallSet query value embedding filters now =>
      SmartCache.set c query value embedding filters now
  | CallClear => SmartCache.clear c
  end.

(** The cache after a sequence of calls. *)
Definition calls (sqrt : Q -> Q) (c : SmartCache.t) (ops : list cacheCall)
  : SmartCache.t :=
  fold_left (call sqrt) ops c.

(** The counters of the cache add up. *)
Definition countersAddUp (c : SmartCache.t) : Prop :=
  SmartCache.queries (SmartCache.stats c)
  = (SmartCache.statHits (SmartCache.stats c)
     + SmartCache.statMisses (SmartCache.stats c))%nat.

(** The store as [addDocuments], [deleteDocuments] and [clear] maintain it
    when no two documents of a batch share an id: the index lists the
    documents, and no two documents share an id. *)
Definition wellFormedStore (store : FileVectorStore.t) : Prop :=
  FileVectorStore.index store
  = map FileVectorStore.entryOf (FileVectorStore.documents store)
  /\ NoDup (map VectorDocument.id (FileVectorStore.documents store)).


(** The packages filter of a sync request keeps every parsed component. *)
Definition nothingExcluded (request : ComponentSyncRequest.t)
    (parsedComponents : list ParsedComponent.t) : Prop :=
  match ComponentSyncRequest.packages request with
  | None => True
  | Some packages =>
      Forall
        (fun comp =>
           FileVectorStore.hasId packages
             (ComponentDoc.packageName (ParsedComponent.info comp)) = true)
        parsedComponents
  end.

(** The path of the directory of a component. *)
Definition componentPathOf (parser : ComponentParser.t) (componentName : string)
  : string :=
  FS.pathJoin (FS.pathJoin (ComponentParser.sourcePath parser) "components")
    componentName.

(** A call on the vector store. *)
Inductive storeCall : Type :=
| CallAdd (docs : list VectorDocument.t)
| CallDelete (ids : list string)
| CallClearStore.

Definition storeStep (store : FileVectorStore.t) (op : storeCall) : FileVectorStore.t :=
  match op with
  | CallAdd docs => FileVectorStore.addDocuments store docs
  | CallDelete ids => FileVectorStore.deleteDocuments store ids
  | CallClearStore => FileVectorStore.clear store
  end.

(** The store after a sequence of calls. *)
Definition storeCalls (store : FileVectorStore.t) (ops : list storeCall)
  : FileVectorStore.t :=
  fold_left storeStep ops store.

(** No batch of the calls holds two documents with one id. *)
Definition batchesDistinct (ops : list storeCall) : Prop :=
  Forall
    (fun op =>
       match op with
       | CallAdd docs => NoDup (map VectorDocument.id docs)
       | _ => True
       end)
    ops.

(** The ids of the stored documents. *)
Definition storedIds (store : FileVectorStore.t) : list string :=
  map VectorDocument.id (FileVectorStore.documents store).

(** The exact map of the cache holds at most [maxSize] entries (one, when
    [maxSize] is zero), under keys that are not empty. *)
Definition cacheBounded (c : SmartCache.t) : Prop :=
  (List.length (SmartCache.cache c) <= Nat.max (SmartCache.maxSize c) 1)%nat
  /\ Forall (fun kv => truthy (fst kv) = true) (SmartCache.cache c).

(** The time [createEmbedding] spends waiting, in milliseconds. *)
Fixpoint totalDelay (events : list OpenAIEmbeddings.event) : nat :=
  match events with
  | [] => O
  | OpenAIEmbeddings.Request _ :: rest => totalDelay rest
  | OpenAIEmbeddings.Delay ms :: rest => (ms + totalDelay rest)%nat
  end.

(** Attempt [k] is the last one [createEmbedding] makes: the attempts
    before it fail, and it either is answered or is attempt [maxRetries]. *)
Definition lastAttempt (this : OpenAIEmbeddings.t) (texts : list string) (k : nat)
  : Prop :=
  (1 <= k <= OpenAIEmbeddings.maxRetries this)%nat
  /\ (forall a, (1 <= a < k)%nat ->
        exists e, OpenAIEmbeddings.client this texts a = OpenAIEmbeddings.Failure e)
  /\ (k = OpenAIEmbeddings.maxRetries this
      \/ exists data,
           OpenAIEmbeddings.client this texts k = OpenAIEmbeddings.Response data).

(** The provider answers the request for each slice of the texts with one
    item per text of the slice. *)
Definition answersBatches (this : OpenAIEmbeddings.t) (batches : list (list string))
    (answers : list (list OpenAIEmbeddings.item)) : Prop :=
  Forall2
    (fun batch data =>
       wellFormed data (List.length batch)
       /\ exists k, respondsAt this batch k data)
    batches answers.

(** The components [syncComponents] goes on with: those of the requested
    packages, or all of them. *)
Definition componentsToSync (request : ComponentSyncRequest.t)
    (parsedComponents : list ParsedComponent.t) : list ParsedComponent.t :=
  match ComponentSyncRequest.packages request with
  | Some packages =>
      filter
        (fun comp =>
           FileVectorStore.hasId packages
             (ComponentDoc.packageName (ParsedComponent.info comp)))
        parsedComponents
  | None => parsedComponents
  end.

(** What the loop over the results of a batch takes from one result: its
    vectors, or its error line. *)
Definition vectorsOf (r : RAGService.BatchResult) : list VectorDocument.t :=
  match RAGService.success r, RAGService.vectors r with
  | true, Some vs => vs
  | _, _ => []
  end.

Definition succeeded (r : RAGService.BatchResult) : bool :=
  match RAGService.success r, RAGService.vectors r with
  | true, Some _ => true
  | _, _ => false
  end.

Definition errorsOf (r : RAGService.BatchResult) : list string :=
  if succeeded r then []
  else
    match RAGService.error r with
    | Some e => if truthy e then [e] else []
    | None => []
    end.

(** The vector documents of one batch of components. *)
Definition batchVectors (this : RAGService.t) (batch : list ParsedComponent.t)
  : list VectorDocument.t :=
  flat_map vectorsOf (map (RAGService.processComponent this) batch).

(** A parsed component with another time stamp. *)
Definition stamped (now : string) (parsed : ParsedComponent.t) : ParsedComponent.t :=
  let info := ParsedComponent.info parsed in
  ParsedComponent.mk
    (ComponentDoc.mk
       (ComponentDoc.packageName info) (ComponentDoc.componentName info)
       (ComponentDoc.description info) (ComponentDoc.api info)
       (ComponentDoc.examples info) (ComponentDoc.tags info)
       (ComponentDoc.version info) (ComponentDoc.dependencies info) now)
    (ParsedComponent.filePath parsed)
    (ParsedComponent.status parsed)
    (ParsedComponent.error parsed).

(** The counters and the error lines of a sync response. *)
Definition outcome (response : ComponentSyncResponse.t)
  : ComponentSyncResponse.syncStatus * Z * Z * Z * list string :=
  (ComponentSyncResponse.status response,
   ComponentSyncResponse.processedCount response,
   ComponentSyncResponse.successCount response,
   ComponentSyncResponse.failedCount response,
   ComponentSyncResponse.errors response).

(** Whether the vectors of a component were built, and the error line the
    sync reports for it otherwise. *)
Definition synced (this : RAGService.t) (comp : ParsedComponent.t) : bool :=
  RAGService.success (RAGService.processComponent this comp).

Definition errorLine (this : RAGService.t) (comp : ParsedComponent.t) : string :=
  match RAGService.error (RAGService.processComponent this comp) with
  | Some line => line
  | None => ""
  end.

(** The key under which [searchComponents] groups the hits of one
    component. *)
Definition componentKey (component : ComponentDoc.t) : string :=
  ComponentDoc.packageName component ++ "-" ++ ComponentDoc.componentName component.

(** A score above zero and at most one. *)
Definition unitScore (score : Q) : Prop := (0 < score /\ score <= 1)%Q.

(** The number of components a search returns at most: [topK || 5]. *)
Definition resultLimit (request : RAGSearchRequest.t) : nat :=
  match RAGSearchRequest.topK request with
  | Some (S n) => S n
  | _ => 5
  end.

(** Two responses that differ at most in their duration. *)
Definition sameAnswer (r r' : RAGSearchResponse.t) : Prop :=
  RAGSearchResponse.components r = RAGSearchResponse.components r'
  /\ RAGSearchResponse.scores r = RAGSearchResponse.scores r'
  /\ RAGSearchResponse.confidence r = RAGSearchResponse.confidence r'
  /\ RAGSearchResponse.suggestions r = RAGSearchResponse.suggestions r'.

(** The shape of a response computed from the index [store] at [now]. *)
Definition freshAnswer (store : FileVectorStore.t) (now : string)
    (request : RAGSearchRequest.t) (response : RAGSearchResponse.t) : Prop :=
  let components := RAGSearchResponse.components response in
  let scores := RAGSearchResponse.scores response in
  List.length components = List.length scores
  /\ (List.length components <= resultLimit request)%nat
  /\ StronglySorted (fun a b => (b <= a)%Q) scores
  /\ Forall unitScore scores
  /\ NoDup (map componentKey components)
  /\ Forall
       (fun component =>
          exists doc,
            In doc (FileVectorStore.documents store)
            /\ component
               = RAGService.reconstructComponentDoc (VectorDocument.meta doc) now)
       components
  /\ (0 <= RAGSearchResponse.confidence response <= 1)%Q
  /\ (components = [] -> RAGSearchResponse.confidence response = 0%Q)
  /\ RAGSearchResponse.suggestions response
     = RAGService.generateSuggestions (RAGSearchRequest.query request) components.

(** A body the search handler accepts for the query [q], in an
    environment with an API key. *)
Definition accepted (env : Route.Env) (body : SearchRoute.Body) (q : string) : Prop :=
  SearchRoute.query body = Some q
  /\ truthy q = true
  /\ (forall k, SearchRoute.topK body = Some k -> (k == 0 \/ 1 <= k <= 50)%Q)
  /\ (forall t, SearchRoute.threshold body = Some t -> (0 <= t <= 1)%Q)
  /\ truthy (Route.apiKey env) = true.

(** The directories [parseAllComponents] takes for components. *)
Definition componentDirs (entries : list FS.Dirent) : list string :=
  map FS.name
    (filter
       (fun entry => FS.isDirectory entry && negb (startsWith (FS.name entry) "_"))
       entries).

(** What [parseAllComponents] returns for the directory [name]: the
    component read from it, or the placeholder with the reason. *)
Definition parsedFrom (parser : ComponentParser.t) (fs : FS.t) (now : string)
    (name : string) (comp : ParsedComponent.t) : Prop :=
  let info := ParsedComponent.info comp in
  ParsedComponent.filePath comp = componentPathOf parser name
  /\ ComponentDoc.componentName info = ComponentParser.capitalizeComponentName name
  /\ ComponentDoc.packageName info = ComponentParser.packageName parser
  /\ ComponentDoc.updatedAt info = now
  /\ ((ParsedComponent.status comp = ParsedComponent.Success
       /\ ParsedComponent.error comp = None
       /\ ComponentParser.parseComponent parser fs now name = Ok comp)
      \/ (ParsedComponent.status comp = ParsedComponent.Error
          /\ (exists reason,
                ParsedComponent.error comp
                = Some ("Failed to parse component " ++ name ++ ": " ++ reason))
          /\ info = ComponentParser.createEmptyComponentDoc parser now name)).

(** A string without the character [sep]. *)
Definition without (sep : ascii) (s : string) : Prop :=
  ~ In sep (list_ascii_of_string s).





End Spec.

(** ** A source tree, a provider and a service to run the code on *)

Module Scenario.

Import JS.
Local Open Scope string_scope.

Definition nl : string := String LF "".

(** A provider that answers every request with one embedding per text,
    last text first, each tagged with the position of its text. *)
Definition echoClient : OpenAIEmbeddings.Client :=
  fun texts _ =>
    OpenAIEmbeddings.Response
      (rev
         (mapiFrom
            (fun text i =>
               OpenAIEmbeddings.mkItem (Z.of_nat i)
                 [inject_Z (Z.of_nat (String.length text)); 1%Q])
            texts 0)).

(** A provider out of quota. *)
Definition quotaClient : OpenAIEmbeddings.Client :=
  fun _ _ =>
    OpenAIEmbeddings.Failure
      (mkError "Error" "429 You exceeded your current quota" "").

Definition buttonMd : string :=
  "---" ++ nl ++ "title: Button" ++ nl ++ "---" ++ nl ++ nl
  ++ "To trigger an operation." ++ nl ++ nl
  ++ "## When To Use" ++ nl ++ nl ++ "A button means an operation." ++ nl ++ nl
  ++ "## API" ++ nl ++ nl ++ "| Property | Type |" ++ nl ++ "| type | string |" ++ nl.

Definition buttonDemo : string :=
  "import React from 'react'" ++ nl
  ++ "import { Button } from '@private/basic-components'" ++ nl ++ nl
  ++ "export default () => <Button type='primary'>OK</Button>" ++ nl.

Definition buttonFiles : FS.ComponentFiles :=
  FS.mkComponentFiles (Ok tt) (Some buttonMd)
    (Some [("basic.tsx", Some buttonDemo)])
    (Some ("export { default } from './button'" ++ nl)).

Definition missing : FS.ComponentFiles :=
  FS.mkComponentFiles
    (Err (mkError "Error" "ENOENT: no such file or directory" ""))
    None None None.

(** The tree of the single Button component. *)
Definition buttonTree : FS.t :=
  FS.mk
    (Ok [FS.mkDirent "button" true])
    (fun componentPath =>
       if String.eqb componentPath "./root/components/button"
       then buttonFiles else missing)
    (Some "5.10.0").

Definition service (store : FileVectorStore.t) : RAGService.t :=
  RAGService.new echoClient store (RAGService.defaultRAGConfig "sk-test") "./root".

(** A document of a component [Button] of another package, as the index
    may hold it when the service starts. *)
Definition acmeButton : VectorDocument.t :=
  VectorDocument.mk "Button-description-00000000" "A button of another package"
    [1%Q; 0%Q]
    (VectorDocument.mkMetadata "Button" "@acme/ui" VectorDocument.description
       ["ui"] "2.0.0").

(** The square root of a rational whose numerator and denominator are
    squares. *)
Definition sqrtQ (q : Q) : Q :=
  Qmake (Z.sqrt (Qnum q)) (Z.to_pos (Z.sqrt (Zpos (Qden q)))).

(** The Button component as the parser reads it from [buttonTree]. *)
Definition buttonDoc : ComponentDoc.t :=
  ComponentDoc.mk "@private/basic-components" "Button"
    "title: Button To trigger an operation."
    ("## API" ++ nl ++ nl ++ "| Property | Type |" ++ nl ++ "| type | string |")
    ["export default () => <Button type='primary'>OK</Button>"]
    ["form"; "action"; "ui"; "interactive"; "react"; "component"]
    "5.10.0" [] "2026-01-01T00:00:00.000Z".

Definition embedder : OpenAIEmbeddings.t :=
  OpenAIEmbeddings.new echoClient "text-embedding-3-small".

(** A store with three documents. *)
Definition tableDoc : VectorDocument.t :=
  VectorDocument.mk "Table-api-0a1b2c3d" "Props of the table" [3%Q; 4%Q]
    (VectorDocument.mkMetadata "Table" "@private/basic-components"
       VectorDocument.api ["ui"] "1.0.0").

Definition modalDoc : VectorDocument.t :=
  VectorDocument.mk "Modal-description-11112222" "A modal dialog" [0%Q; 1%Q]
    (VectorDocument.mkMetadata "Modal" "@private/basic-components"
       VectorDocument.description ["ui"] "1.0.0").

Definition threeDocs : FileVectorStore.t :=
  FileVectorStore.addDocuments FileVectorStore.empty
    [tableDoc; acmeButton; modalDoc].

(** A source path without a [components] directory. *)
Definition noTree : FS.t :=
  FS.mk
    (Err (mkError "Error" "ENOENT: no such file or directory, scandir './root/components'" ""))
    (fun _ => missing)
    None.

(** A provider that embeds every query as the vector [1, 0]. *)
Definition queryClient : OpenAIEmbeddings.Client :=
  fun _ _ => OpenAIEmbeddings.Response [OpenAIEmbeddings.mkItem 0 [1%Q; 0%Q]].

(** A service over an index that holds the api document of the Table. *)
Definition tableService : RAGService.t :=
  RAGService.new queryClient
    (FileVectorStore.addDocuments FileVectorStore.empty [tableDoc])
    (RAGService.defaultRAGConfig "sk-test") "./root".

(** A response to store in the cache. *)
Definition noResults : RAGSearchResponse.t :=
  RAGSearchResponse.mk [] [] 0%Q
    ["Try using more general terms in your search";
     "Check if the component name is correct"]
    12.

(** A first search of [tableService], and the same query typed in another
    case and asking for one result above another threshold. *)
Definition modalRequest : RAGSearchRequest.t :=
  RAGSearchRequest.mk "modal" (Some 5) None None.

Definition modalAgain : RAGSearchRequest.t :=
  RAGSearchRequest.mk " MODAL" (Some 1) None (Some (9 # 10)%Q).

Definition firstSearch : result RAGSearchResponse.t * RAGService.t :=
  RAGService.searchComponents sqrtQ tableService "2026-01-01T00:00:00.000Z" 0 3
    modalRequest.

Definition firstResponse : RAGSearchResponse.t :=
  match fst firstSearch with
  | Ok response => response
  | Err _ => noResults
  end.

(** An environment with an API key, and a body asking for the two best
    matches of a query. *)
Definition env : Route.Env :=
  Route.mkEnv (Some "sk-test") None (Some "./root").

Definition modalBody : SearchRoute.Body :=
  SearchRoute.mkBody (Some "modal") (Some 2%Q) None None.

Definition blankBody : SearchRoute.Body :=
  SearchRoute.mkBody (Some "   ") None None None.

Definition tableStore : FileVectorStore.t :=
  FileVectorStore.addDocuments FileVectorStore.empty [tableDoc].

Definition routeData : RAGSearchResponse.t :=
  match
    SearchRoute.POST sqrtQ env queryClient tableStore "2026-01-01T00:00:00.000Z" 0 3
      (Ok modalBody)
  with
  | Route.Json200 data => data
  | Route.JsonError _ _ _ => noResults
  end.

(** A body for the sync handler. *)
Definition syncBody : SyncRoute.Body :=
  SyncRoute.mkBody (Some "./root") false SyncRoute.NoPackages.

(** A cache of capacity two that is full. *)
Definition fullCache : SmartCache.t :=
  SmartCache.set
    (SmartCache.set (SmartCache.new 2 300000 (92 # 100)%Q) "alert" noResults None
       None 1000)
    "badge" noResults None None 1001.




End Scenario.

(** * Properties *)

Import JS Spec.
Local Open Scope string_scope.

Example md5_empty : MD5.hex "" = "d41d8cd98f00b204e9800998ecf8427e"%string.
Proof. vm_compute. reflexivity. Qed.

Example md5_abc : MD5.hex "abc" = "900150983cd24fb0d6963f7d28e17f72"%string.
Proof. vm_compute. reflexivity. Qed.

Example md5_two_blocks :
  MD5.hex "xxxxxxxxxxxxxxxxxxxxxxxxxxxxxxxxxxxxxxxxxxxxxxxxxxxxxxxxxxxxxxxxxxxxxx"
  = "7d56c0f83fd1e320d60ea2f13dfdeedd"%string.
Proof. vm_compute. reflexivity. Qed.

(** Case analysis on the value a [match] of the goal inspects. *)
Ltac break_match :=
  match goal with
  | |- context [match ?x with _ => _ end] => destruct x
  end.

(** ** Parser: tags (C7) *)

Lemma tagMapping_keys_not_inherited :
  forallb (fun kv => negb (ComponentParser.inherited (fst kv)))
    ComponentParser.tagMapping = true.
Proof. reflexivity. Qed.

Lemma extractTags_spec (componentPath : string) :
  ComponentParser.inherited (tagKey componentPath) = false ->
  ComponentParser.extractTags componentPath
  = Ok (extraTags (tagKey componentPath) ++ ["react"; "component"])%list.
Proof.
  intros Hown. unfold ComponentParser.extractTags, extraTags.
  fold (tagKey componentPath).
  destruct (ComponentParser.lookup (tagKey componentPath) ComponentParser.tagMapping);
    [reflexivity | now rewrite Hown].
Qed.

(** A directory named [constructor] has no row in the table, and the
    lookup finds the property every object inherits: the spread throws. *)
Example extractTags_constructor :
  ComponentParser.extractTags "src/components/constructor"
  = Err (TypeError "baseTags is not iterable").
Proof. reflexivity. Qed.

(** C7, as the claim states it for [card] and for [dropdown]: the tags of
    a directory named [card] are the set [data-display, ui, react,
    component], those of a directory named [dropdown] the set [navigation,
    ui, react, component]. The code adds [container] to the first and
    [overlay] to the second. *)
Lemma C7_card_counterexample :
  ~ (forall componentPath tags,
        tagKey componentPath = "card" ->
        ComponentParser.extractTags componentPath = Ok tags ->
        sameTags tags ["data-display"; "ui"; "react"; "component"])
  /\ ~ (forall componentPath tags,
          tagKey componentPath = "dropdown" ->
          ComponentParser.extractTags componentPath = Ok tags ->
          sameTags tags ["navigation"; "ui"; "react"; "component"]).
Proof.
  split; intros H.
  - specialize (H "src/components/card"
                  ["data-display"; "container"; "ui"; "react"; "component"]
                  eq_refl eq_refl "container").
    destruct H as [H _].
    assert (Hin : In "container"
                    ["data-display"; "container"; "ui"; "react"; "component"])
      by (simpl; auto).
    apply H in Hin. simpl in Hin.
    repeat (destruct Hin as [Hin | Hin]; [discriminate Hin |]).
    exact Hin.
  - specialize (H "src/components/dropdown"
                  ["navigation"; "overlay"; "ui"; "react"; "component"]
                  eq_refl eq_refl "overlay").
    destruct H as [H _].
    assert (Hin : In "overlay"
                    ["navigation"; "overlay"; "ui"; "react"; "component"])
      by (simpl; auto).
    apply H in Hin. simpl in Hin.
    repeat (destruct Hin as [Hin | Hin]; [discriminate Hin |]).
    exact Hin.
Qed.

(** C7 (amended): for every component directory whose lower-cased name is
    not a property inherited from [Object.prototype], the tags are the row
    of the static mapping for that name followed by [react] and
    [component], and [ui, react, component] for a name without a row. The
    rows of [avatar], [badge] and [tag] are [data-display, ui]; the row of
    [card] is [data-display, container, ui]; the rows of [menu],
    [breadcrumb] and [tabs] are [navigation, ui]; the row of [dropdown] is
    [navigation, overlay, ui]. *)
Theorem C7_extractTags (componentPath : string) :
  ComponentParser.inherited (tagKey componentPath) = false ->
  let key := tagKey componentPath in
  let tags := ComponentParser.extractTags componentPath in
  tags = Ok (extraTags key ++ ["react"; "component"])%list
  /\ (ComponentParser.lookup key ComponentParser.tagMapping = None ->
      tags = Ok ["ui"; "react"; "component"])
  /\ (In key ["avatar"; "badge"; "tag"] ->
      tags = Ok ["data-display"; "ui"; "react"; "component"])
  /\ (key = "card" ->
      tags = Ok ["data-display"; "container"; "ui"; "react"; "component"])
  /\ (In key ["menu"; "breadcrumb"; "tabs"] ->
      tags = Ok ["navigation"; "ui"; "react"; "component"])
  /\ (key = "dropdown" ->
      tags = Ok ["navigation"; "overlay"; "ui"; "react"; "component"]).
Proof.
  intros Hown key tags.
  assert (Htags : tags = Ok (extraTags key ++ ["react"; "component"])%list)
    by (apply extractTags_spec; exact Hown).
  rewrite Htags. unfold extraTags.
  repeat split.
  - intros Hnone. now rewrite Hnone.
  - intros Hin. simpl in Hin.
    repeat (destruct Hin as [Hin | Hin]; [rewrite <- Hin; reflexivity |]).
    contradiction.
  - intros Hkey. rewrite Hkey. reflexivity.
  - intros Hin. simpl in Hin.
    repeat (destruct Hin as [Hin | Hin]; [rewrite <- Hin; reflexivity |]).
    contradiction.
  - intros Hkey. rewrite Hkey. reflexivity.
Qed.

Lemma C7_extractTags_witness :
  ComponentParser.extractTags "src/components/Dropdown"
  = Ok ["navigation"; "overlay"; "ui"; "react"; "component"].
Proof.
  apply (C7_extractTags "src/components/Dropdown"); reflexivity.
Defined.


(** ** Search: the relevance score (C1) *)

(** The score of a hit is computed from the type and the content of the
    document and from the query; the embedding, and with it the similarity
    that selected the document, has no part in it. *)
Lemma calculateRelevanceScore_ignores_embedding
    (id content : string) (e1 e2 : list Q) (meta : VectorDocument.metadata)
    (query : string) :
  RAGService.calculateRelevanceScore (VectorDocument.mk id content e1 meta) query
  = RAGService.calculateRelevanceScore (VectorDocument.mk id content e2 meta) query.
Proof. reflexivity. Qed.

(** C1: the score of a hit is its similarity times the weight of its type,
    times 1.3 on a keyword match, clamped to 1. The index holds the api
    document of the Table, whose similarity with the query vector is 3/5
    and whose content does not contain the query [modal]: the claim gives
    the hit the score 3/5. The code starts from the constant 0.8 and gives
    it 4/5, which is also the score of the component in the response of the
    search. *)
Theorem C1_base_score_is_constant :
  let doc := Scenario.tableDoc in
  let queryEmbedding := [1%Q; 0%Q] in
  let query := "modal" in
  let request := RAGSearchRequest.mk query (Some 5) None None in
  VectorDocument.type (VectorDocument.meta doc) = VectorDocument.api
  /\ FileVectorStore.cosineSimilarity Scenario.sqrtQ queryEmbedding
       (VectorDocument.embedding doc) = Ok (3 # 5)%Q
  /\ includes (toLowerCase (VectorDocument.content doc)) (toLowerCase query) = false
  /\ (RAGService.calculateRelevanceScore doc query == 8 # 10)%Q
  /\ ~ (RAGService.calculateRelevanceScore doc query == (3 # 5) * 1)%Q
  /\ match
       fst (RAGService.searchComponents Scenario.sqrtQ Scenario.tableService
              "2026-01-01T00:00:00.000Z" 0 3 request)
     with
     | Ok response =>
         map ComponentDoc.componentName (RAGSearchResponse.components response)
         = ["Table"]
         /\ Forall2 Qeq (RAGSearchResponse.scores response) [(8 # 10)%Q]
     | Err _ => False
     end.
Proof.
  intros doc queryEmbedding query request.
  split; [reflexivity |]. split; [reflexivity |]. split; [reflexivity |].
  split; [reflexivity |]. split.
  - intros H. vm_compute in H. discriminate H.
  - vm_compute. split; [reflexivity |]. repeat constructor.
Qed.

(** ** Sync: the counters of the response (C4) *)

Lemma sync_failed_is_processed_minus_success
    (this : RAGService.t) (fs : FS.t) (now : string) (duration : Z)
    (request : ComponentSyncRequest.t) :
  let response := fst (RAGService.syncComponents this fs now duration request) in
  ComponentSyncResponse.failedCount response
  = (ComponentSyncResponse.processedCount response
     - ComponentSyncResponse.successCount response)%Z.
Proof.
  unfold RAGService.syncComponents.
  destruct (ComponentParser.parseAllComponents _ _ _); reflexivity.
Qed.

Lemma truthy_append (a : string) (c : ascii) (b : string) :
  truthy (a ++ String c b) = true.
Proof. destruct a; reflexivity. Qed.

(** The promise of a component resolves to a success with its vectors or to
    a failure with a message. *)
Lemma processComponent_cases (this : RAGService.t) (parsedComp : ParsedComponent.t) :
  let r := RAGService.processComponent this parsedComp in
  (RAGService.success r = true /\ exists vs, RAGService.vectors r = Some vs)
  \/ (RAGService.success r = false
      /\ exists e, RAGService.error r = Some e /\ truthy e = true).
Proof.
  unfold RAGService.processComponent.
  destruct (ParsedComponent.status parsedComp);
    [destruct (RAGService.createComponentVectors _ _) |..]; cbn;
    first [ left; split; [reflexivity | eauto]
          | right; split; [reflexivity |];
            eexists; split; [reflexivity | apply truthy_append] ].
Qed.

(** Each result of a batch adds one success or one error. *)
Lemma collect_counts (this : RAGService.t) (batch : list ParsedComponent.t) :
  forall vectorDocuments successCount errors,
    let '(_, successCount', errors') :=
      RAGService.collect (map (RAGService.processComponent this) batch)
        vectorDocuments successCount errors in
    (successCount' + Z.of_nat (List.length errors')
     = successCount + Z.of_nat (List.length errors) + Z.of_nat (List.length batch))%Z.
Proof.
  induction batch as [| comp rest IH]; intros vectorDocuments successCount errors.
  - simpl. lia.
  - cbn [map RAGService.collect].
    destruct (processComponent_cases this comp) as [[Hs [vs Hv]] | [Hs [e [He Ht]]]];
      rewrite Hs.
    + rewrite Hv.
      specialize (IH (vectorDocuments ++ vs)%list (successCount + 1)%Z errors).
      destruct (RAGService.collect _ _ _ _) as [[v' s'] e'].
      cbn [List.length]. lia.
    + rewrite He, Ht.
      specialize (IH vectorDocuments successCount (errors ++ [e])%list).
      destruct (RAGService.collect _ _ _ _) as [[v' s'] e'].
      rewrite length_app in IH. cbn [List.length] in *. lia.
Qed.

Lemma processBatch_counts (this : RAGService.t) (progress : RAGService.Progress)
    (batch : list ParsedComponent.t) :
  let progress' := RAGService.processBatch this progress batch in
  (RAGService.successCount progress'
   + Z.of_nat (List.length (RAGService.errors progress'))
   = RAGService.successCount progress
     + Z.of_nat (List.length (RAGService.errors progress))
     + Z.of_nat (List.length batch))%Z.
Proof.
  unfold RAGService.processBatch.
  pose proof (collect_counts this batch [] (RAGService.successCount progress)
                (RAGService.errors progress)) as H.
  destruct (RAGService.collect _ _ _ _) as [[v' s'] e']. exact H.
Qed.

Lemma batches_counts (this : RAGService.t) (batches : list (list ParsedComponent.t)) :
  forall progress,
    let progress' := fold_left (RAGService.processBatch this) batches progress in
    (RAGService.successCount progress'
     + Z.of_nat (List.length (RAGService.errors progress'))
     = RAGService.successCount progress
       + Z.of_nat (List.length (RAGService.errors progress))
       + Z.of_nat (List.length (List.concat batches)))%Z.
Proof.
  induction batches as [| batch rest IH]; intros progress.
  - simpl. lia.
  - cbn [fold_left List.concat]. specialize (IH (RAGService.processBatch this progress batch)).
    cbv zeta in IH. rewrite IH.
    pose proof (processBatch_counts this progress batch) as H. cbv zeta in H.
    rewrite length_app. lia.
Qed.

Lemma concat_chunksFuel {A : Type} (n : nat) :
  forall (fuel : nat) (l : list A),
    (List.length l <= fuel)%nat -> List.concat (chunksFuel fuel (S n) l) = l.
Proof.
  induction fuel as [| fuel IH]; intros l Hlen.
  - destruct l; [reflexivity | simpl in Hlen; lia].
  - destruct l as [| x t]; [reflexivity |].
    cbn [chunksFuel List.concat]. rewrite IH.
    + apply (firstn_skipn (S n) (x :: t)).
    + cbn [skipn]. rewrite length_skipn. simpl in Hlen. lia.
Qed.

Lemma filter_keeps_all {A : Type} (p : A -> bool) (l : list A) :
  Forall (fun x => p x = true) l -> filter p l = l.
Proof.
  induction 1 as [| x t Hx _ IH]; simpl; [reflexivity |].
  rewrite Hx. now f_equal.
Qed.

(** When the sync parses the tree and no component is excluded, every
    component is a success or leaves one error: the number of errors is
    [failedCount]. *)
Lemma sync_errors_when_nothing_excluded
    (this : RAGService.t) (fs : FS.t) (now : string) (duration : Z)
    (request : ComponentSyncRequest.t) (parsedComponents : list ParsedComponent.t) :
  ComponentParser.parseAllComponents (RAGService.parser this) fs now
  = Ok parsedComponents ->
  nothingExcluded request parsedComponents ->
  let response := fst (RAGService.syncComponents this fs now duration request) in
  Z.of_nat (List.length (ComponentSyncResponse.errors response))
  = ComponentSyncResponse.failedCount response.
Proof.
  intros Hparse Hkept. unfold RAGService.syncComponents. rewrite Hparse.
  assert (Hsync :
    match ComponentSyncRequest.packages request with
    | Some packages =>
        filter
          (fun comp =>
             FileVectorStore.hasId packages
               (ComponentDoc.packageName (ParsedComponent.info comp)))
          parsedComponents
    | None => parsedComponents
    end = parsedComponents).
  { unfold nothingExcluded in Hkept.
    destruct (ComponentSyncRequest.packages request); [| reflexivity].
    now apply filter_keeps_all. }
  rewrite Hsync.
  cbn [fst ComponentSyncResponse.errors ComponentSyncResponse.failedCount].
  match goal with
  | |- context [fold_left ?f ?bs ?p0] =>
      pose proof (batches_counts this bs p0) as H
  end.
  cbv zeta in H. unfold chunks, RAGService.BATCH_SIZE in H.
  rewrite concat_chunksFuel in H by lia.
  cbn [RAGService.successCount RAGService.errors List.length] in H.
  unfold chunks, RAGService.BATCH_SIZE. lia.
Qed.

(** C4, as the claim states it: the number of [errors] is [failedCount] in
    the response of every sync, also when the packages filter excludes a
    component. Two syncs where it is not. In the first the tree holds the
    single component Button of [@private/basic-components] and the request
    asks for the package [@other/pkg]: the component is counted as
    processed, is not a success and leaves no error. In the second the
    components cannot be listed: there is one error, of the sync as a
    whole, and no component is counted. *)
Lemma C4_sync_errors_counterexample :
  (let request := ComponentSyncRequest.mk "./root" None (Some ["@other/pkg"]) in
   let response :=
     fst (RAGService.syncComponents (Scenario.service FileVectorStore.empty)
            Scenario.buttonTree "2026-01-01T00:00:00.000Z" 5 request) in
   response = ComponentSyncResponse.mk ComponentSyncResponse.Success 1 0 1 [] 5
   /\ Z.of_nat (List.length (ComponentSyncResponse.errors response))
      <> ComponentSyncResponse.failedCount response)
  /\ (let request := ComponentSyncRequest.mk "./root" None None in
      let response :=
        fst (RAGService.syncComponents (Scenario.service FileVectorStore.empty)
               Scenario.noTree "2026-01-01T00:00:00.000Z" 5 request) in
      response
      = ComponentSyncResponse.mk ComponentSyncResponse.Failed 0 0 0
          ["Sync error: RAGError: Failed to parse components: Error: ENOENT: no such file or directory, scandir './root/components'"]
          5
      /\ Z.of_nat (List.length (ComponentSyncResponse.errors response))
         <> ComponentSyncResponse.failedCount response).
Proof. vm_compute. repeat split; discriminate. Qed.

(** C4 (amended): every response satisfies
    [processedCount = successCount + failedCount]. When the parser lists
    the components and the packages filter keeps all of them, the number of
    [errors] is [failedCount]. When the parser cannot list the components,
    the sync fails as a whole: the counters are zero and [errors] holds the
    one message of the failure. *)
Theorem C4_sync_counters
    (this : RAGService.t) (fs : FS.t) (now : string) (duration : Z)
    (request : ComponentSyncRequest.t) :
  let response := fst (RAGService.syncComponents this fs now duration request) in
  ComponentSyncResponse.processedCount response
  = (ComponentSyncResponse.successCount response
     + ComponentSyncResponse.failedCount response)%Z
  /\ (forall parsedComponents,
        ComponentParser.parseAllComponents (RAGService.parser this) fs now
        = Ok parsedComponents ->
        nothingExcluded request parsedComponents ->
        Z.of_nat (List.length (ComponentSyncResponse.errors response))
        = ComponentSyncResponse.failedCount response)
  /\ (forall error,
        ComponentParser.parseAllComponents (RAGService.parser this) fs now
        = Err error ->
        response
        = ComponentSyncResponse.mk ComponentSyncResponse.Failed 0 0 0
            ["Sync error: " ++ errorToString error] duration).
Proof.
  intros response. split; [| split].
  - pose proof (sync_failed_is_processed_minus_success this fs now duration request)
      as H.
    cbv zeta in H. subst response. lia.
  - intros parsedComponents Hparse Hkept.
    exact (sync_errors_when_nothing_excluded this fs now duration request
             parsedComponents Hparse Hkept).
  - intros error Hparse. subst response. unfold RAGService.syncComponents.
    rewrite Hparse. reflexivity.
Qed.

(** ** Status: the count of components (C6) *)

Lemma hasId_In (ids : list string) (i : string) :
  FileVectorStore.hasId ids i = true <-> In i ids.
Proof.
  unfold FileVectorStore.hasId. rewrite existsb_exists. split.
  - intros [x [Hin Heq]]. apply String.eqb_eq in Heq. now subst.
  - intros Hin. exists i. split; [exact Hin | apply String.eqb_refl].
Qed.

Lemma distinct_In (names : list string) (n : string) :
  In n (FileVectorStore.distinct names) <-> In n names.
Proof.
  induction names as [| a rest IH]; simpl; [tauto |].
  destruct (FileVectorStore.hasId rest a) eqn:Hhas.
  - apply hasId_In in Hhas. rewrite IH. split; [tauto |].
    intros [-> | H]; assumption.
  - simpl. rewrite IH. tauto.
Qed.

Lemma distinct_NoDup (names : list string) :
  NoDup (FileVectorStore.distinct names).
Proof.
  induction names as [| a rest IH]; simpl; [constructor |].
  destruct (FileVectorStore.hasId rest a) eqn:Hhas; [exact IH |].
  constructor; [| exact IH].
  intros Hin. apply (proj1 (distinct_In _ _)) in Hin.
  apply (proj2 (hasId_In _ _)) in Hin. rewrite Hin in Hhas. discriminate Hhas.
Qed.

(** C6, as the claim states it: after a sync, the status counts the
    distinct [(packageName, componentName)] pairs. The index holds a
    document of the Button of [@acme/ui] when the Button of
    [@private/basic-components] is synced: two pairs, and a count of one. *)
Lemma C6_same_name_counterexample :
  let before := FileVectorStore.addDocuments FileVectorStore.empty [Scenario.acmeButton] in
  let request := ComponentSyncRequest.mk "./root" None None in
  let after :=
    snd (RAGService.syncComponents (Scenario.service before) Scenario.buttonTree
           "2026-01-01T00:00:00.000Z" 5 request) in
  let status := RAGService.getStatus after 0 0 "2026-01-01T00:00:01.000Z" in
  distinctPairs (FileVectorStore.documents (RAGService.vectorStore after)) = 2
  /\ FileVectorStore.totalComponents (RAGService.stats status) = 1.
Proof. vm_compute. split; reflexivity. Qed.

(** C6 (amended): after any sync followed by a status request, the reported
    [totalComponents] is the number of distinct [componentName] values among
    the stored documents, whatever their package. *)
Theorem C6_totalComponents
    (this : RAGService.t) (fs : FS.t) (now : string) (duration : Z)
    (request : ComponentSyncRequest.t)
    (indexBytes docsBytes : nat) (checkedAt : string) :
  let after := snd (RAGService.syncComponents this fs now duration request) in
  let docs := FileVectorStore.documents (RAGService.vectorStore after) in
  let status := RAGService.getStatus after indexBytes docsBytes checkedAt in
  RAGService.available status = true
  /\ exists names : list string,
       NoDup names
       /\ (forall n, In n names <-> exists doc, In doc docs /\ componentNameOf doc = n)
       /\ FileVectorStore.totalComponents (RAGService.stats status)
          = List.length names.
Proof.
  intros after docs status. split; [reflexivity |].
  exists (FileVectorStore.distinct (map componentNameOf docs)).
  split; [apply distinct_NoDup |]. split; [| reflexivity].
  intros n. rewrite distinct_In, in_map_iff.
  split; intros [doc [H1 H2]]; exists doc; tauto.
Qed.

(** ** Arrays: [sort] *)

Lemma insertSorted_perm {A : Type} (before : A -> A -> bool) (x : A) (l : list A) :
  Permutation (insertSorted before x l) (x :: l).
Proof.
  induction l as [| y t IH]; simpl; [reflexivity |].
  destruct (before x y); [reflexivity |].
  rewrite IH. apply perm_swap.
Qed.

Lemma sort_perm {A : Type} (before : A -> A -> bool) (l : list A) :
  Permutation (sort before l) l.
Proof.
  induction l as [| x t IH]; simpl; [reflexivity |].
  rewrite insertSorted_perm. now apply perm_skip.
Qed.

Section SortOrder.

Context {A : Type}.
Variable before : A -> A -> bool.
Hypothesis before_total : forall a b, before a b = false -> before b a = true.
Hypothesis before_trans :
  forall a b c, before a b = true -> before b c = true -> before a c = true.

Let ordered (a b : A) : Prop := before a b = true.

Lemma insertSorted_sorted (x : A) (l : list A) :
  StronglySorted ordered l -> StronglySorted ordered (insertSorted before x l).
Proof.
  induction l as [| y t IH]; intros Hs; simpl.
  - constructor; constructor.
  - apply StronglySorted_inv in Hs. destruct Hs as [Ht Hy].
    destruct (before x y) eqn:Hxy.
    + constructor; [constructor; assumption |].
      constructor; [exact Hxy |].
      eapply Forall_impl; [| exact Hy].
      intros z Hz. exact (before_trans x y z Hxy Hz).
    + constructor; [apply IH; exact Ht |].
      apply (Permutation_Forall (Permutation_sym (insertSorted_perm before x t))).
      constructor; [exact (before_total x y Hxy) | exact Hy].
Qed.

Lemma sort_sorted (l : list A) : StronglySorted ordered (sort before l).
Proof.
  induction l as [| x t IH]; simpl; [constructor |].
  apply insertSorted_sorted. exact IH.
Qed.

End SortOrder.

Lemma sorted_perm_unique (l1 l2 : list Z) :
  StronglySorted Z.le l1 -> StronglySorted Z.le l2 -> Permutation l1 l2 -> l1 = l2.
Proof.
  revert l2. induction l1 as [| a t IH]; intros l2 H1 H2 Hp.
  - apply Permutation_nil in Hp. now subst.
  - destruct l2 as [| b u].
    + apply Permutation_sym, Permutation_nil in Hp. discriminate Hp.
    + apply StronglySorted_inv in H1. destruct H1 as [Ht Ha].
      apply StronglySorted_inv in H2. destruct H2 as [Hu Hb].
      assert (Hab : a = b).
      { assert (Hin1 : In a (b :: u))
          by (apply (Permutation_in _ Hp); left; reflexivity).
        assert (Hin2 : In b (a :: t))
          by (apply (Permutation_in _ (Permutation_sym Hp)); left; reflexivity).
        rewrite Forall_forall in Ha, Hb.
        destruct Hin1 as [-> | Hin1]; [reflexivity |].
        destruct Hin2 as [Heq | Hin2]; [now subst |].
        specialize (Ha b Hin2). specialize (Hb a Hin1). lia. }
      subst b. f_equal. apply IH; try assumption.
      exact (Permutation_cons_inv Hp).
Qed.

Lemma seq_sorted (start n : nat) :
  StronglySorted Z.le (map Z.of_nat (seq start n)).
Proof.
  revert start. induction n as [| n IH]; intros start; simpl; constructor.
  - apply IH.
  - rewrite Forall_map, Forall_forall. intros x Hx.
    apply in_seq in Hx. lia.
Qed.

(** ** Embedder: retries (C3) *)

Section Embedder.

Variable this : OpenAIEmbeddings.t.
Variable texts : list string.

Let maxRetries := OpenAIEmbeddings.maxRetries this.
Let retryDelay := OpenAIEmbeddings.retryDelay this.

(** The loop from [attempt] on, when the provider fails until it answers
    at attempt [attempt + n]. *)
Lemma attemptsFrom_responds (data : list OpenAIEmbeddings.item) :
  forall n attempt fuel,
    (attempt + n <= maxRetries)%nat ->
    (n < fuel)%nat ->
    (forall a, (attempt <= a < attempt + n)%nat ->
       exists e, OpenAIEmbeddings.client this texts a = OpenAIEmbeddings.Failure e) ->
    OpenAIEmbeddings.client this texts (attempt + n) = OpenAIEmbeddings.Response data ->
    OpenAIEmbeddings.attemptsFrom this texts fuel attempt
    = (Ok (OpenAIEmbeddings.orderedEmbeddings data),
       scheduleFrom retryDelay (S n) attempt).
Proof.
  induction n as [| n IH]; intros attempt fuel Hle Hfuel Hfail Hresp;
    (destruct fuel as [| fuel]; [lia |]); cbn [OpenAIEmbeddings.attemptsFrom].
  - rewrite Nat.add_0_r in Hresp, Hle.
    assert (Hc : (attempt <=? OpenAIEmbeddings.maxRetries this)%nat = true)
      by (apply Nat.leb_le; exact Hle).
    rewrite Hc, Hresp. reflexivity.
  - assert (Hc : (attempt <=? OpenAIEmbeddings.maxRetries this)%nat = true)
      by (apply Nat.leb_le; unfold maxRetries in Hle; lia).
    assert (Hlt : (attempt <? OpenAIEmbeddings.maxRetries this)%nat = true)
      by (apply Nat.ltb_lt; unfold maxRetries in Hle; lia).
    destruct (Hfail attempt) as [e He]; [lia |].
    rewrite Hc, He, Hlt.
    rewrite (IH (S attempt) fuel); try lia.
    + reflexivity.
    + intros a Ha. apply Hfail. lia.
    + replace (S attempt + n)%nat with (attempt + S n)%nat by lia. exact Hresp.
Qed.

(** The loop from [attempt] on, when the provider fails at every attempt up
    to the last, [attempt + n = maxRetries]. *)
Lemma attemptsFrom_fails (errs : nat -> Error) :
  forall n attempt fuel,
    (attempt + n = maxRetries)%nat ->
    (n < fuel)%nat ->
    (forall a, (attempt <= a <= maxRetries)%nat ->
       OpenAIEmbeddings.client this texts a = OpenAIEmbeddings.Failure (errs a)) ->
    OpenAIEmbeddings.attemptsFrom this texts fuel attempt
    = (Err (OpenAIEmbeddings.finalError this (errs maxRetries)),
       scheduleFrom retryDelay (S n) attempt).
Proof.
  induction n as [| n IH]; intros attempt fuel Hsum Hfuel Hfail;
    (destruct fuel as [| fuel]; [lia |]); cbn [OpenAIEmbeddings.attemptsFrom];
    unfold maxRetries in Hsum.
  - assert (Hc : (attempt <=? OpenAIEmbeddings.maxRetries this)%nat = true)
      by (apply Nat.leb_le; lia).
    assert (Hlt : (attempt <? OpenAIEmbeddings.maxRetries this)%nat = false)
      by (apply Nat.ltb_ge; lia).
    rewrite Hc, (Hfail attempt), Hlt by (unfold maxRetries; lia).
    replace attempt with maxRetries by (unfold maxRetries; lia). reflexivity.
  - assert (Hc : (attempt <=? OpenAIEmbeddings.maxRetries this)%nat = true)
      by (apply Nat.leb_le; lia).
    assert (Hlt : (attempt <? OpenAIEmbeddings.maxRetries this)%nat = true)
      by (apply Nat.ltb_lt; lia).
    rewrite Hc, (Hfail attempt), Hlt by (unfold maxRetries; lia).
    rewrite (IH (S attempt) fuel); try (unfold maxRetries; lia).
    + reflexivity.
    + intros a Ha. apply Hfail. lia.
Qed.

Lemma createEmbeddingTrace_responds (k : nat) (data : list OpenAIEmbeddings.item) :
  respondsAt this texts k data ->
  OpenAIEmbeddings.createEmbeddingTrace this texts
  = (Ok (OpenAIEmbeddings.orderedEmbeddings data), schedule retryDelay k).
Proof.
  intros [[Hk1 Hk2] [Hfail Hresp]].
  unfold OpenAIEmbeddings.createEmbeddingTrace, schedule.
  destruct k as [| n]; [lia |].
  apply attemptsFrom_responds; unfold maxRetries; try lia.
  - intros a Ha. apply Hfail. lia.
  - exact Hresp.
Qed.

End Embedder.

Lemma requests_scheduleFrom (retryDelay n attempt : nat) :
  requests (scheduleFrom retryDelay n attempt) = n.
Proof.
  revert attempt. induction n as [| n IH]; intros attempt; [reflexivity |].
  destruct n as [| n]; [reflexivity |].
  change (S (requests (scheduleFrom retryDelay (S n) (S attempt))) = S (S n)).
  now rewrite IH.
Qed.

(** C3, as the claim states it: a provider error that contains [quota] is
    surfaced without a further attempt. With a provider out of quota the
    embedder sends three requests. *)
Lemma C3_quota_is_retried_counterexample :
  ~ (forall (this : OpenAIEmbeddings.t) (texts : list string) (e : Error),
        OpenAIEmbeddings.client this texts 1 = OpenAIEmbeddings.Failure e ->
        includes (message e) "quota" = true ->
        requests (snd (OpenAIEmbeddings.createEmbeddingTrace this texts)) = 1).
Proof.
  intros H.
  specialize (H (OpenAIEmbeddings.new Scenario.quotaClient "text-embedding-3-small")
                ["button"] _ eq_refl eq_refl).
  vm_compute in H. discriminate H.
Qed.

(** C3 (amended): every failed attempt but the last is followed by a delay
    of [retryDelay * attempt] and a new attempt, whatever the error, a
    quota or a 401 error included. When all [maxRetries] attempts fail, the
    error of the last one alone is classified: a quota error when its
    message contains [quota], else an authentication error when it contains
    [401], else an error that quotes the message. *)
Theorem C3_retries_then_classifies
    (this : OpenAIEmbeddings.t) (texts : list string) (errs : nat -> Error) :
  (1 <= OpenAIEmbeddings.maxRetries this)%nat ->
  (forall a, (1 <= a <= OpenAIEmbeddings.maxRetries this)%nat ->
     OpenAIEmbeddings.client this texts a = OpenAIEmbeddings.Failure (errs a)) ->
  let last := errs (OpenAIEmbeddings.maxRetries this) in
  let surfaced := OpenAIEmbeddings.finalError this last in
  OpenAIEmbeddings.createEmbeddingTrace this texts
  = (Err surfaced,
     schedule (OpenAIEmbeddings.retryDelay this) (OpenAIEmbeddings.maxRetries this))
  /\ requests (snd (OpenAIEmbeddings.createEmbeddingTrace this texts))
     = OpenAIEmbeddings.maxRetries this
  /\ (includes (message last) "quota" = true ->
      message surfaced = "OpenAI API quota exceeded. Please check your billing.")
  /\ (includes (message last) "quota" = false ->
      includes (message last) "401" = true ->
      message surfaced
      = "OpenAI API authentication failed. Please check your API key.")
  /\ (includes (message last) "quota" = false ->
      includes (message last) "401" = false ->
      message surfaced
      = "OpenAI API error after " ++ natToString (OpenAIEmbeddings.maxRetries this)
        ++ " attempts: " ++ message last).
Proof.
  intros Hmax Hfail last surfaced.
  assert (Htrace :
    OpenAIEmbeddings.createEmbeddingTrace this texts
    = (Err surfaced,
       schedule (OpenAIEmbeddings.retryDelay this) (OpenAIEmbeddings.maxRetries this))).
  { unfold OpenAIEmbeddings.createEmbeddingTrace, schedule.
    destruct (OpenAIEmbeddings.maxRetries this) as [| n] eqn:Hn; [lia |].
    rewrite (attemptsFrom_fails this texts errs n 1 (S (S n))); try lia.
    - subst surfaced last. rewrite Hn. reflexivity.
    - intros a Ha. apply Hfail. lia. }
  split; [exact Htrace |]. split.
  - rewrite Htrace. apply requests_scheduleFrom.
  - subst surfaced. unfold OpenAIEmbeddings.finalError.
    repeat split.
    + intros Hq. now rewrite Hq.
    + intros Hq Ha. now rewrite Hq, Ha.
    + intros Hq Ha. now rewrite Hq, Ha.
Qed.

Lemma C3_retries_then_classifies_witness :
  OpenAIEmbeddings.createEmbeddingTrace
    (OpenAIEmbeddings.new Scenario.quotaClient "text-embedding-3-small") ["button"]
  = (Err (EmbeddingError "OpenAI API quota exceeded. Please check your billing."
            "openai"),
     [OpenAIEmbeddings.Request 1; OpenAIEmbeddings.Delay 1000;
      OpenAIEmbeddings.Request 2; OpenAIEmbeddings.Delay 2000;
      OpenAIEmbeddings.Request 3]).
Proof.
  apply (C3_retries_then_classifies
           (OpenAIEmbeddings.new Scenario.quotaClient "text-embedding-3-small")
           ["button"]
           (fun _ => mkError "Error" "429 You exceeded your current quota" "")).
  - simpl. lia.
  - intros a _. reflexivity.
Defined.

(** ** Embedder: order of the vectors (C2) *)

Lemma filter_nonBlank (texts : list string) :
  Forall nonBlank texts ->
  filter (fun text => truthy (trim text)) texts = texts.
Proof.
  induction 1 as [| text rest Htext _ IH]; simpl; [reflexivity |].
  unfold nonBlank in Htext. rewrite Htext. now f_equal.
Qed.

Lemma byIndex_total (a b : OpenAIEmbeddings.item) :
  (OpenAIEmbeddings.index a - OpenAIEmbeddings.index b <=? 0)%Z = false ->
  (OpenAIEmbeddings.index b - OpenAIEmbeddings.index a <=? 0)%Z = true.
Proof. rewrite Z.leb_gt, Z.leb_le. lia. Qed.

Lemma byIndex_trans (a b c : OpenAIEmbeddings.item) :
  (OpenAIEmbeddings.index a - OpenAIEmbeddings.index b <=? 0)%Z = true ->
  (OpenAIEmbeddings.index b - OpenAIEmbeddings.index c <=? 0)%Z = true ->
  (OpenAIEmbeddings.index a - OpenAIEmbeddings.index c <=? 0)%Z = true.
Proof. rewrite !Z.leb_le. lia. Qed.

(** The items of a well-formed answer, once sorted, carry the indices
    [0, 1, ..., n-1] in this order. *)
Lemma sorted_indices (data : list OpenAIEmbeddings.item) (n : nat) :
  wellFormed data n ->
  map OpenAIEmbeddings.index
    (sort (fun a b => (OpenAIEmbeddings.index a - OpenAIEmbeddings.index b <=? 0)%Z)
       data)
  = map Z.of_nat (seq 0 n).
Proof.
  intros Hwf. apply sorted_perm_unique.
  - pose proof (sort_sorted _ byIndex_total byIndex_trans data) as Hs.
    induction Hs as [| a l _ IH Ha]; simpl; constructor; [exact IH |].
    rewrite Forall_map. eapply Forall_impl; [| exact Ha].
    intros b Hb. apply Z.leb_le in Hb. lia.
  - apply seq_sorted.
  - rewrite <- Hwf. apply Permutation_map, sort_perm.
Qed.

Lemma orderedEmbeddings_wellFormed (data : list OpenAIEmbeddings.item) (n : nat) :
  wellFormed data n ->
  let out := OpenAIEmbeddings.orderedEmbeddings data in
  List.length out = n
  /\ forall i, (i < n)%nat ->
       In (OpenAIEmbeddings.mkItem (Z.of_nat i) (nth i out [])) data.
Proof.
  intros Hwf out. subst out. unfold OpenAIEmbeddings.orderedEmbeddings.
  pose proof (sorted_indices data n Hwf) as Hidx.
  set (sorted :=
         sort (fun a b => (OpenAIEmbeddings.index a - OpenAIEmbeddings.index b <=? 0)%Z)
           data) in *.
  assert (Hlen : List.length sorted = n).
  { apply (f_equal (@List.length Z)) in Hidx.
    now rewrite !length_map, length_seq in Hidx. }
  split; [now rewrite length_map |].
  intros i Hi.
  set (d := OpenAIEmbeddings.mkItem 0 []).
  change (@nil Q) with (OpenAIEmbeddings.embedding d).
  rewrite map_nth.
  assert (Hi' : OpenAIEmbeddings.index (nth i sorted d) = Z.of_nat i).
  { pose proof (map_nth OpenAIEmbeddings.index sorted d i) as Hm.
    rewrite Hidx in Hm. rewrite <- Hm.
    change (OpenAIEmbeddings.index d) with (Z.of_nat 0).
    rewrite map_nth, seq_nth by exact Hi. reflexivity. }
  rewrite <- Hi'.
  assert (Hin : In (nth i sorted d) sorted) by (apply nth_In; lia).
  apply (Permutation_in _ (sort_perm _ data)) in Hin.
  destruct (nth i sorted d) as [ix emb]. exact Hin.
Qed.

(** C2, as the claim states it: for every non-empty list of texts the
    result has the length of the input. A white-space text is dropped
    before the request, so the provider is asked for fewer vectors. *)
Lemma C2_blank_text_counterexample :
  ~ (forall (this : OpenAIEmbeddings.t) (texts : list string) (out : list (list Q)),
        texts <> [] ->
        OpenAIEmbeddings.embedTexts this texts = Ok out ->
        List.length out = List.length texts).
Proof.
  intros H.
  specialize (H (OpenAIEmbeddings.new Scenario.echoClient "text-embedding-3-small")
                ["button"; " "] [[6%Q; 1%Q]]).
  assert (Hlen : List.length [[6%Q; 1%Q]] = List.length ["button"; " "]).
  { apply H; [discriminate | reflexivity]. }
  discriminate Hlen.
Qed.

(** C2 (amended): for every non-empty list of texts none of which is empty
    or white space only, when the provider answers (at the first attempt, or
    at a later one after failures) with one item per position of the input,
    [embedTexts] returns as many vectors as there are texts, and the vector
    at position [i] is the embedding of the item the provider tagged with
    index [i]. *)
Theorem C2_embedTexts_preserves_order
    (this : OpenAIEmbeddings.t) (texts : list string)
    (k : nat) (data : list OpenAIEmbeddings.item) :
  texts <> [] ->
  Forall nonBlank texts ->
  respondsAt this texts k data ->
  wellFormed data (List.length texts) ->
  exists out,
    OpenAIEmbeddings.embedTexts this texts = Ok out
    /\ List.length out = List.length texts
    /\ forall i, (i < List.length texts)%nat ->
         In (OpenAIEmbeddings.mkItem (Z.of_nat i) (nth i out [])) data.
Proof.
  intros Hne Hnb Hresp Hwf.
  exists (OpenAIEmbeddings.orderedEmbeddings data).
  split; [| exact (orderedEmbeddings_wellFormed data _ Hwf)].
  unfold OpenAIEmbeddings.embedTexts.
  destruct texts as [| t rest]; [contradiction |].
  rewrite (filter_nonBlank _ Hnb).
  unfold OpenAIEmbeddings.createEmbedding.
  rewrite (createEmbeddingTrace_responds this (t :: rest) k data Hresp).
  reflexivity.
Qed.

Lemma C2_embedTexts_preserves_order_witness :
  exists out,
    OpenAIEmbeddings.embedTexts
      (OpenAIEmbeddings.new Scenario.echoClient "text-embedding-3-small")
      ["button"; "a table"] = Ok out
    /\ List.length out = 2
    /\ forall i, (i < 2)%nat ->
         In (OpenAIEmbeddings.mkItem (Z.of_nat i) (nth i out []))
            [OpenAIEmbeddings.mkItem 1 [7%Q; 1%Q];
             OpenAIEmbeddings.mkItem 0 [6%Q; 1%Q]].
Proof.
  apply (C2_embedTexts_preserves_order
           (OpenAIEmbeddings.new Scenario.echoClient "text-embedding-3-small")
           ["button"; "a table"] 1).
  - discriminate.
  - repeat constructor.
  - split; [simpl; lia |]. split; [intros a Ha; lia | reflexivity].
  - unfold wellFormed. simpl. apply perm_swap.
Defined.

(** ** Facet expansion: the ids of the documents (C5) *)

Lemma catch_Ok {A : Type} (r : result A) (h : Error -> result A) (a : A) :
  (forall e, h e <> Ok a) -> catch r h = Ok a -> r = Ok a.
Proof.
  intros Hh. destruct r as [x | e]; simpl; [trivial |].
  intros H. now apply Hh in H.
Qed.

(** When the loop over an array returns, each result comes from the
    element at its position. *)
Lemma sequence_mapiFrom {A B : Type} (f : A -> nat -> result B) :
  forall (l : list A) (start : nat) (out : list B),
    sequence (mapiFrom f l start) = Ok out ->
    List.length out = List.length l
    /\ forall i b, nth_error out i = Some b ->
         exists a, nth_error l i = Some a /\ f a (start + i)%nat = Ok b.
Proof.
  induction l as [| x t IH]; intros start out H; simpl in H.
  - injection H as <-. split; [reflexivity |].
    intros [| i] b Hb; discriminate Hb.
  - destruct (f x start) as [b0 |] eqn:Hx; simpl in H; [| discriminate H].
    destruct (sequence (mapiFrom f t (S start))) as [rest |] eqn:Hrest;
      simpl in H; [| discriminate H].
    injection H as <-.
    destruct (IH (S start) rest Hrest) as [Hlen Hnth].
    split; [simpl; now rewrite Hlen |].
    intros [| i] b Hb; simpl in Hb.
    + injection Hb as <-. exists x. rewrite Nat.add_0_r. now split.
    + destruct (Hnth i b Hb) as [a [Ha Hf]]. exists a. split; [exact Ha |].
      now replace (start + S i)%nat with (S start + i)%nat by lia.
Qed.

Lemma collectFacets_types (component : ComponentDoc.t)
    (type : VectorDocument.facet) (content : string) :
  In (type, content) (RAGService.collectFacets component) ->
  type = VectorDocument.description \/ type = VectorDocument.api
  \/ type = VectorDocument.example.
Proof.
  unfold RAGService.collectFacets. rewrite !in_app_iff.
  intros [H | [H | H]].
  - destruct (truthy _); simpl in H; [| contradiction].
    destruct H as [H | []]. injection H as <- _. now left.
  - destruct (_ && _); simpl in H; [| contradiction].
    destruct H as [H | []]. injection H as <- _. right. now left.
  - apply in_flat_map in H. destruct H as [example [_ H]].
    destruct (truthy _); simpl in H; [| contradiction].
    destruct H as [H | []]. injection H as <- _. right. now right.
Qed.

(** The documents [createComponentVectors] returns, position by position. *)
Lemma createComponentVectors_nth
    (embeddings : OpenAIEmbeddings.t) (component : ComponentDoc.t)
    (docs : list VectorDocument.t) :
  RAGService.createComponentVectors embeddings component = Ok docs ->
  forall i doc, nth_error docs i = Some doc ->
    exists type content embedding,
      nth_error (RAGService.collectFacets component) i = Some (type, content)
      /\ doc
         = VectorDocument.mk
             (FileVectorStore.generateDocumentId
                (ComponentDoc.componentName component)
                (RAGService.idType type i) content)
             content embedding
             (VectorDocument.mkMetadata
                (ComponentDoc.componentName component)
                (ComponentDoc.packageName component) type
                (ComponentDoc.tags component) (ComponentDoc.version component)).
Proof.
  unfold RAGService.createComponentVectors. intros H i doc Hdoc.
  apply catch_Ok in H; [| discriminate].
  destruct (map snd (RAGService.collectFacets component)) as [| t0 ts] eqn:Htexts.
  - injection H as <-. destruct i; discriminate Hdoc.
  - destruct (OpenAIEmbeddings.embedTexts embeddings (t0 :: ts)) as [vectors |];
      simpl in H; [| discriminate H].
    apply sequence_mapiFrom in H. destruct H as [_ H].
    destruct (H i doc Hdoc) as [embedding [_ Hf]]. simpl in Hf.
    destruct (nth_error (RAGService.collectFacets component) i) as [[type content] |];
      [| discriminate Hf].
    injection Hf as <-. now exists type, content, embedding.
Qed.

(** C5, as the claim states it: the id of every document of a sync is
    [<componentName>-<type>-<digits>] with the [type] of its metadata. The
    third document of the Button component, its example, has the id
    [Button-example-2-afe225a3]: the position of the example is part of the
    id, under either reading of the hashed text. *)
Lemma C5_example_id_counterexample :
  exists (docs : list VectorDocument.t) (doc : VectorDocument.t),
    RAGService.createComponentVectors Scenario.embedder Scenario.buttonDoc = Ok docs
    /\ nth_error docs 2 = Some doc
    /\ VectorDocument.type (VectorDocument.meta doc) = VectorDocument.example
    /\ VectorDocument.id doc = "Button-example-2-afe225a3"
    /\ VectorDocument.id doc <> claimedId doc
    /\ VectorDocument.id doc <> claimedIdDashed doc.
Proof.
  eassert (E : RAGService.createComponentVectors Scenario.embedder Scenario.buttonDoc
               = Ok _) by (vm_compute; reflexivity).
  match type of E with
  | _ = Ok ?l => exists l, (nth 2 l Scenario.acmeButton)
  end.
  split; [exact E |]. split; [reflexivity |]. split; [reflexivity |].
  split; [reflexivity |].
  split; vm_compute; discriminate.
Qed.

(** For the description of the Button component too, the digits of the id
    are not those of the MD5 of the plain concatenation: the hash is taken
    of the three parts joined with dashes. *)
Lemma description_id_hashes_dashes :
  FileVectorStore.generateDocumentId "Button" "description"
    "title: Button To trigger an operation."
  = "Button-description-8b7cb0e0"
  /\ take 8 (MD5.hex ("Button" ++ "description" ++ "title: Button To trigger an operation."))
     <> "8b7cb0e0".
Proof. vm_compute. split; [reflexivity | discriminate]. Qed.

(** C5 (amended): every document facet expansion creates, at position [i]
    of its result, has a metadata type among description, api and example
    and the id [<componentName>-<t>-<h>], where [t] is the metadata type
    for a description or an api document and [example-<i>] for an example,
    and [h] is the first eight digits of the MD5 of
    [<componentName>-<t>-<content>]. The id depends on the component name,
    the description, the api and the examples only: expanding a component
    with these four unchanged gives the same ids. *)
Theorem C5_document_ids
    (embeddings : OpenAIEmbeddings.t) (component : ComponentDoc.t)
    (docs : list VectorDocument.t) :
  RAGService.createComponentVectors embeddings component = Ok docs ->
  (forall i doc, nth_error docs i = Some doc ->
     let type := VectorDocument.type (VectorDocument.meta doc) in
     let name := ComponentDoc.componentName component in
     let t := RAGService.idType type i in
     (type = VectorDocument.description \/ type = VectorDocument.api
      \/ type = VectorDocument.example)
     /\ (type <> VectorDocument.example -> t = VectorDocument.facetName type)
     /\ (type = VectorDocument.example -> t = "example-" ++ natToString i)
     /\ componentNameOf doc = name
     /\ VectorDocument.id doc
        = name ++ "-" ++ t ++ "-"
          ++ take 8 (MD5.hex (name ++ "-" ++ t ++ "-" ++ VectorDocument.content doc)))
  /\ (forall embeddings' component' docs',
        ComponentDoc.componentName component' = ComponentDoc.componentName component ->
        ComponentDoc.description component' = ComponentDoc.description component ->
        ComponentDoc.api component' = ComponentDoc.api component ->
        ComponentDoc.examples component' = ComponentDoc.examples component ->
        RAGService.createComponentVectors embeddings' component' = Ok docs' ->
        forall i doc doc',
          nth_error docs i = Some doc -> nth_error docs' i = Some doc' ->
          VectorDocument.id doc' = VectorDocument.id doc).
Proof.
  intros H. split.
  - intros i doc Hdoc.
    destruct (createComponentVectors_nth _ _ _ H i doc Hdoc)
      as [type [content [embedding [Hfacet ->]]]].
    cbn -[RAGService.idType MD5.hex take].
    split; [eapply collectFacets_types, nth_error_In; exact Hfacet |].
    split; [destruct type; (reflexivity || congruence) |].
    split; [intros ->; reflexivity |].
    split; reflexivity.
  - intros embeddings' component' docs' Hname Hdesc Hapi Hexamples H' i doc doc'
           Hdoc Hdoc'.
    destruct (createComponentVectors_nth _ _ _ H i doc Hdoc)
      as [type [content [embedding [Hfacet ->]]]].
    destruct (createComponentVectors_nth _ _ _ H' i doc' Hdoc')
      as [type' [content' [embedding' [Hfacet' ->]]]].
    assert (Hsame : RAGService.collectFacets component'
                    = RAGService.collectFacets component)
      by (unfold RAGService.collectFacets; now rewrite Hdesc, Hapi, Hexamples).
    rewrite Hsame, Hfacet in Hfacet'. injection Hfacet' as <- <-.
    cbn [VectorDocument.id]. now rewrite Hname.
Qed.

Lemma C5_document_ids_witness :
  let component :=
    ComponentDoc.mk "@private/basic-components" "Button"
      "title: Button To trigger an operation." "" [] [] "5.10.0" [] "now" in
  let doc :=
    VectorDocument.mk "Button-description-8b7cb0e0"
      "title: Button To trigger an operation." [38%Q; 1%Q]
      (VectorDocument.mkMetadata "Button" "@private/basic-components"
         VectorDocument.description [] "5.10.0") in
  RAGService.createComponentVectors Scenario.embedder component = Ok [doc]
  /\ VectorDocument.id doc
     = "Button" ++ "-" ++ "description" ++ "-"
       ++ take 8 (MD5.hex ("Button" ++ "-" ++ "description" ++ "-"
                           ++ "title: Button To trigger an operation.")).
Proof.
  intros component doc.
  assert (E : RAGService.createComponentVectors Scenario.embedder component = Ok [doc])
    by (vm_compute; reflexivity).
  split; [exact E |].
  destruct (proj1 (C5_document_ids Scenario.embedder component [doc] E) 0%nat doc eq_refl)
    as (_ & _ & _ & _ & Hid).
  exact Hid.
Defined.

(** ** Smart cache: the counters (C9) *)

Section CacheCounters.

Variable sqrt : Q -> Q.

(** A [get] counts one query and either one hit or one miss. *)
Lemma get_counts (c : SmartCache.t) (query : string)
    (embedding : option (list Q)) (filters : option string) (startTime now : Z) :
  let before := SmartCache.stats c in
  let after :=
    SmartCache.stats (snd (SmartCache.get sqrt c query embedding filters startTime now)) in
  SmartCache.queries after = S (SmartCache.queries before)
  /\ ((SmartCache.statHits after = S (SmartCache.statHits before)
       /\ SmartCache.statMisses after = SmartCache.statMisses before)
      \/ (SmartCache.statHits after = SmartCache.statHits before
          /\ SmartCache.statMisses after = S (SmartCache.statMisses before))).
Proof.
  unfold SmartCache.get, SmartCache.getSemantic.
  cbn [SmartCache.withStats SmartCache.cache SmartCache.heap SmartCache.maxAge
       SmartCache.stats SmartCache.semanticCache].
  repeat break_match; cbn; auto.
Qed.

Lemma set_keeps_stats (c : SmartCache.t) (query : string)
    (value : RAGSearchResponse.t) (embedding : option (list Q))
    (filters : option string) (now : Z) :
  SmartCache.stats (SmartCache.set c query value embedding filters now)
  = SmartCache.stats c.
Proof.
  unfold SmartCache.set.
  repeat break_match; reflexivity.
Qed.

Lemma call_countersAddUp (c : SmartCache.t) (op : cacheCall) :
  countersAddUp c -> countersAddUp (call sqrt c op).
Proof.
  unfold countersAddUp. intros H. destruct op; simpl.
  - destruct (get_counts c query embedding filters startTime now)
      as [Hq [[Hh Hm] | [Hh Hm]]]; lia.
  - now rewrite set_keeps_stats.
  - exact H.
Qed.

Lemma calls_countersAddUp (ops : list cacheCall) :
  forall c, countersAddUp c -> countersAddUp (calls sqrt c ops).
Proof.
  induction ops as [| op rest IH]; intros c H; [exact H |].
  apply IH, call_countersAddUp, H.
Qed.

(** C9: after any sequence of [get], [set] and [clear] calls on a new
    cache, [totalQueries = hits + misses]; every [get] adds one to
    [totalQueries] and to exactly one of [hits] and [misses]; and the
    [hitRate] of [getStats] is [hits / (hits + misses)] when there was a
    query (and 0 when there was none). *)
Theorem C9_cache_counters
    (maxSize : nat) (maxAge : Z) (similarityThreshold : Q)
    (ops : list cacheCall) (now : Z) :
  let c := calls sqrt (SmartCache.new maxSize maxAge similarityThreshold) ops in
  let s := SmartCache.getStats c now in
  SmartCache.totalQueries s = (SmartCache.csHits s + SmartCache.csMisses s)%nat
  /\ SmartCache.hitRate s
     = (if (0 <? SmartCache.totalQueries s)%nat
        then (SmartCache.natQ (SmartCache.csHits s)
              / SmartCache.natQ (SmartCache.csHits s + SmartCache.csMisses s))%Q
        else 0%Q)
  /\ forall query embedding filters startTime t,
       let c' := call sqrt c (CallGet query embedding filters startTime t) in
       let s' := SmartCache.getStats c' t in
       SmartCache.totalQueries s' = S (SmartCache.totalQueries s)
       /\ ((SmartCache.csHits s' = S (SmartCache.csHits s)
            /\ SmartCache.csMisses s' = SmartCache.csMisses s)
           \/ (SmartCache.csHits s' = SmartCache.csHits s
               /\ SmartCache.csMisses s' = S (SmartCache.csMisses s))).
Proof.
  intros c s.
  assert (H : countersAddUp c).
  { apply calls_countersAddUp. reflexivity. }
  unfold countersAddUp in H. subst s. cbn [SmartCache.getStats
    SmartCache.totalQueries SmartCache.csHits SmartCache.csMisses SmartCache.hitRate].
  split; [exact H |]. split.
  - now rewrite <- H.
  - intros query embedding filters startTime t.
    exact (get_counts c query embedding filters startTime t).
Qed.

End CacheCounters.

(** ** Vector store: the store invariant *)

Lemma wellFormedStore_empty : wellFormedStore FileVectorStore.empty.
Proof. split; [reflexivity | constructor]. Qed.

Lemma wellFormedStore_clear (store : FileVectorStore.t) :
  wellFormedStore (FileVectorStore.clear store).
Proof. split; [reflexivity | constructor]. Qed.

(** Dropping documents keeps the ids distinct. *)
Lemma ids_distinct_filter (keep : VectorDocument.t -> bool)
    (docs : list VectorDocument.t) :
  NoDup (map VectorDocument.id docs) ->
  NoDup (map VectorDocument.id (filter keep docs)).
Proof.
  induction docs as [| d rest IH]; simpl; intros Hnd; [constructor |].
  inversion Hnd as [| ? ? Hd Hrest]; subst.
  destruct (keep d); simpl; [| now apply IH].
  constructor; [| now apply IH].
  intros Hin. apply Hd. apply in_map_iff in Hin.
  destruct Hin as [d' [Hid Hin]]. apply filter_In in Hin.
  apply in_map_iff. exists d'. tauto.
Qed.

Lemma wellFormedStore_deleteDocuments (store : FileVectorStore.t) (ids : list string) :
  wellFormedStore store -> wellFormedStore (FileVectorStore.deleteDocuments store ids).
Proof.
  intros [Hidx Hnd]. split; simpl.
  - rewrite Hidx. clear. induction (FileVectorStore.documents store) as [| d t IH];
      simpl; [reflexivity |].
    destruct (FileVectorStore.hasId ids (VectorDocument.id d)); simpl; now rewrite IH.
  - now apply ids_distinct_filter.
Qed.

(** [addDocuments] keeps the invariant for a batch without repeated ids. *)
Lemma wellFormedStore_addDocuments
    (store : FileVectorStore.t) (docs : list VectorDocument.t) :
  wellFormedStore store ->
  NoDup (map VectorDocument.id docs) ->
  wellFormedStore (FileVectorStore.addDocuments store docs).
Proof.
  intros [Hidx Hnd] Hdocs. unfold FileVectorStore.addDocuments.
  set (fresh := fun doc => negb (FileVectorStore.hasId _ (VectorDocument.id doc))).
  destruct (filter fresh docs) as [| d0 rest] eqn:Hnew; [now split |].
  rewrite <- Hnew. split; simpl.
  - now rewrite Hidx, map_app.
  - rewrite map_app. apply NoDup_app.
    + exact Hnd.
    + now apply ids_distinct_filter.
    + intros i Hold Hin. apply in_map_iff in Hin. destruct Hin as [d [<- Hin]].
      apply filter_In in Hin. destruct Hin as [_ Hfresh]. unfold fresh in Hfresh.
      apply negb_true_iff in Hfresh. apply (proj2 (hasId_In _ _)) in Hold.
      rewrite Hold in Hfresh. discriminate Hfresh.
Qed.

(** ** Vector store: top-k search (C8) *)

Lemma docMapGet_None (docs : list VectorDocument.t) (i : string) :
  ~ In i (map VectorDocument.id docs) -> FileVectorStore.docMapGet docs i = None.
Proof.
  induction docs as [| d t IH]; simpl; intros H; [reflexivity |].
  rewrite IH by tauto.
  destruct (String.eqb_spec (VectorDocument.id d) i); [| reflexivity].
  exfalso. apply H. now left.
Qed.


Lemma In_firstn {A : Type} (n : nat) (l : list A) (x : A) :
  In x (firstn n l) -> In x l.
Proof.
  intros H. rewrite <- (firstn_skipn n l). apply in_or_app. now left.
Qed.

Lemma StronglySorted_firstn {A : Type} (R : A -> A -> Prop) (n : nat) (l : list A) :
  StronglySorted R l -> StronglySorted R (firstn n l).
Proof.
  revert n. induction l as [| x t IH]; intros [| n] H; simpl; try constructor.
  - apply IH. now inversion H.
  - inversion H as [| ? ? _ Hx]; subst. rewrite Forall_forall in *.
    intros y Hy. apply Hx. eapply In_firstn, Hy.
Qed.

Lemma StronglySorted_impl {A : Type} (R R' : A -> A -> Prop) (l : list A) :
  (forall a b, R a b -> R' a b) -> StronglySorted R l -> StronglySorted R' l.
Proof.
  intros HR. induction 1 as [| x t _ IH Hx]; constructor; [exact IH |].
  eapply Forall_impl; [| exact Hx]. intros b. apply HR.
Qed.

Lemma StronglySorted_map {A B : Type} (R : B -> B -> Prop) (f : A -> B) (l : list A) :
  StronglySorted (fun a b => R (f a) (f b)) l -> StronglySorted R (map f l).
Proof.
  induction 1 as [| x t _ IH Hx]; simpl; constructor; [exact IH |].
  now rewrite Forall_map.
Qed.



Section TopK.

Variable sqrt : Q -> Q.






End TopK.



(** On the store of three documents the search for [1, 0] with [k = 2] and
    threshold 1/2 returns the Button, of similarity 1, before
    the Table, of similarity 3/5, and leaves out the Modal, of similarity 0. *)
Example similaritySearch_threeDocs :
  FileVectorStore.similaritySearch Scenario.sqrtQ Scenario.threeDocs
    [1%Q; 0%Q] 2 (1 # 2)%Q
  = Ok [Scenario.acmeButton; Scenario.tableDoc].
Proof. vm_compute. reflexivity. Qed.

(** [embedTexts] when the provider answers the request for the texts
    that are not blank. *)
Lemma embedTexts_responds (this : OpenAIEmbeddings.t) (texts : list string)
    (k : nat) (data : list OpenAIEmbeddings.item) :
  filter (fun text => truthy (trim text)) texts <> [] ->
  respondsAt this (filter (fun text => truthy (trim text)) texts) k data ->
  OpenAIEmbeddings.embedTexts this texts
  = Ok (OpenAIEmbeddings.orderedEmbeddings data).
Proof.
  intros Hne Hresp. unfold OpenAIEmbeddings.embedTexts.
  destruct texts as [| t ts]; [now contradiction Hne |].
  cbv zeta.
  remember (filter (fun text => truthy (trim text)) (t :: ts)) as valid eqn:Hv.
  destruct valid as [| v vs]; [now contradiction Hne |].
  unfold OpenAIEmbeddings.createEmbedding.
  rewrite (createEmbeddingTrace_responds this (v :: vs) k data Hresp).
  reflexivity.
Qed.

(** ** Strings: [trim] *)

Lemma trimEnd_head (c : ascii) (t : string) :
  isSpace c = false -> exists r, trimEnd (String c t) = String c r.
Proof.
  intros Hc. cbn [trimEnd]. destruct (trimEnd t); [rewrite Hc |]; eauto.
Qed.

Lemma trimStart_head (s : string) :
  trimStart s = "" \/ exists c t, trimStart s = String c t /\ isSpace c = false.
Proof.
  induction s as [| a s IH]; [now left |].
  cbn [trimStart]. destruct (isSpace a) eqn:Ha; [exact IH |].
  right. now exists a, s.
Qed.

(** A trimmed string that is not empty starts with a character that is
    not white space. *)
Lemma trim_head (s : string) :
  truthy (trim s) = true ->
  exists c r, trim s = String c r /\ isSpace c = false.
Proof.
  unfold trim. intros H.
  destruct (trimStart_head s) as [He | [c [t [He Hc]]]]; rewrite He in *.
  - discriminate H.
  - destruct (trimEnd_head c t Hc) as [r Hr]. rewrite Hr. now exists c, r.
Qed.

Lemma nonBlank_head (c : ascii) (t : string) :
  isSpace c = false -> nonBlank (String c t).
Proof.
  intros Hc. unfold nonBlank, trim. cbn [trimStart]. rewrite Hc.
  destruct (trimEnd_head c t Hc) as [r ->]. reflexivity.
Qed.

Lemma nonBlank_trim (s : string) : truthy (trim s) = true -> nonBlank (trim s).
Proof.
  intros H. destruct (trim_head s H) as [c [r [-> Hc]]]. now apply nonBlank_head.
Qed.

Lemma nonBlank_append (s : string) (c : ascii) (t : string) :
  isSpace c = false -> nonBlank (s ++ String c t).
Proof.
  intros Hc. induction s as [| a s IH]; [now apply nonBlank_head |].
  destruct (isSpace a) eqn:Ha.
  - unfold nonBlank, trim in *. cbn [append trimStart]. rewrite Ha. exact IH.
  - now apply nonBlank_head.
Qed.

Lemma nonBlank_truthy (s : string) : nonBlank s -> truthy s = true.
Proof. destruct s; [discriminate | reflexivity]. Qed.

(** ** Parser: the description (C10) *)

Lemma append_assoc (a b c : string) : (a ++ b) ++ c = a ++ (b ++ c).
Proof. induction a as [| x a IH]; simpl; [reflexivity | now rewrite IH]. Qed.

Lemma fallbackDescription_nonBlank (componentPath : string) :
  nonBlank (ComponentParser.fallbackDescription componentPath).
Proof.
  unfold ComponentParser.fallbackDescription.
  change " component" with (" " ++ String "c" "omponent").
  rewrite <- append_assoc. now apply nonBlank_append.
Qed.

Lemma extractDescription_nonBlank (componentPath : string) (md : option string) :
  nonBlank (ComponentParser.extractDescription componentPath md).
Proof.
  unfold ComponentParser.extractDescription.
  destruct md as [content |]; [| apply fallbackDescription_nonBlank].
  destruct (findIndex _ _) as [st |]; [| apply fallbackDescription_nonBlank].
  destruct (findIndex _ _) as [en |]; [| apply fallbackDescription_nonBlank].
  destruct (truthy _) eqn:Ht; [| apply fallbackDescription_nonBlank].
  now apply nonBlank_trim.
Qed.

Section ParsedDescription.

Variable parser : ComponentParser.t.
Variable fs : FS.t.
Variable now : string.



End ParsedDescription.

(** ** The description read from the documentation (C10) *)








(** A documentation file without front matter: the parser falls back on
    the name of the directory. *)
Example extractDescription_without_front_matter :
  ComponentParser.extractDescription "./root/components/date-picker"
    (Some ("Pick a date." ++ Scenario.nl ++ "## API" ++ Scenario.nl))
  = "DatePicker component".
Proof. vm_compute. reflexivity. Qed.

(** ** Facet expansion of a described component (C10) *)

Section DescribedComponent.

Variable embeddings : OpenAIEmbeddings.t.
Variable component : ComponentDoc.t.
Hypothesis described : nonBlank (ComponentDoc.description component).

Let facets := RAGService.collectFacets component.
Let validTexts := filter (fun text => truthy (trim text)) (map snd facets).




(** The loop that builds the documents returns when there are no more
    vectors than facets. *)
Lemma documents_built (f : list Q -> nat -> result VectorDocument.t) :
  (forall embedding index, (index < List.length facets)%nat ->
     exists doc, f embedding index = Ok doc) ->
  forall (vectors : list (list Q)) (start : nat),
    (start + List.length vectors <= List.length facets)%nat ->
    exists docs,
      sequence (mapiFrom f vectors start) = Ok docs
      /\ List.length docs = List.length vectors.
Proof.
  intros Hf. induction vectors as [| v vs IH]; intros start Hlen.
  - exists []. now split.
  - simpl in Hlen. destruct (Hf v start) as [doc Hdoc]; [lia |].
    destruct (IH (S start)) as [docs [Hdocs Hl]]; [lia |].
    exists (doc :: docs). simpl. rewrite Hdoc. simpl. rewrite Hdocs. simpl.
    split; [reflexivity | now rewrite Hl].
Qed.


End DescribedComponent.



(** The Button component of the tree expands to three documents:
    description, api and example. *)
Example buttonDoc_vectors :
  option_map (map (fun doc => VectorDocument.type (VectorDocument.meta doc)))
    (match RAGService.createComponentVectors Scenario.embedder Scenario.buttonDoc with
     | Ok docs => Some docs
     | Err _ => None
     end)
  = Some [VectorDocument.description; VectorDocument.api; VectorDocument.example].
Proof. vm_compute. reflexivity. Qed.

(** * Further properties of the code *)

(** ** Vector store: adding and deleting documents *)

(** A batch whose ids are all stored changes nothing. *)
Lemma addDocuments_absorbs (store : FileVectorStore.t) (docs : list VectorDocument.t) :
  (forall doc, In doc docs -> In (VectorDocument.id doc) (storedIds store)) ->
  FileVectorStore.addDocuments store docs = store.
Proof.
  intros Hall. unfold storedIds in Hall. unfold FileVectorStore.addDocuments.
  replace (filter _ docs) with (@nil VectorDocument.t); [reflexivity |].
  symmetry. induction docs as [| d rest IH]; [reflexivity |].
  cbn [filter]. cbv beta.
  rewrite (proj2 (hasId_In _ _) (Hall d (or_introl eq_refl))). cbn [negb].
  apply IH. intros doc Hdoc. apply Hall. now right.
Qed.

(** After [addDocuments] the id of every document of the batch is stored. *)
Lemma addDocuments_stores_ids (store : FileVectorStore.t)
    (docs : list VectorDocument.t) (doc : VectorDocument.t) :
  In doc docs ->
  In (VectorDocument.id doc) (storedIds (FileVectorStore.addDocuments store docs)).
Proof.
  intros Hdoc. unfold FileVectorStore.addDocuments, storedIds.
  set (fresh := fun d => negb (FileVectorStore.hasId _ (VectorDocument.id d))).
  assert (Hcase :
    In (VectorDocument.id doc) (map VectorDocument.id (FileVectorStore.documents store))
    \/ In doc (filter fresh docs)).
  { destruct (fresh doc) eqn:Hf.
    - right. apply filter_In. now split.
    - left. unfold fresh in Hf. apply negb_false_iff in Hf. now apply hasId_In. }
  destruct (filter fresh docs) as [| d0 rest] eqn:Hnew.
  - destruct Hcase as [H | []]. exact H.
  - cbn [FileVectorStore.documents]. rewrite map_app, in_app_iff.
    destruct Hcase as [H | H]; [now left | right; now apply in_map].
Qed.

(** X1: [addDocuments] is idempotent: adding a batch a second time leaves
    the store as the first call left it, whatever the batch and the store. *)
Theorem X1_addDocuments_idempotent
    (store : FileVectorStore.t) (docs : list VectorDocument.t) :
  FileVectorStore.addDocuments (FileVectorStore.addDocuments store docs) docs
  = FileVectorStore.addDocuments store docs.
Proof.
  apply addDocuments_absorbs. intros doc Hdoc. now apply addDocuments_stores_ids.
Qed.

(** The documents after [addDocuments]: the stored ones, then those of the
    batch whose id was not stored. *)
Lemma addDocuments_documents (store : FileVectorStore.t) (docs : list VectorDocument.t) :
  FileVectorStore.documents (FileVectorStore.addDocuments store docs)
  = (FileVectorStore.documents store
     ++ filter
          (fun doc => negb (FileVectorStore.hasId (storedIds store) (VectorDocument.id doc)))
          docs)%list.
Proof.
  unfold FileVectorStore.addDocuments, storedIds.
  destruct (filter _ docs) as [| d0 rest]; [now rewrite app_nil_r | reflexivity].
Qed.

Lemma docMapGet_app_absent (docs added : list VectorDocument.t) (i : string) :
  ~ In i (map VectorDocument.id added) ->
  FileVectorStore.docMapGet (docs ++ added) i = FileVectorStore.docMapGet docs i.
Proof.
  intros Hnew. induction docs as [| d rest IH]; cbn [app FileVectorStore.docMapGet].
  - now apply docMapGet_None.
  - now rewrite IH.
Qed.

(** X2: [addDocuments] never overwrites or drops a stored document: the
    stored documents stay, in their order and in front; a document of the
    batch is added only if its id was not stored; afterwards the id of
    every document of the batch is stored, and a stored id still leads to
    the document it led to. *)
Theorem X2_addDocuments_keeps_stored
    (store : FileVectorStore.t) (docs : list VectorDocument.t) :
  let after := FileVectorStore.addDocuments store docs in
  (exists added,
      FileVectorStore.documents after = (FileVectorStore.documents store ++ added)%list
      /\ forall doc, In doc added ->
           In doc docs /\ ~ In (VectorDocument.id doc) (storedIds store))
  /\ (forall doc, In doc docs -> In (VectorDocument.id doc) (storedIds after))
  /\ (forall i,
        In i (storedIds store) ->
        FileVectorStore.docMapGet (FileVectorStore.documents after) i
        = FileVectorStore.docMapGet (FileVectorStore.documents store) i).
Proof.
  intros after. subst after. split; [| split].
  - eexists. split; [apply addDocuments_documents |].
    intros doc Hdoc. apply filter_In in Hdoc. destruct Hdoc as [Hin Hfresh].
    split; [exact Hin |]. intros Hid. apply (proj2 (hasId_In _ _)) in Hid.
    rewrite Hid in Hfresh. discriminate Hfresh.
  - intros doc Hdoc. now apply addDocuments_stores_ids.
  - intros i Hi. rewrite addDocuments_documents. apply docMapGet_app_absent.
    intros Hin. apply in_map_iff in Hin. destruct Hin as [d [<- Hd]].
    apply filter_In in Hd. destruct Hd as [_ Hfresh].
    apply (proj2 (hasId_In _ _)) in Hi. rewrite Hi in Hfresh. discriminate Hfresh.
Qed.

(** X3: every store reached from the empty one by [addDocuments] (of
    batches without repeated ids), [deleteDocuments] and [clear] is well
    formed: the index lists the documents one for one, no two documents
    share an id, and the document count of the metadata file is the number
    of documents. *)
Theorem X3_store_invariant (ops : list storeCall) :
  batchesDistinct ops ->
  let store := storeCalls FileVectorStore.empty ops in
  wellFormedStore store
  /\ FileVectorStore.totalDocuments store
     = List.length (FileVectorStore.documents store).
Proof.
  intros Hops. cbv zeta.
  assert (Hgen : forall store,
    wellFormedStore store
    /\ FileVectorStore.totalDocuments store
       = List.length (FileVectorStore.documents store) ->
    wellFormedStore (storeCalls store ops)
    /\ FileVectorStore.totalDocuments (storeCalls store ops)
       = List.length (FileVectorStore.documents (storeCalls store ops))).
  { induction Hops as [| op rest Hop _ IH]; intros store [Hwf Hcount]; [now split |].
    apply IH. destruct op as [docs | ids |]; cbn [storeStep].
    - split; [now apply wellFormedStore_addDocuments |].
      unfold FileVectorStore.addDocuments.
      destruct (filter _ docs); [exact Hcount | reflexivity].
    - split; [now apply wellFormedStore_deleteDocuments | reflexivity].
    - split; [apply wellFormedStore_clear | reflexivity]. }
  apply Hgen. split; [apply wellFormedStore_empty | reflexivity].
Qed.

Lemma X3_store_invariant_witness :
  wellFormedStore
    (storeCalls FileVectorStore.empty
       [CallAdd [Scenario.tableDoc; Scenario.modalDoc];
        CallDelete ["Modal-description-11112222"];
        CallAdd [Scenario.tableDoc; Scenario.acmeButton]]).
Proof.
  apply (X3_store_invariant
           [CallAdd [Scenario.tableDoc; Scenario.modalDoc];
            CallDelete ["Modal-description-11112222"];
            CallAdd [Scenario.tableDoc; Scenario.acmeButton]]).
  repeat constructor; simpl; intuition discriminate.
Defined.

Lemma filter_listed_docs (docs l : list VectorDocument.t) :
  (forall d, In d l -> In d docs) ->
  filter
    (fun doc => negb (FileVectorStore.hasId (map VectorDocument.id docs)
                        (VectorDocument.id doc))) l = [].
Proof.
  induction l as [| d rest IH]; intros Hl; [reflexivity |]. cbn [filter].
  rewrite (proj2 (hasId_In _ _) (in_map VectorDocument.id docs d
                                   (Hl d (or_introl eq_refl)))).
  cbn [negb]. apply IH. intros d' Hd'. apply Hl. now right.
Qed.

Lemma filter_listed_entries (docs l : list VectorDocument.t) :
  (forall d, In d l -> In d docs) ->
  filter
    (fun item => negb (FileVectorStore.hasId (map VectorDocument.id docs)
                         (FileVectorStore.id item)))
    (map FileVectorStore.entryOf l) = [].
Proof.
  induction l as [| d rest IH]; intros Hl; [reflexivity |].
  cbn [map filter FileVectorStore.entryOf FileVectorStore.id].
  rewrite (proj2 (hasId_In _ _) (in_map VectorDocument.id docs d
                                   (Hl d (or_introl eq_refl)))).
  cbn [negb]. apply IH. intros d' Hd'. apply Hl. now right.
Qed.

Lemma delete_added (docs : list VectorDocument.t) :
  FileVectorStore.deleteDocuments
    (FileVectorStore.addDocuments FileVectorStore.empty docs)
    (map VectorDocument.id docs)
  = FileVectorStore.empty.
Proof.
  unfold FileVectorStore.addDocuments, FileVectorStore.empty.
  cbn [FileVectorStore.documents FileVectorStore.index map app].
  set (fresh := filter _ docs).
  assert (Hfresh : forall d, In d fresh -> In d docs)
    by (intros d Hd; apply filter_In in Hd; tauto).
  destruct fresh as [| d0 rest] eqn:Hf; [reflexivity |].
  rewrite <- Hf in *. unfold FileVectorStore.deleteDocuments.
  cbn [FileVectorStore.documents FileVectorStore.index].
  rewrite (filter_listed_docs docs fresh Hfresh).
  rewrite (filter_listed_entries docs fresh Hfresh). reflexivity.
Qed.

(** X4: [deleteDocuments] removes exactly the documents and the index
    entries whose id is listed and keeps the others; the document count
    follows. Deleting the ids of a batch just added to the empty store
    gives the empty store back. *)
Theorem X4_deleteDocuments
    (store : FileVectorStore.t) (ids : list string) (docs : list VectorDocument.t) :
  let after := FileVectorStore.deleteDocuments store ids in
  (forall doc,
      In doc (FileVectorStore.documents after)
      <-> In doc (FileVectorStore.documents store) /\ ~ In (VectorDocument.id doc) ids)
  /\ (forall item,
        In item (FileVectorStore.index after)
        <-> In item (FileVectorStore.index store) /\ ~ In (FileVectorStore.id item) ids)
  /\ FileVectorStore.totalDocuments after
     = List.length (FileVectorStore.documents after)
  /\ FileVectorStore.deleteDocuments
       (FileVectorStore.addDocuments FileVectorStore.empty docs)
       (map VectorDocument.id docs)
     = FileVectorStore.empty.
Proof.
  cbv zeta.
  assert (Hneg : forall i, negb (FileVectorStore.hasId ids i) = true <-> ~ In i ids).
  { intros i. rewrite negb_true_iff, <- hasId_In.
    destruct (FileVectorStore.hasId ids i); split; intros H;
      try reflexivity; try discriminate; try (intros H'; discriminate H').
    exfalso. now apply H. }
  split; [| split; [| split]].
  - intros doc. unfold FileVectorStore.deleteDocuments.
    cbn [FileVectorStore.documents]. rewrite filter_In, Hneg. reflexivity.
  - intros item. unfold FileVectorStore.deleteDocuments.
    cbn [FileVectorStore.index]. rewrite filter_In, Hneg. reflexivity.
  - reflexivity.
  - apply delete_added.
Qed.

(** ** Vector store: filtered search *)

Lemma rejects_false (wanted : option string) (value w : string) :
  FileVectorStore.rejects wanted value = false ->
  wanted = Some w -> w <> "" -> value = w.
Proof.
  intros H -> Hw. unfold FileVectorStore.rejects in H.
  destruct w as [| c w]; [contradiction |]. cbn [truthy andb] in H.
  apply negb_false_iff in H. now apply String.eqb_eq.
Qed.

(** X5: what [searchWithFilters] returns: at most [topK] documents, each
    among the thousand best of the plain search, and each passing every
    filter that is set: the package name, the component name and the type
    are the requested ones, and of the requested tags the document has at
    least one. *)
Theorem X5_searchWithFilters
    (sqrt : Q -> Q) (store : FileVectorStore.t) (queryEmbedding : list Q)
    (filters : FileVectorStore.Filters) (topK : nat) (threshold : Q)
    (docs : list VectorDocument.t) :
  FileVectorStore.searchWithFilters sqrt store queryEmbedding filters topK threshold
  = Ok docs ->
  (List.length docs <= topK)%nat
  /\ (exists allResults,
        FileVectorStore.similaritySearch sqrt store queryEmbedding 1000 threshold
        = Ok allResults
        /\ forall doc, In doc docs -> In doc allResults)
  /\ forall doc, In doc docs ->
       (forall p, FileVectorStore.packageName filters = Some p -> p <> "" ->
                  packageNameOf doc = p)
       /\ (forall c, FileVectorStore.componentName filters = Some c -> c <> "" ->
                     componentNameOf doc = c)
       /\ (forall t, FileVectorStore.type filters = Some t -> t <> "" ->
                     VectorDocument.facetName
                       (VectorDocument.type (VectorDocument.meta doc)) = t)
       /\ (forall tags, FileVectorStore.tags filters = Some tags -> tags <> [] ->
             exists tag,
               In tag tags /\ In tag (VectorDocument.tags (VectorDocument.meta doc))).
Proof.
  unfold FileVectorStore.searchWithFilters. intros H.
  apply catch_Ok in H; [| discriminate].
  destruct (FileVectorStore.similaritySearch sqrt store queryEmbedding 1000 threshold)
    as [allResults | e]; cbn [bind] in H; [| discriminate H].
  injection H as <-. unfold slice. rewrite Nat.sub_0_r. cbn [skipn].
  split; [apply firstn_le_length |]. split.
  - exists allResults. split; [reflexivity |].
    intros doc Hdoc. apply In_firstn, filter_In in Hdoc. tauto.
  - intros doc Hdoc. apply In_firstn, filter_In in Hdoc. destruct Hdoc as [_ Hpass].
    unfold FileVectorStore.passes in Hpass.
    destruct (FileVectorStore.rejects (FileVectorStore.packageName filters) _) eqn:Hp;
      [discriminate Hpass |].
    destruct (FileVectorStore.rejects (FileVectorStore.componentName filters) _) eqn:Hc;
      [discriminate Hpass |].
    destruct (FileVectorStore.rejects (FileVectorStore.type filters) _) eqn:Ht;
      [discriminate Hpass |].
    repeat split.
    + intros p Hsome Hne. exact (rejects_false _ _ _ Hp Hsome Hne).
    + intros c Hsome Hne. exact (rejects_false _ _ _ Hc Hsome Hne).
    + intros t Hsome Hne. exact (rejects_false _ _ _ Ht Hsome Hne).
    + intros tags Hsome Hne. rewrite Hsome in Hpass.
      destruct tags as [| t ts]; [contradiction |].
      apply existsb_exists in Hpass. destruct Hpass as [tag [Hin Hhas]].
      exists tag. split; [exact Hin | now apply hasId_In].
Qed.

Lemma X5_searchWithFilters_witness :
  (List.length [Scenario.acmeButton] <= 5)%nat.
Proof.
  apply (X5_searchWithFilters Scenario.sqrtQ Scenario.threeDocs [1%Q; 0%Q]
           (FileVectorStore.mkFilters (Some "@acme/ui") None (Some ["ui"]) None)
           5 (1 # 2)%Q [Scenario.acmeButton]).
  vm_compute. reflexivity.
Defined.

(** ** Smart cache: keys, round trip, expiry and capacity *)

Lemma hex_truthy (s : string) : truthy (MD5.hex s) = true.
Proof.
  unfold MD5.hex, MD5.digest. cbv zeta.
  cbn [MD5.leBytes app MD5.hexOfBytes truthy]. reflexivity.
Qed.

Lemma mapGet_mapSet {V : Type} (m : list (string * V)) (key : string) (v : V) :
  SmartCache.mapGet (SmartCache.mapSet m key v) key = Some v.
Proof.
  induction m as [| [k old] rest IH]; cbn [SmartCache.mapSet SmartCache.mapGet].
  - now rewrite String.eqb_refl.
  - destruct (String.eqb k key) eqn:Hk; cbn [SmartCache.mapGet]; rewrite Hk;
      [reflexivity | exact IH].
Qed.

Lemma mapGet_mapDelete {V : Type} (m : list (string * V)) (key : string) :
  SmartCache.mapGet (SmartCache.mapDelete m key) key = None.
Proof.
  unfold SmartCache.mapDelete.
  induction m as [| [k v] rest IH]; cbn [filter fst SmartCache.mapGet]; [reflexivity |].
  destruct (String.eqb k key) eqn:Hk; cbn [negb SmartCache.mapGet];
    [exact IH | rewrite Hk; exact IH].
Qed.

Lemma mapDelete_length {V : Type} (m : list (string * V)) (key : string) :
  (List.length (SmartCache.mapDelete m key) <= List.length m)%nat.
Proof. apply filter_length_le. Qed.

Lemma mapDelete_present {V : Type} (m : list (string * V)) (key : string) :
  SmartCache.mapGet m key <> None ->
  (List.length (SmartCache.mapDelete m key) < List.length m)%nat.
Proof.
  unfold SmartCache.mapDelete.
  induction m as [| [k v] rest IH]; cbn [SmartCache.mapGet filter fst List.length];
    intros H; [contradiction |].
  destruct (String.eqb k key) eqn:Hk; cbn [negb List.length].
  - pose proof (filter_length_le (fun kv => negb (String.eqb (fst kv) key)) rest). lia.
  - specialize (IH H). lia.
Qed.

Lemma mapSet_length {V : Type} (m : list (string * V)) (key : string) (v : V) :
  (List.length (SmartCache.mapSet m key v) <= S (List.length m))%nat.
Proof.
  induction m as [| [k old] rest IH]; cbn [SmartCache.mapSet List.length]; [lia |].
  destruct (String.eqb k key); cbn [List.length]; lia.
Qed.

Lemma generateKey_normalises (query query' : string) (filters : option string) :
  trim (toLowerCase query') = trim (toLowerCase query) ->
  SmartCache.generateKey query' filters = SmartCache.generateKey query filters.
Proof. unfold SmartCache.generateKey. now intros ->. Qed.

Section CacheRoundTrip.

Variable sqrt : Q -> Q.
Variable c : SmartCache.t.
Variables (query query' : string) (value : RAGSearchResponse.t).
Variables (embedding embedding' : option (list Q)) (filters : option string).
Variables (storedAt startTime now : Z).

Hypothesis sameKey : trim (toLowerCase query') = trim (toLowerCase query).

Let stored := SmartCache.set c query value embedding filters storedAt.
Let key := SmartCache.generateKey query filters.

Lemma set_cache_key :
  SmartCache.mapGet (SmartCache.cache stored) key = Some (List.length (SmartCache.heap c))
  /\ nth_error (SmartCache.heap stored) (List.length (SmartCache.heap c))
     = Some (SmartCache.mkEntry value storedAt 0 embedding)
  /\ SmartCache.maxAge stored = SmartCache.maxAge c
  /\ SmartCache.stats stored = SmartCache.stats c.
Proof.
  unfold stored, key, SmartCache.set.
  destruct (if (SmartCache.maxSize c <=? List.length (SmartCache.cache c))%nat
            then _ else _) as [cache1 semantic1].
  cbn [SmartCache.cache SmartCache.heap SmartCache.maxAge SmartCache.stats].
  split; [apply mapGet_mapSet |]. split; [| split; reflexivity].
  rewrite nth_error_app2 by lia. now rewrite Nat.sub_diag.
Qed.

(** X6: a response stored with [set] is returned by the next [get] for
    the same filters and a query that differs at most in case and in
    surrounding white space, as long as the entry is not older than
    [maxAge]; the [get] counts as one hit. *)
Theorem X6_cache_set_then_get :
  (now - storedAt <= SmartCache.maxAge c)%Z ->
  let '(found, after) :=
    SmartCache.get sqrt stored query' embedding' filters startTime now in
  found = Some value
  /\ SmartCache.statHits (SmartCache.stats after)
     = S (SmartCache.statHits (SmartCache.stats c))
  /\ SmartCache.statMisses (SmartCache.stats after)
     = SmartCache.statMisses (SmartCache.stats c).
Proof.
  intros Hfresh. destruct set_cache_key as [Hkey [Hentry [Hage Hstats]]].
  unfold SmartCache.get.
  rewrite (generateKey_normalises query query' filters sameKey). fold key.
  cbn [SmartCache.withStats SmartCache.cache SmartCache.heap SmartCache.maxAge].
  rewrite Hkey, Hentry. cbn [SmartCache.timestamp]. rewrite Hage.
  rewrite (proj2 (Z.leb_le _ _) Hfresh).
  cbn. rewrite Hstats. repeat split; reflexivity.
Qed.

(** X7: an entry older than [maxAge] is not returned: when the query
    carries no embedding, the [get] answers nothing, counts one miss, and
    removes the entry from the exact map. *)
Theorem X7_cache_expiry :
  (SmartCache.maxAge c < now - storedAt)%Z ->
  let '(found, after) :=
    SmartCache.get sqrt stored query' None filters startTime now in
  found = None
  /\ SmartCache.mapGet (SmartCache.cache after) key = None
  /\ SmartCache.statMisses (SmartCache.stats after)
     = S (SmartCache.statMisses (SmartCache.stats c))
  /\ SmartCache.statHits (SmartCache.stats after)
     = SmartCache.statHits (SmartCache.stats c).
Proof.
  intros Hold. destruct set_cache_key as [Hkey [Hentry [Hage Hstats]]].
  unfold SmartCache.get.
  rewrite (generateKey_normalises query query' filters sameKey). fold key.
  cbn [SmartCache.withStats SmartCache.cache SmartCache.heap SmartCache.maxAge].
  rewrite Hkey, Hentry. cbn [SmartCache.timestamp]. rewrite Hage.
  rewrite (proj2 (Z.leb_gt _ _) Hold).
  cbn. rewrite Hstats. repeat split; try reflexivity. apply mapGet_mapDelete.
Qed.

End CacheRoundTrip.

Lemma X6_cache_set_then_get_witness :
  fst (SmartCache.get Scenario.sqrtQ
         (SmartCache.set (SmartCache.new 1000 300000 (92 # 100)%Q) "button"
            Scenario.noResults None None 1000)
         "BUTTON " None None 2000 2001)
  = Some Scenario.noResults.
Proof.
  pose proof (X6_cache_set_then_get Scenario.sqrtQ
                (SmartCache.new 1000 300000 (92 # 100)%Q) "button" "BUTTON "
                Scenario.noResults None None None 1000 2000 2001 eq_refl) as H.
  destruct (SmartCache.get _ _ _ _ _ _ _) as [found after].
  apply H. simpl. lia.
Defined.

Lemma X7_cache_expiry_witness :
  fst (SmartCache.get Scenario.sqrtQ
         (SmartCache.set (SmartCache.new 1000 300000 (92 # 100)%Q) "button"
            Scenario.noResults None None 1000)
         "button" None None 400000 400001)
  = None.
Proof.
  pose proof (X7_cache_expiry Scenario.sqrtQ
                (SmartCache.new 1000 300000 (92 # 100)%Q) "button" "button"
                Scenario.noResults None None 1000 400000 400001 eq_refl) as H.
  destruct (SmartCache.get _ _ _ _ _ _ _) as [found after].
  apply H. simpl. lia.
Defined.

Section CacheCapacity.

Variable sqrt : Q -> Q.

Lemma truthy_keys_mapSet (m : list (string * nat)) (key : string) (v : nat) :
  truthy key = true ->
  Forall (fun kv => truthy (fst kv) = true) m ->
  Forall (fun kv => truthy (fst kv) = true) (SmartCache.mapSet m key v).
Proof.
  intros Hkey. induction 1 as [| [k old] rest Hk Hrest IH]; cbn [SmartCache.mapSet].
  - now repeat constructor.
  - destruct (String.eqb k key); constructor; first [exact Hk | assumption].
Qed.

Lemma truthy_keys_mapDelete (m : list (string * nat)) (key : string) :
  Forall (fun kv => truthy (fst kv) = true) m ->
  Forall (fun kv => truthy (fst kv) = true) (SmartCache.mapDelete m key).
Proof.
  intros H. unfold SmartCache.mapDelete. rewrite Forall_forall in *.
  intros kv Hkv. apply filter_In in Hkv. now apply H.
Qed.

Lemma set_cacheBounded (c : SmartCache.t) (query : string)
    (value : RAGSearchResponse.t) (embedding : option (list Q))
    (filters : option string) (now : Z) :
  cacheBounded c ->
  cacheBounded (SmartCache.set c query value embedding filters now).
Proof.
  intros [Hlen Hkeys]. unfold cacheBounded, SmartCache.set.
  set (key := SmartCache.generateKey query filters).
  assert (Hkey : truthy key = true) by apply hex_truthy.
  destruct (SmartCache.maxSize c <=? List.length (SmartCache.cache c))%nat eqn:Hfull.
  - apply Nat.leb_le in Hfull.
    destruct (SmartCache.cache c) as [| [firstEntry a] rest] eqn:Hcache.
    + cbn [SmartCache.cache SmartCache.maxSize SmartCache.mapSet List.length].
      split; [lia | now repeat constructor].
    + assert (Hfirst : truthy firstEntry = true) by now inversion Hkeys.
      rewrite Hfirst.
      cbn [SmartCache.cache SmartCache.maxSize].
      assert (Hdel : (List.length (SmartCache.mapDelete ((firstEntry, a) :: rest)
                                     firstEntry)
                      < List.length ((firstEntry, a) :: rest))%nat).
      { apply mapDelete_present. cbn [SmartCache.mapGet].
        rewrite String.eqb_refl. discriminate. }
      split.
      * pose proof (mapSet_length
                      (SmartCache.mapDelete ((firstEntry, a) :: rest) firstEntry)
                      key (List.length (SmartCache.heap c))). lia.
      * apply truthy_keys_mapSet; [exact Hkey |].
        now apply truthy_keys_mapDelete.
  - apply Nat.leb_gt in Hfull.
    cbn [SmartCache.cache SmartCache.maxSize]. split.
    + pose proof (mapSet_length (SmartCache.cache c) key
                    (List.length (SmartCache.heap c))). lia.
    + now apply truthy_keys_mapSet.
Qed.

(** The exact map after a [get]: unchanged, or the entry of the key moved
    to the end, or the entry of the key removed. *)
Lemma get_cache_cases (c : SmartCache.t) (query : string)
    (embedding : option (list Q)) (filters : option string) (startTime now : Z) :
  let after := snd (SmartCache.get sqrt c query embedding filters startTime now) in
  let key := SmartCache.generateKey query filters in
  SmartCache.maxSize after = SmartCache.maxSize c
  /\ (SmartCache.cache after = SmartCache.cache c
      \/ (exists address,
            SmartCache.mapGet (SmartCache.cache c) key = Some address
            /\ SmartCache.cache after
               = SmartCache.mapSet (SmartCache.mapDelete (SmartCache.cache c) key)
                   key address)
      \/ SmartCache.cache after = SmartCache.mapDelete (SmartCache.cache c) key).
Proof.
  unfold SmartCache.get, SmartCache.getSemantic.
  cbn [SmartCache.withStats SmartCache.cache SmartCache.heap SmartCache.maxAge
       SmartCache.stats SmartCache.semanticCache].
  destruct (SmartCache.mapGet (SmartCache.cache c) (SmartCache.generateKey query filters))
    as [address |] eqn:Hget.
  - destruct (nth_error (SmartCache.heap c) address) as [exactMatch |].
    + destruct (_ <=? _)%Z.
      * cbn. split; [reflexivity |]. right. left. now exists address.
      * repeat break_match; cbn; split; try reflexivity; right; right; reflexivity.
    + repeat break_match; cbn; split; try reflexivity; left; reflexivity.
  - repeat break_match; cbn; split; try reflexivity; left; reflexivity.
Qed.

Lemma get_cacheBounded (c : SmartCache.t) (query : string)
    (embedding : option (list Q)) (filters : option string) (startTime now : Z) :
  cacheBounded c ->
  cacheBounded (snd (SmartCache.get sqrt c query embedding filters startTime now)).
Proof.
  intros [Hlen Hkeys].
  destruct (get_cache_cases c query embedding filters startTime now)
    as [Hmax [Hsame | [[address [Hget Hmoved]] | Hdeleted]]];
    unfold cacheBounded; rewrite Hmax.
  - rewrite Hsame. now split.
  - rewrite Hmoved. split.
    + assert (Hdel := mapDelete_present (SmartCache.cache c)
                        (SmartCache.generateKey query filters)).
      rewrite Hget in Hdel. specialize (Hdel ltac:(discriminate)).
      pose proof (mapSet_length
                    (SmartCache.mapDelete (SmartCache.cache c)
                       (SmartCache.generateKey query filters))
                    (SmartCache.generateKey query filters) address). lia.
    + apply truthy_keys_mapSet; [apply hex_truthy |].
      now apply truthy_keys_mapDelete.
  - rewrite Hdeleted. split.
    + pose proof (mapDelete_length (SmartCache.cache c)
                    (SmartCache.generateKey query filters)). lia.
    + now apply truthy_keys_mapDelete.
Qed.

(** X8: the exact map of the cache never outgrows its capacity: after any
    sequence of [get], [set] and [clear] calls on a new cache it holds at
    most [maxSize] entries, and one entry for a cache of capacity zero. *)
Theorem X8_cache_capacity
    (maxSize : nat) (maxAge : Z) (similarityThreshold : Q)
    (ops : list cacheCall) (now : Z) :
  let c := calls sqrt (SmartCache.new maxSize maxAge similarityThreshold) ops in
  SmartCache.maxSize c = maxSize
  /\ (SmartCache.size (SmartCache.getStats c now) <= Nat.max maxSize 1)%nat.
Proof.
  cbv zeta.
  assert (Hgen : forall c, cacheBounded c ->
            SmartCache.maxSize (calls sqrt c ops) = SmartCache.maxSize c
            /\ cacheBounded (calls sqrt c ops)).
  { induction ops as [| op rest IH]; intros c Hc; [now split |].
    cbn [calls fold_left]. fold (calls sqrt (call sqrt c op) rest).
    assert (Hstep : SmartCache.maxSize (call sqrt c op) = SmartCache.maxSize c
                    /\ cacheBounded (call sqrt c op)).
    { destruct op; cbn [call].
      - split; [apply get_cache_cases | now apply get_cacheBounded].
      - split; [| now apply set_cacheBounded].
        unfold SmartCache.set. repeat break_match; reflexivity.
      - split; [reflexivity |]. split; [cbn; lia | constructor]. }
    destruct Hstep as [Hmax Hb]. destruct (IH _ Hb) as [Hmax' Hb'].
    split; [congruence | exact Hb']. }
  destruct (Hgen (SmartCache.new maxSize maxAge similarityThreshold)) as [Hmax [Hlen _]].
  { split; [cbn; lia | constructor]. }
  cbn [SmartCache.getStats SmartCache.size]. rewrite Hmax in Hlen.
  split; [exact Hmax | exact Hlen].
Qed.

End CacheCapacity.

(** ** Embedder: the cost of retries *)

Lemma totalDelay_scheduleFrom (retryDelay n attempt : nat) :
  (2 * totalDelay (scheduleFrom retryDelay (S n) attempt) + retryDelay * n
   = retryDelay * n * (2 * attempt + n))%nat.
Proof.
  revert attempt. induction n as [| n IH]; intros attempt.
  - cbn. lia.
  - change (scheduleFrom retryDelay (S (S n)) attempt)
      with (OpenAIEmbeddings.Request attempt
            :: OpenAIEmbeddings.Delay (retryDelay * attempt)
            :: scheduleFrom retryDelay (S n) (S attempt)).
    cbn [totalDelay]. specialize (IH (S attempt)). nia.
Qed.

(** X9: when attempt [k] is the last one [createEmbedding] makes (the
    attempts before it fail; it is answered, or it is attempt
    [maxRetries]), the provider receives exactly [k] requests and the call
    waits [retryDelay * (1 + 2 + ... + (k-1))] milliseconds in all: nothing
    for a first attempt that is answered, 3000 ms before the default
    embedder gives up. *)
Theorem X9_retry_cost
    (this : OpenAIEmbeddings.t) (texts : list string) (k : nat) :
  lastAttempt this texts k ->
  let events := snd (OpenAIEmbeddings.createEmbeddingTrace this texts) in
  requests events = k
  /\ (2 * totalDelay events = OpenAIEmbeddings.retryDelay this * k * (k - 1))%nat.
Proof.
  intros [[Hk1 Hk2] [Hfail Hlast]].
  assert (Hevents :
    snd (OpenAIEmbeddings.createEmbeddingTrace this texts)
    = schedule (OpenAIEmbeddings.retryDelay this) k).
  { destruct (OpenAIEmbeddings.client this texts k) as [data | e] eqn:Hk.
    - rewrite (createEmbeddingTrace_responds this texts k data); [reflexivity |].
      repeat split; assumption.
    - destruct Hlast as [-> | [data Hdata]]; [| congruence].
      set (errs := fun a =>
             match OpenAIEmbeddings.client this texts a with
             | OpenAIEmbeddings.Failure e' => e'
             | OpenAIEmbeddings.Response _ => e
             end).
      unfold OpenAIEmbeddings.createEmbeddingTrace, schedule.
      destruct (OpenAIEmbeddings.maxRetries this) as [| n] eqn:Hn; [lia |].
      rewrite (attemptsFrom_fails this texts errs n 1 (S (S n))); try lia.
      + reflexivity.
      + intros a Ha. unfold errs.
        destruct (Nat.eq_dec a (S n)) as [-> | Hne].
        * now rewrite Hk.
        * destruct (Hfail a) as [e' He']; [lia |]. now rewrite He'. }
  cbv zeta. rewrite Hevents. unfold schedule. split.
  - apply requests_scheduleFrom.
  - destruct k as [| n]; [lia |].
    pose proof (totalDelay_scheduleFrom (OpenAIEmbeddings.retryDelay this) n 1).
    cbn [Nat.sub]. rewrite Nat.sub_0_r. nia.
Qed.

Lemma X9_retry_cost_witness :
  requests
    (snd (OpenAIEmbeddings.createEmbeddingTrace
            (OpenAIEmbeddings.new Scenario.quotaClient "text-embedding-3-small")
            ["button"])) = 3
  /\ (2 * totalDelay
            (snd (OpenAIEmbeddings.createEmbeddingTrace
                    (OpenAIEmbeddings.new Scenario.quotaClient "text-embedding-3-small")
                    ["button"]))
      = 1000 * 3 * (3 - 1))%nat.
Proof.
  apply (X9_retry_cost
           (OpenAIEmbeddings.new Scenario.quotaClient "text-embedding-3-small")
           ["button"] 3).
  split; [simpl; lia |]. split; [| left; reflexivity].
  intros a _. eexists. reflexivity.
Defined.

(** ** Embedder: batches *)

Lemma chunksFuel_parts {A : Type} (n : nat) :
  forall (fuel : nat) (l : list A) (batch : list A),
    In batch (chunksFuel fuel (S n) l) ->
    batch <> [] /\ forall x, In x batch -> In x l.
Proof.
  induction fuel as [| fuel IH]; intros l batch Hin.
  - destruct l; contradiction.
  - destruct l as [| x t]; [contradiction |].
    cbn [chunksFuel] in Hin. destruct Hin as [<- | Hin].
    + split; [discriminate |]. intros y Hy. eapply In_firstn, Hy.
    + destruct (IH _ _ Hin) as [Hne Hsub]. split; [exact Hne |].
      intros y Hy. specialize (Hsub y Hy).
      rewrite <- (firstn_skipn (S n) (x :: t)). apply in_or_app. now right.
Qed.

Section Batches.

Variable this : OpenAIEmbeddings.t.

(** The loop over the slices, when the provider answers for each of them:
    the vectors of the answers, slice after slice. *)
Lemma embedBatches_answers (batches : list (list string))
    (answers : list (list OpenAIEmbeddings.item)) :
  Forall (fun batch => batch <> [] /\ Forall nonBlank batch) batches ->
  answersBatches this batches answers ->
  OpenAIEmbeddings.embedBatches this batches
  = Ok (List.concat (map OpenAIEmbeddings.orderedEmbeddings answers))
  /\ List.length (List.concat (map OpenAIEmbeddings.orderedEmbeddings answers))
     = List.length (List.concat batches).
Proof.
  intros Hbatches Hanswers.
  induction Hanswers as [| batch data batches answers [Hwf [k Hresp]] _ IH].
  - now split.
  - inversion Hbatches as [| ? ? [Hne Hnb] Hrest]; subst.
    destruct (IH Hrest) as [Hloop Hlen].
    cbn [OpenAIEmbeddings.embedBatches map List.concat].
    rewrite (embedTexts_responds this batch k data).
    + cbn [bind]. rewrite Hloop. cbn [bind]. split; [reflexivity |].
      rewrite !length_app, Hlen.
      now rewrite (proj1 (orderedEmbeddings_wellFormed data _ Hwf)).
    + now rewrite (filter_nonBlank batch Hnb).
    + now rewrite (filter_nonBlank batch Hnb).
Qed.

(** X10: [embedTextsInBatches], for a positive batch size and texts none
    of which is blank, when the provider answers the request for each slice
    of [batchSize] texts with one item per text: the call returns one
    vector per text, the vectors of the first slice in the order of their
    indices, then those of the second, and so on. With no text at all it
    returns the empty list, whatever the batch size. *)
Theorem X10_embedTextsInBatches
    (texts : list string) (batchSize : nat)
    (answers : list (list OpenAIEmbeddings.item)) :
  (1 <= batchSize)%nat ->
  Forall nonBlank texts ->
  answersBatches this (chunks batchSize texts) answers ->
  OpenAIEmbeddings.embedTextsInBatches this texts batchSize
  = Some (Ok (List.concat (map OpenAIEmbeddings.orderedEmbeddings answers)))
  /\ List.length (List.concat (map OpenAIEmbeddings.orderedEmbeddings answers))
     = List.length texts
  /\ OpenAIEmbeddings.embedTextsInBatches this [] batchSize = Some (Ok []).
Proof.
  intros Hsize Hnb Hanswers.
  destruct batchSize as [| n]; [lia |].
  unfold OpenAIEmbeddings.embedTextsInBatches.
  destruct (embedBatches_answers (chunks (S n) texts) answers) as [Hloop Hlen].
  - rewrite Forall_forall. intros batch Hbatch.
    destruct (chunksFuel_parts n _ _ _ Hbatch) as [Hne Hsub].
    split; [exact Hne |]. rewrite Forall_forall in *. intros x Hx. apply Hnb, Hsub, Hx.
  - exact Hanswers.
  - rewrite Hloop. split; [reflexivity |]. split; [| reflexivity].
    rewrite Hlen. unfold chunks. now rewrite concat_chunksFuel.
Qed.

End Batches.

Lemma X10_embedTextsInBatches_witness :
  OpenAIEmbeddings.embedTextsInBatches Scenario.embedder ["button"; "a table"; "modal"] 2
  = Some (Ok [[6%Q; 1%Q]; [7%Q; 1%Q]; [5%Q; 1%Q]]).
Proof.
  apply (X10_embedTextsInBatches Scenario.embedder ["button"; "a table"; "modal"] 2
           [[OpenAIEmbeddings.mkItem 1 [7%Q; 1%Q]; OpenAIEmbeddings.mkItem 0 [6%Q; 1%Q]];
            [OpenAIEmbeddings.mkItem 0 [5%Q; 1%Q]]]).
  - lia.
  - repeat constructor.
  - assert (Hresp : forall batch data,
              Scenario.embedder.(OpenAIEmbeddings.client) batch 1%nat
              = OpenAIEmbeddings.Response data ->
              exists k, respondsAt Scenario.embedder batch k data).
    { intros batch data H. exists 1%nat.
      split; [simpl; lia |]. split; [intros a Ha; lia | exact H]. }
    apply Forall2_cons; [| apply Forall2_cons; [| apply Forall2_nil]].
    + split; [apply perm_swap | apply Hresp; reflexivity].
    + split; [apply Permutation_refl | apply Hresp; reflexivity].
Defined.

(** ** Sync: what reaches the store *)

Lemma collect_spec (results : list RAGService.BatchResult) :
  forall vectorDocuments successCount errors,
    RAGService.collect results vectorDocuments successCount errors
    = ((vectorDocuments ++ flat_map vectorsOf results)%list,
       (successCount + Z.of_nat (List.length (filter succeeded results)))%Z,
       (errors ++ flat_map errorsOf results)%list).
Proof.
  induction results as [| r rest IH]; intros vd sc er.
  - cbn. now rewrite !app_nil_r, Z.add_0_r.
  - cbn [RAGService.collect flat_map filter].
    destruct (succeeded r) eqn:Hok.
    + assert (Hvs : exists vs,
                RAGService.success r = true /\ RAGService.vectors r = Some vs).
      { unfold succeeded in Hok.
        destruct (RAGService.success r), (RAGService.vectors r) as [vs |];
          try discriminate. now exists vs. }
      destruct Hvs as (vs & Hs & Hv).
      unfold vectorsOf, errorsOf. rewrite Hok, Hs, Hv, IH.
      cbn [List.length app]. rewrite <- app_assoc.
      (apply f_equal2; [apply f_equal2 |]); try reflexivity. lia.
    + assert (Hline :
        RAGService.collect rest vd sc
          match RAGService.error r with
          | Some e => if truthy e then (er ++ [e])%list else er
          | None => er
          end
        = match RAGService.success r, RAGService.vectors r with
          | true, Some vs =>
              RAGService.collect rest (vd ++ vs)%list (sc + 1)%Z er
          | _, _ =>
              match RAGService.error r with
              | Some e =>
                  if truthy e then RAGService.collect rest vd sc (er ++ [e])%list
                  else RAGService.collect rest vd sc er
              | None => RAGService.collect rest vd sc er
              end
          end).
      { unfold succeeded in Hok.
        destruct (RAGService.success r), (RAGService.vectors r) as [vs |];
          try discriminate;
          destruct (RAGService.error r) as [e |]; try destruct (truthy e);
          reflexivity. }
      rewrite <- Hline, IH.
      assert (Hvs : vectorsOf r = []).
      { unfold succeeded in Hok. unfold vectorsOf.
        destruct (RAGService.success r), (RAGService.vectors r); try discriminate;
          reflexivity. }
      rewrite Hvs. unfold errorsOf. rewrite Hok. cbn [app].
      (apply f_equal2; [apply f_equal2 |]); try reflexivity.
      destruct (RAGService.error r) as [e |]; [destruct (truthy e) |];
        cbn [app]; rewrite <- ?app_assoc; reflexivity.
Qed.

Lemma processBatch_spec (this : RAGService.t) (progress : RAGService.Progress)
    (batch : list ParsedComponent.t) :
  let results := map (RAGService.processComponent this) batch in
  RAGService.processBatch this progress batch
  = RAGService.mkProgress
      (FileVectorStore.addDocuments (RAGService.store progress)
         (batchVectors this batch))
      (RAGService.successCount progress
       + Z.of_nat (List.length (filter succeeded results)))%Z
      (RAGService.errors progress ++ flat_map errorsOf results)%list.
Proof.
  cbv zeta. unfold RAGService.processBatch, batchVectors.
  rewrite collect_spec. cbn [app].
  destruct (flat_map vectorsOf (map (RAGService.processComponent this) batch));
    reflexivity.
Qed.

(** The loop over the batches: the store takes the vectors batch by batch,
    the counter and the error lines are those of the components in order. *)
Lemma sync_progress (this : RAGService.t) (batches : list (list ParsedComponent.t)) :
  forall progress,
    let results := map (RAGService.processComponent this) (List.concat batches) in
    fold_left (RAGService.processBatch this) batches progress
    = RAGService.mkProgress
        (fold_left
           (fun store batch =>
              FileVectorStore.addDocuments store (batchVectors this batch))
           batches (RAGService.store progress))
        (RAGService.successCount progress
         + Z.of_nat (List.length (filter succeeded results)))%Z
        (RAGService.errors progress ++ flat_map errorsOf results)%list.
Proof.
  induction batches as [| batch rest IH]; intros progress; cbv zeta.
  - cbn. rewrite app_nil_r, Z.add_0_r. now destruct progress.
  - cbn [fold_left List.concat]. rewrite IH, processBatch_spec.
    cbn [RAGService.store RAGService.successCount RAGService.errors].
    rewrite map_app, filter_app, flat_map_app, length_app, Nat2Z.inj_add.
    rewrite <- app_assoc, Z.add_assoc. reflexivity.
Qed.

Lemma storedIds_addDocuments (store : FileVectorStore.t)
    (docs : list VectorDocument.t) (i : string) :
  In i (storedIds store) ->
  In i (storedIds (FileVectorStore.addDocuments store docs)).
Proof.
  unfold storedIds. rewrite addDocuments_documents, map_app.
  intros Hin. apply in_or_app. now left.
Qed.

Section SyncStore.

Variable this : RAGService.t.

Let addBatch (store : FileVectorStore.t) (batch : list ParsedComponent.t) :=
  FileVectorStore.addDocuments store (batchVectors this batch).

Lemma batches_stored (batches : list (list ParsedComponent.t)) :
  forall store,
    let after := fold_left addBatch batches store in
    (forall i, In i (storedIds store) -> In i (storedIds after))
    /\ (forall batch doc,
          In batch batches -> In doc (batchVectors this batch) ->
          In (VectorDocument.id doc) (storedIds after)).
Proof.
  induction batches as [| batch rest IH]; intros store; cbv zeta.
  - split; [trivial | intros ? ? []].
  - cbn [fold_left]. destruct (IH (addBatch store batch)) as [Hkeep Hnew].
    split.
    + intros i Hi. apply Hkeep, storedIds_addDocuments, Hi.
    + intros b doc [<- | Hb] Hdoc.
      * apply Hkeep. unfold addBatch. now apply addDocuments_stores_ids.
      * now apply (Hnew b).
Qed.

Lemma batches_absorbed (batches : list (list ParsedComponent.t)) :
  forall store,
    (forall batch doc,
       In batch batches -> In doc (batchVectors this batch) ->
       In (VectorDocument.id doc) (storedIds store)) ->
    fold_left addBatch batches store = store.
Proof.
  induction batches as [| batch rest IH]; intros store Hall.
  - reflexivity.
  - cbn [fold_left]. unfold addBatch at 2.
    rewrite addDocuments_absorbs.
    + apply IH. intros b doc Hb. apply Hall. now right.
    + intros doc. apply Hall. now left.
Qed.

(** The documents the loop adds come after the stored ones and from the
    batches. *)
Lemma batches_added (batches : list (list ParsedComponent.t)) :
  forall store,
    exists added,
      FileVectorStore.documents (fold_left addBatch batches store)
      = (FileVectorStore.documents store ++ added)%list
      /\ forall doc, In doc added ->
           exists batch, In batch batches /\ In doc (batchVectors this batch).
Proof.
  induction batches as [| batch rest IH]; intros store.
  - exists []. split; [now rewrite app_nil_r | intros ? []].
  - cbn [fold_left]. destruct (IH (addBatch store batch)) as (added & Hdocs & Hfrom).
    unfold addBatch in Hdocs |- *. cbv beta in Hdocs.
    rewrite addDocuments_documents in Hdocs.
    rewrite <- app_assoc in Hdocs. eexists. split; [exact Hdocs |].
    intros doc Hin. apply in_app_or in Hin. destruct Hin as [Hin | Hin].
    + apply filter_In in Hin. exists batch. split; [now left | apply Hin].
    + destruct (Hfrom doc Hin) as (b & Hb & Hdoc). exists b. split; [now right | exact Hdoc].
Qed.

(** A vector document of a batch is one of the documents built for a
    component of the batch that was parsed with success. *)
Lemma batchVectors_from (batch : list ParsedComponent.t) (doc : VectorDocument.t) :
  In doc (batchVectors this batch) ->
  exists comp docs,
    In comp batch
    /\ ParsedComponent.status comp = ParsedComponent.Success
    /\ RAGService.createComponentVectors (RAGService.embeddings this)
         (ParsedComponent.info comp) = Ok docs
    /\ In doc docs.
Proof.
  unfold batchVectors. rewrite in_flat_map.
  intros (r & Hr & Hdoc). apply in_map_iff in Hr. destruct Hr as (comp & <- & Hcomp).
  exists comp. unfold vectorsOf, RAGService.processComponent in Hdoc.
  destruct (ParsedComponent.status comp) eqn:Hstatus;
    try (cbn in Hdoc; contradiction).
  destruct (RAGService.createComponentVectors (RAGService.embeddings this)
              (ParsedComponent.info comp)) as [docs | e] eqn:Hvectors;
    cbn in Hdoc; [| contradiction].
  exists docs. repeat split; assumption.
Qed.

End SyncStore.

(** What a sync does once the parser has listed the components: the
    response counts the results of the components in the order of the
    listing, the store takes the vectors batch by batch, and the cache is
    emptied. *)
Lemma syncComponents_parsed
    (this : RAGService.t) (fs : FS.t) (now : string) (duration : Z)
    (request : ComponentSyncRequest.t) (parsedComponents : list ParsedComponent.t) :
  ComponentParser.parseAllComponents (RAGService.parser this) fs now
  = Ok parsedComponents ->
  let results :=
    map (RAGService.processComponent this)
      (componentsToSync request parsedComponents) in
  let successCount := Z.of_nat (List.length (filter succeeded results)) in
  let processedCount := Z.of_nat (List.length parsedComponents) in
  RAGService.syncComponents this fs now duration request
  = (ComponentSyncResponse.mk
       match flat_map errorsOf results with
       | [] => ComponentSyncResponse.Success
       | _ =>
           if (0 <? successCount)%Z then ComponentSyncResponse.Partial
           else ComponentSyncResponse.Failed
       end
       processedCount successCount (processedCount - successCount)%Z
       (flat_map errorsOf results) duration,
     RAGService.mk
       (RAGService.embeddings this)
       (fold_left
          (fun store batch =>
             FileVectorStore.addDocuments store (batchVectors this batch))
          (chunks RAGService.BATCH_SIZE (componentsToSync request parsedComponents))
          match ComponentSyncRequest.forceReindex request with
          | Some true => FileVectorStore.clear (RAGService.vectorStore this)
          | _ => RAGService.vectorStore this
          end)
       (RAGService.parser this) (RAGService.config this)
       (SmartCache.clear (RAGService.cache this))).
Proof.
  intros Hparse. cbv zeta. unfold RAGService.syncComponents.
  rewrite Hparse. fold (componentsToSync request parsedComponents).
  rewrite sync_progress.
  cbn [RAGService.store RAGService.successCount RAGService.errors app].
  unfold chunks at 1 2 3 4 5 6, RAGService.BATCH_SIZE.
  rewrite concat_chunksFuel by apply Nat.le_refl.
  rewrite Z.add_0_l. reflexivity.
Qed.

(** X11: what a sync leaves in the store and in the cache, once the parser
    has listed the components. The stored documents stay in front, in
    their order ([forceReindex] drops them first); every document added
    behind them belongs to a component of the requested packages that was
    parsed with success: its content is one of the facets of the component
    and its metadata carry the name, the package, the tags and the version
    of the component. No cached response survives the sync. *)
Theorem X11_sync_store
    (this : RAGService.t) (fs : FS.t) (now : string) (duration : Z)
    (request : ComponentSyncRequest.t) (parsedComponents : list ParsedComponent.t) :
  ComponentParser.parseAllComponents (RAGService.parser this) fs now
  = Ok parsedComponents ->
  let after := snd (RAGService.syncComponents this fs now duration request) in
  let kept :=
    match ComponentSyncRequest.forceReindex request with
    | Some true => []
    | _ => FileVectorStore.documents (RAGService.vectorStore this)
    end in
  (exists added,
      FileVectorStore.documents (RAGService.vectorStore after) = (kept ++ added)%list
      /\ forall doc, In doc added ->
           exists comp type,
             In comp (componentsToSync request parsedComponents)
             /\ ParsedComponent.status comp = ParsedComponent.Success
             /\ In (type, VectorDocument.content doc)
                  (RAGService.collectFacets (ParsedComponent.info comp))
             /\ VectorDocument.meta doc
                = VectorDocument.mkMetadata
                    (ComponentDoc.componentName (ParsedComponent.info comp))
                    (ComponentDoc.packageName (ParsedComponent.info comp))
                    type
                    (ComponentDoc.tags (ParsedComponent.info comp))
                    (ComponentDoc.version (ParsedComponent.info comp)))
  /\ SmartCache.cache (RAGService.cache after) = []
  /\ SmartCache.semanticCache (RAGService.cache after) = [].
Proof.
  intros Hparse. cbv zeta.
  rewrite (syncComponents_parsed this fs now duration request parsedComponents Hparse).
  cbn [snd RAGService.vectorStore RAGService.cache SmartCache.clear
       SmartCache.cache SmartCache.semanticCache].
  split; [| split; reflexivity].
  match goal with
  | |- context [fold_left _ ?batches ?store0] =>
      destruct (batches_added this batches store0) as (added & Hdocs & Hfrom)
  end.
  exists added. split.
  - rewrite Hdocs. f_equal.
    destruct (ComponentSyncRequest.forceReindex request) as [[|] |]; reflexivity.
  - intros doc Hdoc.
    destruct (Hfrom doc Hdoc) as (batch & Hbatch & Hin).
    destruct (batchVectors_from this batch doc Hin)
      as (comp & docs & Hcomp & Hstatus & Hvectors & Hmember).
    destruct (In_nth_error _ _ Hmember) as [i Hi].
    destruct (createComponentVectors_nth _ _ _ Hvectors i doc Hi)
      as (type & content & embedding & Hfacet & ->).
    exists comp, type. repeat split.
    + unfold chunks, RAGService.BATCH_SIZE in Hbatch.
      exact (proj2 (chunksFuel_parts 9 _ _ _ Hbatch) comp Hcomp).
    + exact Hstatus.
    + cbn [VectorDocument.content]. eapply nth_error_In, Hfacet.
Qed.

(** ** Sync: a second run *)

Lemma parseComponent_stamped (parser : ComponentParser.t) (fs : FS.t)
    (now now' componentName : string) :
  ComponentParser.parseComponent parser fs now' componentName
  = match ComponentParser.parseComponent parser fs now componentName with
    | Ok parsed => Ok (stamped now' parsed)
    | Err error => Err error
    end.
Proof.
  unfold ComponentParser.parseComponent, ComponentParser.extractComponentDoc.
  destruct (FS.access _) as [u | e]; [| reflexivity].
  cbn [bind].
  destruct (ComponentParser.extractTags _) as [tags | e]; reflexivity.
Qed.

Lemma parseAllComponents_stamped (parser : ComponentParser.t) (fs : FS.t)
    (now now' : string) :
  ComponentParser.parseAllComponents parser fs now'
  = match ComponentParser.parseAllComponents parser fs now with
    | Ok parsedComponents => Ok (map (stamped now') parsedComponents)
    | Err error => Err error
    end.
Proof.
  unfold ComponentParser.parseAllComponents.
  destruct (FS.readdir fs) as [entries | e]; [| reflexivity].
  cbn [bind catch]. f_equal. symmetry.
  etransitivity; [apply map_map |]. apply map_ext. intros name. cbv beta.
  rewrite (parseComponent_stamped parser fs now now' name).
  destruct (ComponentParser.parseComponent parser fs now name); reflexivity.
Qed.

Lemma processComponent_stamped (this : RAGService.t) (now : string)
    (parsed : ParsedComponent.t) :
  RAGService.processComponent this (stamped now parsed)
  = RAGService.processComponent this parsed.
Proof. reflexivity. Qed.

Lemma componentsToSync_stamped (request : ComponentSyncRequest.t) (now : string)
    (parsedComponents : list ParsedComponent.t) :
  componentsToSync request (map (stamped now) parsedComponents)
  = map (stamped now) (componentsToSync request parsedComponents).
Proof.
  unfold componentsToSync.
  destruct (ComponentSyncRequest.packages request) as [packages |]; [| reflexivity].
  induction parsedComponents as [| comp rest IH]; [reflexivity |].
  cbn [map filter]. rewrite IH.
  change (ComponentDoc.packageName (ParsedComponent.info (stamped now comp)))
    with (ComponentDoc.packageName (ParsedComponent.info comp)).
  now destruct (FileVectorStore.hasId packages _).
Qed.

Lemma chunksFuel_stamped (now : string) (n : nat) :
  forall (fuel : nat) (parsedComponents : list ParsedComponent.t),
    chunksFuel fuel n (map (stamped now) parsedComponents)
    = map (map (stamped now)) (chunksFuel fuel n parsedComponents).
Proof.
  induction fuel as [| fuel IH]; intros l; [reflexivity |].
  destruct l as [| comp rest]; [reflexivity |].
  change (map (stamped now) (comp :: rest))
    with (stamped now comp :: map (stamped now) rest) at 1.
  cbn [chunksFuel]. 
  change (stamped now comp :: map (stamped now) rest)
    with (map (stamped now) (comp :: rest)).
  rewrite firstn_map, skipn_map, IH. reflexivity.
Qed.

Lemma batchVectors_stamped (this : RAGService.t) (now : string)
    (batch : list ParsedComponent.t) :
  batchVectors this (map (stamped now) batch) = batchVectors this batch.
Proof. unfold batchVectors. now rewrite map_map. Qed.

Lemma batches_stamped (this : RAGService.t) (now : string)
    (batches : list (list ParsedComponent.t)) :
  forall store,
    fold_left
      (fun store batch =>
         FileVectorStore.addDocuments store (batchVectors this batch))
      (map (map (stamped now)) batches) store
    = fold_left
        (fun store batch =>
           FileVectorStore.addDocuments store (batchVectors this batch))
        batches store.
Proof.
  induction batches as [| batch rest IH]; intros store; [reflexivity |].
  cbn [map fold_left]. now rewrite batchVectors_stamped, IH.
Qed.

(** X12: a sync is idempotent on the store. Running the same request a
    second time over the same source tree, at any later time, with the
    same provider, leaves the vector store as the first run left it, with
    or without [forceReindex], and reports the same status, the same
    counters and the same error lines. *)
Theorem X12_sync_again
    (this : RAGService.t) (fs : FS.t) (now now' : string) (duration duration' : Z)
    (request : ComponentSyncRequest.t) :
  let first := RAGService.syncComponents this fs now duration request in
  let second := RAGService.syncComponents (snd first) fs now' duration' request in
  RAGService.vectorStore (snd second) = RAGService.vectorStore (snd first)
  /\ outcome (fst second) = outcome (fst first).
Proof.
  cbv zeta.
  destruct (ComponentParser.parseAllComponents (RAGService.parser this) fs now)
    as [parsedComponents | error] eqn:Hparse.
  - rewrite (syncComponents_parsed this fs now duration request parsedComponents Hparse).
    cbn [snd fst].
    match goal with
    | |- context [RAGService.syncComponents ?s1 _ _ _ _] => set (after := s1)
    end.
    assert (Hparse' :
      ComponentParser.parseAllComponents (RAGService.parser after) fs now'
      = Ok (map (stamped now') parsedComponents)).
    { change (RAGService.parser after) with (RAGService.parser this).
      now rewrite (parseAllComponents_stamped _ fs now now'), Hparse. }
    rewrite (syncComponents_parsed after fs now' duration' request _ Hparse').
    cbn [snd fst RAGService.vectorStore].
    rewrite componentsToSync_stamped, map_map, length_map.
    change (fun x => RAGService.processComponent after (stamped now' x))
      with (RAGService.processComponent this).
    split; [| reflexivity].
    unfold chunks. rewrite length_map, chunksFuel_stamped.
    change (batchVectors after) with (batchVectors this).
    rewrite batches_stamped.
    destruct (ComponentSyncRequest.forceReindex request) as [[|] |];
      try reflexivity;
      (apply batches_absorbed; intros batch doc Hbatch Hdoc;
       subst after; cbn [RAGService.vectorStore];
       exact (proj2 (batches_stored this _ _) batch doc Hbatch Hdoc)).
  - assert (Hfirst :
      RAGService.syncComponents this fs now duration request
      = (ComponentSyncResponse.mk ComponentSyncResponse.Failed 0 0 0
           ["Sync error: " ++ errorToString error] duration, this)).
    { unfold RAGService.syncComponents. now rewrite Hparse. }
    rewrite Hfirst. cbn [snd fst].
    unfold RAGService.syncComponents.
    rewrite (parseAllComponents_stamped _ fs now now'), Hparse. split; reflexivity.
Qed.

Lemma X11_sync_store_witness :
  SmartCache.cache
    (RAGService.cache
       (snd (RAGService.syncComponents (Scenario.service Scenario.threeDocs)
               Scenario.buttonTree "2026-01-01T00:00:00.000Z" 5
               (ComponentSyncRequest.mk "./root" None None))))
  = [].
Proof.
  assert (Hparse :
    ComponentParser.parseAllComponents
      (RAGService.parser (Scenario.service Scenario.threeDocs))
      Scenario.buttonTree "2026-01-01T00:00:00.000Z"
    = Ok [ParsedComponent.mk Scenario.buttonDoc "./root/components/button"
            ParsedComponent.Success None])
    by (vm_compute; reflexivity).
  exact (proj1 (proj2
           (X11_sync_store (Scenario.service Scenario.threeDocs) Scenario.buttonTree
              "2026-01-01T00:00:00.000Z" 5
              (ComponentSyncRequest.mk "./root" None None) _ Hparse))).
Defined.

(** ** Sync: the response *)

Lemma results_of_components (this : RAGService.t) (components : list ParsedComponent.t) :
  let results := map (RAGService.processComponent this) components in
  filter succeeded results
  = map (RAGService.processComponent this) (filter (synced this) components)
  /\ flat_map errorsOf results
     = map (errorLine this) (filter (fun comp => negb (synced this comp)) components).
Proof.
  cbv zeta. induction components as [| comp rest [IHs IHe]]; [now split |].
  cbn [map filter flat_map]. rewrite IHs, IHe.
  destruct (processComponent_cases this comp) as [[Hs [vs Hv]] | [Hs [e [He Ht]]]].
  - assert (Hok : succeeded (RAGService.processComponent this comp) = true)
      by (unfold succeeded; now rewrite Hs, Hv).
    assert (Hsynced : synced this comp = true) by exact Hs.
    unfold errorsOf. rewrite Hok, Hsynced. split; reflexivity.
  - assert (Hok : succeeded (RAGService.processComponent this comp) = false)
      by (unfold succeeded; now rewrite Hs).
    assert (Hsynced : synced this comp = false) by exact Hs.
    assert (Hline : errorLine this comp = e)
      by (unfold errorLine; now rewrite He).
    unfold errorsOf. rewrite Hok, Hsynced, He, Ht. cbn [negb map app].
    rewrite Hline. split; reflexivity.
Qed.

(** X13: the batches do not show in the response of a sync. Once the
    parser has listed the components, [successCount] is the number of
    components of the requested packages whose vectors were built, and
    [errors] holds one line for each of the others, in the order of the
    listing; the counter is between zero and [processedCount]; the status
    is [success] exactly when no component failed (also when there was
    none to sync), [partial] when some failed and some did not, [failed]
    when some failed and none succeeded. *)
Theorem X13_sync_response
    (this : RAGService.t) (fs : FS.t) (now : string) (duration : Z)
    (request : ComponentSyncRequest.t) (parsedComponents : list ParsedComponent.t) :
  ComponentParser.parseAllComponents (RAGService.parser this) fs now
  = Ok parsedComponents ->
  let response := fst (RAGService.syncComponents this fs now duration request) in
  let components := componentsToSync request parsedComponents in
  let done := filter (synced this) components in
  let failed := filter (fun comp => negb (synced this comp)) components in
  ComponentSyncResponse.successCount response = Z.of_nat (List.length done)
  /\ ComponentSyncResponse.errors response = map (errorLine this) failed
  /\ (0 <= ComponentSyncResponse.successCount response
      <= ComponentSyncResponse.processedCount response)%Z
  /\ ComponentSyncResponse.status response
     = match failed, done with
       | [], _ => ComponentSyncResponse.Success
       | _ :: _, _ :: _ => ComponentSyncResponse.Partial
       | _ :: _, [] => ComponentSyncResponse.Failed
       end.
Proof.
  intros Hparse. cbv zeta.
  rewrite (syncComponents_parsed this fs now duration request parsedComponents Hparse).
  cbn [fst ComponentSyncResponse.successCount ComponentSyncResponse.errors
       ComponentSyncResponse.processedCount ComponentSyncResponse.status].
  destruct (results_of_components this (componentsToSync request parsedComponents))
    as [Hdone Hfailed].
  rewrite Hdone, Hfailed, !length_map.
  split; [reflexivity |]. split; [reflexivity |]. split.
  - split; [lia |]. apply inj_le.
    etransitivity; [apply filter_length_le |].
    unfold componentsToSync.
    destruct (ComponentSyncRequest.packages request);
      [apply filter_length_le | apply Nat.le_refl].
  - destruct (filter (fun comp => negb (synced this comp)) _) as [| f fs'];
      [reflexivity |].
    cbn [map]. destruct (filter (synced this) _); reflexivity.
Qed.

Lemma X13_sync_response_witness :
  ComponentSyncResponse.successCount
    (fst (RAGService.syncComponents (Scenario.service Scenario.threeDocs)
            Scenario.buttonTree "2026-01-01T00:00:00.000Z" 5
            (ComponentSyncRequest.mk "./root" None None)))
  = 1%Z.
Proof.
  assert (Hparse :
    ComponentParser.parseAllComponents
      (RAGService.parser (Scenario.service Scenario.threeDocs))
      Scenario.buttonTree "2026-01-01T00:00:00.000Z"
    = Ok [ParsedComponent.mk Scenario.buttonDoc "./root/components/button"
            ParsedComponent.Success None])
    by (vm_compute; reflexivity).
  exact (proj1
           (X13_sync_response (Scenario.service Scenario.threeDocs) Scenario.buttonTree
              "2026-01-01T00:00:00.000Z" 5
              (ComponentSyncRequest.mk "./root" None None) _ Hparse)).
Defined.

(** ** Search: the response *)

Lemma docMapGet_stored (docs : list VectorDocument.t) (i : string)
    (doc : VectorDocument.t) :
  FileVectorStore.docMapGet docs i = Some doc -> In doc docs.
Proof.
  induction docs as [| d rest IH]; cbn [FileVectorStore.docMapGet]; [discriminate |].
  destruct (FileVectorStore.docMapGet rest i) as [later |].
  - intros H. right. now apply IH.
  - destruct (String.eqb _ _); [| discriminate].
    intros H. injection H as <-. now left.
Qed.

Lemma similaritySearch_stored (sqrt : Q -> Q) (store : FileVectorStore.t)
    (queryEmbedding : list Q) (topK : nat) (threshold : Q)
    (docs : list VectorDocument.t) :
  FileVectorStore.similaritySearch sqrt store queryEmbedding topK threshold = Ok docs ->
  forall doc, In doc docs -> In doc (FileVectorStore.documents store).
Proof.
  unfold FileVectorStore.similaritySearch. intros H.
  apply catch_Ok in H; [| discriminate].
  destruct (FileVectorStore.index store) as [| item idx].
  - injection H as <-. intros doc [].
  - destruct (sequence _) as [similarities | e]; cbn [bind] in H; [| discriminate H].
    injection H as <-. intros doc Hdoc.
    unfold FileVectorStore.fullDocuments in Hdoc.
    apply in_flat_map in Hdoc. destruct Hdoc as (hit & _ & Hdoc).
    destruct (FileVectorStore.docMapGet _ _) as [found |] eqn:Hget; [| contradiction].
    destruct Hdoc as [<- | []]. eapply docMapGet_stored, Hget.
Qed.

Lemma vectorSearch_stored (sqrt : Q -> Q) (this : RAGService.t)
    (queryEmbedding : option (list Q)) (request : RAGSearchRequest.t)
    (vectorResults : list VectorDocument.t) :
  RAGService.vectorSearch sqrt this queryEmbedding request = Ok vectorResults ->
  forall doc, In doc vectorResults ->
    In doc (FileVectorStore.documents (RAGService.vectorStore this)).
Proof.
  unfold RAGService.vectorSearch. intros H.
  destruct queryEmbedding as [qv |].
  - destruct (RAGSearchRequest.requestFilters request) as [f |].
    + unfold FileVectorStore.searchWithFilters in H.
      apply catch_Ok in H; [| discriminate].
      destruct (FileVectorStore.similaritySearch sqrt _ qv 1000 _)
        as [allResults | e] eqn:Hall; cbn [bind] in H; [| discriminate H].
      injection H as <-. intros doc Hdoc.
      unfold slice in Hdoc. apply In_firstn in Hdoc. cbn [skipn] in Hdoc.
      apply filter_In in Hdoc.
      eapply similaritySearch_stored; [exact Hall | apply Hdoc].
    + eapply similaritySearch_stored, H.
  - destruct (FileVectorStore.index _).
    + injection H as <-. intros doc [].
    + destruct (RAGSearchRequest.requestFilters request); discriminate H.
Qed.

Lemma calculateRelevanceScore_unit (doc : VectorDocument.t) (query : string) :
  unitScore (RAGService.calculateRelevanceScore doc query).
Proof.
  unfold RAGService.calculateRelevanceScore, unitScore.
  destruct (VectorDocument.type (VectorDocument.meta doc));
    destruct (includes _ _); vm_compute;
    (split; [reflexivity | intros H; discriminate H]).
Qed.

Lemma Math_max_chooses (a b : Q) : Math_max a b = a \/ Math_max a b = b.
Proof. unfold Math_max. destruct (Qle_bool a b); auto. Qed.

Lemma max_of_scores (rest : list Q) :
  forall first, In (fold_left Math_max rest first) (first :: rest).
Proof.
  induction rest as [| x rest IH]; intros first; cbn [fold_left]; [now left |].
  destruct (IH (Math_max first x)) as [H | H].
  - destruct (Math_max_chooses first x) as [E | E]; rewrite E in H |- *.
    + left. exact H.
    + right. left. exact H.
  - right. right. exact H.
Qed.

Lemma natQ_S (n : nat) :
  (inject_Z (Z.of_nat (S n)) == inject_Z (Z.of_nat n) + 1)%Q.
Proof. rewrite Nat2Z.inj_succ. unfold Z.succ. now rewrite inject_Z_plus. Qed.

Lemma sum_of_scores (scores : list Q) :
  Forall unitScore scores ->
  forall acc,
    (acc <= fold_left Qplus scores acc)%Q
    /\ (fold_left Qplus scores acc
        <= acc + inject_Z (Z.of_nat (List.length scores)))%Q
    /\ (scores <> [] -> (acc < fold_left Qplus scores acc)%Q).
Proof.
  induction 1 as [| score rest [Hpos Hle] _ IH]; intros acc.
  - cbn [fold_left List.length]. change (inject_Z (Z.of_nat 0)) with 0%Q.
    split; [lra |]. split; [lra |]. intros H. exfalso. now apply H.
  - cbn [fold_left]. destruct (IH (acc + score)%Q) as (Hlow & Hhigh & _).
    pose proof (natQ_S (List.length rest)) as HS.
    cbn [List.length]. split; [lra |]. split; [lra |]. intros _. lra.
Qed.

Lemma mean_of_scores (scores : list Q) :
  scores <> [] -> Forall unitScore scores ->
  unitScore (fold_left Qplus scores 0 / inject_Z (Z.of_nat (List.length scores)))%Q.
Proof.
  intros Hne Hall.
  destruct (sum_of_scores scores Hall 0%Q) as (_ & Hhigh & Hpos).
  specialize (Hpos Hne).
  assert (Hn : (0 < inject_Z (Z.of_nat (List.length scores)))%Q).
  { destruct scores as [| s rest]; [exfalso; now apply Hne |].
    cbn [List.length]. pose proof (natQ_S (List.length rest)) as HS.
    assert (Hrest : (inject_Z 0 <= inject_Z (Z.of_nat (List.length rest)))%Q)
      by (rewrite <- Zle_Qle; lia).
    change (inject_Z 0) with 0%Q in Hrest. lra. }
  split.
  - apply Qlt_shift_div_l; [exact Hn | lra].
  - apply Qle_shift_div_r; [exact Hn | lra].
Qed.

Lemma max_unit (first : Q) (rest : list Q) :
  Forall unitScore (first :: rest) -> unitScore (fold_left Math_max rest first).
Proof.
  intros Hall. rewrite Forall_forall in Hall. apply Hall, max_of_scores.
Qed.

Lemma groupTotal_unit (scores : list Q) :
  scores <> [] -> Forall unitScore scores ->
  unitScore (RAGService.groupTotal scores).
Proof.
  intros Hne Hall. pose proof (mean_of_scores scores Hne Hall) as [Hm1 Hm2].
  destruct scores as [| first rest]; [exfalso; now apply Hne |].
  pose proof (max_unit first rest Hall) as [Hx1 Hx2].
  unfold RAGService.groupTotal, unitScore. split; lra.
Qed.

Lemma calculateConfidence_unit (scores : list Q) :
  Forall unitScore scores ->
  (0 <= RAGService.calculateConfidence scores <= 1)%Q.
Proof.
  intros Hall. destruct scores as [| first rest]; [cbn; lra |].
  pose proof (mean_of_scores (first :: rest) ltac:(discriminate) Hall) as [Hm1 Hm2].
  pose proof (max_unit first rest Hall) as [Hx1 Hx2].
  unfold RAGService.calculateConfidence. split; lra.
Qed.

Lemma byTotal_total (a b : RAGService.Group) :
  Qle_bool (RAGService.totalScore b - RAGService.totalScore a) 0 = false ->
  Qle_bool (RAGService.totalScore a - RAGService.totalScore b) 0 = true.
Proof.
  intros H. apply Qle_bool_iff.
  destruct (Qlt_le_dec 0 (RAGService.totalScore a - RAGService.totalScore b))
    as [Hlt | Hle]; [| exact Hle].
  assert (Hba : (RAGService.totalScore b - RAGService.totalScore a <= 0)%Q) by lra.
  apply Qle_bool_iff in Hba. rewrite Hba in H. discriminate H.
Qed.

Lemma byTotal_trans (a b c : RAGService.Group) :
  Qle_bool (RAGService.totalScore b - RAGService.totalScore a) 0 = true ->
  Qle_bool (RAGService.totalScore c - RAGService.totalScore b) 0 = true ->
  Qle_bool (RAGService.totalScore c - RAGService.totalScore a) 0 = true.
Proof. rewrite !Qle_bool_iff. lra. Qed.

Lemma keys_firstn (n : nat) (keys : list string) :
  NoDup keys -> NoDup (firstn n keys).
Proof.
  revert keys. induction n as [| n IH]; intros keys Hnd; [constructor |].
  destruct keys as [| k rest]; [constructor |].
  inversion Hnd as [| ? ? Hk Hrest]; subst. cbn [firstn]. constructor.
  - intros Hin. apply Hk. eapply In_firstn, Hin.
  - apply IH, Hrest.
Qed.

Section SearchAnswer.

Variables (all : list VectorDocument.t) (query now : string).

(** A group of [componentMap] as the loop over the hits keeps it. *)
Let groupOk (kg : string * RAGService.Group) : Prop :=
  RAGService.scores (snd kg) <> []
  /\ Forall unitScore (RAGService.scores (snd kg))
  /\ fst kg = componentKey (RAGService.component (snd kg))
  /\ exists doc,
       In doc all
       /\ RAGService.component (snd kg)
          = RAGService.reconstructComponentDoc (VectorDocument.meta doc) now.

Lemma addScore_keys (componentMap : list (string * RAGService.Group))
    (componentKey : string) (fresh : RAGService.Group) (score : Q) (k : string) :
  In k (map fst (RAGService.addScore componentMap componentKey fresh score)) ->
  In k (map fst componentMap) \/ k = componentKey.
Proof.
  induction componentMap as [| [k' g] rest IH]; cbn [RAGService.addScore map fst].
  - intros [<- | []]. now right.
  - destruct (String.eqb k' componentKey); cbn [map fst].
    + intros H. left. exact H.
    + intros [<- | H]; [left; now left |].
      destruct (IH H) as [Hin | ->]; [left; now right | now right].
Qed.

Lemma addScore_ok (componentMap : list (string * RAGService.Group))
    (key : string) (fresh : RAGService.Group) (score : Q) :
  NoDup (map fst componentMap) -> Forall groupOk componentMap ->
  unitScore score -> groupOk (key, fresh) ->
  NoDup (map fst (RAGService.addScore componentMap key fresh score))
  /\ Forall groupOk (RAGService.addScore componentMap key fresh score).
Proof.
  intros Hnd Hall Hscore Hfresh.
  induction componentMap as [| [k g] rest IH]; cbn [RAGService.addScore].
  - split; [cbn; constructor; [intros [] | constructor] | now constructor].
  - inversion Hnd as [| ? ? Hk Hrest]; subst.
    inversion Hall as [| ? ? Hg Hgs]; subst.
    destruct (String.eqb_spec k key) as [-> | Hne].
    + split; [exact Hnd |]. constructor; [| exact Hgs].
      destruct Hg as (Hne & Hunit & Hkey & Hdoc).
      unfold groupOk. cbn [fst snd RAGService.scores RAGService.component] in *.
      repeat split.
      * intros E. apply app_eq_nil in E. destruct E as [_ E]. discriminate E.
      * apply Forall_app. split; [exact Hunit | now constructor].
      * exact Hkey.
      * exact Hdoc.
    + destruct (IH Hrest Hgs) as [IHnd IHall]. split.
      * cbn [map fst]. constructor; [| exact IHnd].
        intros Hin. apply addScore_keys in Hin. destruct Hin as [Hin | E].
        -- now apply Hk.
        -- now apply Hne.
      * now constructor.
Qed.

Lemma groupHits_ok (vectorResults : list VectorDocument.t) :
  (forall doc, In doc vectorResults -> In doc all) ->
  NoDup (map fst (RAGService.groupHits vectorResults query now))
  /\ Forall groupOk (RAGService.groupHits vectorResults query now).
Proof.
  unfold RAGService.groupHits.
  assert (Hgen : forall componentMap,
            (forall doc, In doc vectorResults -> In doc all) ->
            NoDup (map fst componentMap) -> Forall groupOk componentMap ->
            let after :=
              fold_left
                (fun componentMap doc =>
                   let metadata := VectorDocument.meta doc in
                   let componentKey :=
                     VectorDocument.packageName metadata ++ "-"
                     ++ VectorDocument.componentName metadata in
                   let score := RAGService.calculateRelevanceScore doc query in
                   RAGService.addScore componentMap componentKey
                     (RAGService.mkGroup
                        (RAGService.reconstructComponentDoc metadata now)
                        [score] 0%Q)
                     score)
                vectorResults componentMap in
            NoDup (map fst after) /\ Forall groupOk after).
  { induction vectorResults as [| doc rest IH]; intros m Hsub Hnd Hall; cbv zeta.
    - now split.
    - cbn [fold_left].
      pose proof (calculateRelevanceScore_unit doc query) as Hscore.
      match goal with
      | |- context [RAGService.addScore m ?key ?fresh ?score] =>
          destruct (addScore_ok m key fresh score Hnd Hall Hscore) as [Hnd' Hall']
      end.
      + unfold groupOk. cbn [fst snd RAGService.scores RAGService.component].
        repeat split.
        * discriminate.
        * now constructor.
        * exists doc. split; [apply Hsub; now left | reflexivity].
      + apply IH; [intros d Hd; apply Hsub; now right | exact Hnd' | exact Hall']. }
  intros Hsub. apply Hgen; [exact Hsub | constructor | constructor].
Qed.

(** The groups [searchComponents] returns: at most [topK || 5], best
    first, each with a total above zero and at most one, no two of one
    key, each rebuilt from the metadata of a hit. *)
Lemma rankGroups_spec (vectorResults : list VectorDocument.t) (topK : option nat) :
  (forall doc, In doc vectorResults -> In doc all) ->
  let results :=
    RAGService.rankGroups (RAGService.groupHits vectorResults query now) topK in
  (List.length results <= match topK with Some (S n) => S n | _ => 5 end)%nat
  /\ StronglySorted (fun a b => (b <= a)%Q) (map RAGService.totalScore results)
  /\ Forall unitScore (map RAGService.totalScore results)
  /\ NoDup (map componentKey (map RAGService.component results))
  /\ Forall
       (fun component =>
          exists doc,
            In doc all
            /\ component
               = RAGService.reconstructComponentDoc (VectorDocument.meta doc) now)
       (map RAGService.component results).
Proof.
  intros Hsub. cbv zeta.
  destruct (groupHits_ok vectorResults Hsub) as [Hnd Hall].
  unfold RAGService.rankGroups, slice. rewrite Nat.sub_0_r. cbn [skipn].
  set (componentMap := RAGService.groupHits vectorResults query now) in *.
  set (totalled :=
         map
           (fun item =>
              RAGService.mkGroup (RAGService.component item) (RAGService.scores item)
                (RAGService.groupTotal (RAGService.scores item)))
           (map snd componentMap)).
  set (before := fun a b : RAGService.Group =>
         Qle_bool (RAGService.totalScore b - RAGService.totalScore a) 0).
  assert (Hmember : forall r, In r (firstn match topK with Some (S n) => S n | _ => 5 end
                                       (sort before totalled)) ->
            exists kg, In kg componentMap /\ groupOk kg
              /\ r = RAGService.mkGroup (RAGService.component (snd kg))
                       (RAGService.scores (snd kg))
                       (RAGService.groupTotal (RAGService.scores (snd kg)))).
  { intros r Hr. apply In_firstn in Hr.
    apply (Permutation_in _ (sort_perm before totalled)) in Hr.
    unfold totalled in Hr. rewrite map_map in Hr. apply in_map_iff in Hr.
    destruct Hr as (kg & <- & Hkg). exists kg. split; [exact Hkg |].
    split; [| reflexivity]. rewrite Forall_forall in Hall. now apply Hall. }
  split; [apply firstn_le_length |]. split; [| split; [| split]].
  - apply StronglySorted_map, StronglySorted_firstn.
    pose proof (sort_sorted before byTotal_total byTotal_trans totalled) as Hs.
    eapply StronglySorted_impl; [| exact Hs].
    intros a b Hb. unfold before in Hb. apply Qle_bool_iff in Hb. lra.
  - rewrite Forall_map, Forall_forall. intros r Hr.
    destruct (Hmember r Hr) as (kg & _ & (Hne & Hunit & _) & ->).
    cbn [RAGService.totalScore]. now apply groupTotal_unit.
  - rewrite map_map, <- firstn_map. apply keys_firstn.
    apply (Permutation_NoDup (l := map fst componentMap)); [| exact Hnd].
    apply Permutation_sym.
    etransitivity; [apply Permutation_map, sort_perm |].
    unfold totalled. rewrite !map_map.
    erewrite map_ext_in; [apply Permutation_refl |].
    intros kg Hkg. rewrite Forall_forall in Hall.
    destruct (Hall kg Hkg) as (_ & _ & Hkey & _). cbn [RAGService.component].
    now rewrite Hkey.
  - rewrite Forall_map, Forall_forall. intros r Hr.
    destruct (Hmember r Hr) as (kg & _ & (_ & _ & _ & Hdoc) & ->).
    exact Hdoc.
Qed.

End SearchAnswer.

Lemma cacheEnabled_withCache (this : RAGService.t) (c : SmartCache.t) :
  RAGService.cacheEnabled (RAGService.withCache this c) = RAGService.cacheEnabled this.
Proof. reflexivity. Qed.

Section CachedSearch.

Variable sqrt : Q -> Q.

Lemma getSemantic_from_heap (c : SmartCache.t) (embedding : option (list Q))
    (startTime now : Z) (found : RAGSearchResponse.t) :
  fst (SmartCache.getSemantic sqrt c embedding startTime now) = Some found ->
  exists entry, In entry (SmartCache.heap c) /\ SmartCache.value entry = found.
Proof.
  unfold SmartCache.getSemantic.
  destruct (match embedding with Some (x :: rest) => _ | _ => None end)
    as [address |]; cbn [fst]; [| discriminate].
  destruct (nth_error (SmartCache.heap c) address) as [entry |] eqn:Hentry;
    cbn [option_map]; [| discriminate].
  intros H. injection H as <-. exists entry. split; [| reflexivity].
  eapply nth_error_In, Hentry.
Qed.

(** What [get] answers is the value of an entry of the cache. *)
Lemma get_from_heap (c : SmartCache.t) (query : string)
    (embedding : option (list Q)) (filters : option string) (startTime now : Z)
    (found : RAGSearchResponse.t) :
  fst (SmartCache.get sqrt c query embedding filters startTime now) = Some found ->
  exists entry, In entry (SmartCache.heap c) /\ SmartCache.value entry = found.
Proof.
  unfold SmartCache.get.
  cbn [SmartCache.withStats SmartCache.cache SmartCache.heap SmartCache.maxAge].
  destruct (SmartCache.mapGet (SmartCache.cache c) _) as [address |];
    [| intros H; apply getSemantic_from_heap in H; exact H].
  destruct (nth_error (SmartCache.heap c) address) as [exactMatch |] eqn:Hentry;
    [| intros H; apply getSemantic_from_heap in H; exact H].
  destruct (_ <=? _)%Z.
  - cbn [fst]. intros H. injection H as <-. exists exactMatch.
    split; [eapply nth_error_In, Hentry | reflexivity].
  - intros H. apply getSemantic_from_heap in H. exact H.
Qed.

Lemma get_maxAge (c : SmartCache.t) (query : string)
    (embedding : option (list Q)) (filters : option string) (startTime now : Z) :
  SmartCache.maxAge (snd (SmartCache.get sqrt c query embedding filters startTime now))
  = SmartCache.maxAge c.
Proof.
  assert (Hsem : forall c' e,
            SmartCache.maxAge (snd (SmartCache.getSemantic sqrt c' e startTime now))
            = SmartCache.maxAge c').
  { intros c' e. unfold SmartCache.getSemantic.
    destruct (match e with Some (x :: rest) => _ | _ => None end); reflexivity. }
  unfold SmartCache.get.
  cbn [SmartCache.withStats SmartCache.cache SmartCache.heap SmartCache.maxAge].
  destruct (SmartCache.mapGet (SmartCache.cache c) _) as [address |];
    [| now rewrite Hsem].
  destruct (nth_error (SmartCache.heap c) address) as [exactMatch |];
    [| now rewrite Hsem].
  destruct (_ <=? _)%Z; [reflexivity | now rewrite Hsem].
Qed.

Lemma get_after_set (c : SmartCache.t) (query query' : string)
    (value : RAGSearchResponse.t) (embedding embedding' : option (list Q))
    (filters : option string) (storedAt startTime now : Z) :
  trim (toLowerCase query') = trim (toLowerCase query) ->
  (now - storedAt <= SmartCache.maxAge c)%Z ->
  fst (SmartCache.get sqrt
         (SmartCache.set c query value embedding filters storedAt)
         query' embedding' filters startTime now)
  = Some value.
Proof.
  intros sameKey Hfresh.
  destruct (set_cache_key c query value embedding filters storedAt)
    as [Hkey [Hentry [Hage _]]].
  unfold SmartCache.get.
  rewrite (generateKey_normalises query query' filters sameKey).
  cbn [SmartCache.withStats SmartCache.cache SmartCache.heap SmartCache.maxAge].
  rewrite Hkey, Hentry. cbn [SmartCache.timestamp]. rewrite Hage.
  now rewrite (proj2 (Z.leb_le _ _) Hfresh).
Qed.

(** The response [searchComponents] computes from the hits of the vector
    search. *)
Lemma computed_response (this : RAGService.t) (now : string) (duration : Z)
    (request : RAGSearchRequest.t) (queryEmbedding : option (list Q))
    (vectorResults : list VectorDocument.t) :
  RAGService.vectorSearch sqrt this queryEmbedding request = Ok vectorResults ->
  let results :=
    RAGService.rankGroups
      (RAGService.groupHits vectorResults (RAGSearchRequest.query request) now)
      (RAGSearchRequest.topK request) in
  freshAnswer (RAGService.vectorStore this) now request
    (RAGSearchResponse.mk
       (map RAGService.component results)
       (map RAGService.totalScore results)
       (RAGService.calculateConfidence (map RAGService.totalScore results))
       (RAGService.generateSuggestions (RAGSearchRequest.query request)
          (map RAGService.component results))
       duration).
Proof.
  intros Hsearch. cbv zeta.
  destruct (rankGroups_spec
              (FileVectorStore.documents (RAGService.vectorStore this))
              (RAGSearchRequest.query request) now vectorResults
              (RAGSearchRequest.topK request)
              (vectorSearch_stored sqrt this queryEmbedding request vectorResults
                 Hsearch))
    as (Hlen & Hsorted & Hunit & Hkeys & Hdocs).
  unfold freshAnswer.
  cbn [RAGSearchResponse.components RAGSearchResponse.scores
       RAGSearchResponse.confidence RAGSearchResponse.suggestions].
  split; [now rewrite !length_map |].
  split; [rewrite length_map; exact Hlen |].
  split; [exact Hsorted |]. split; [exact Hunit |]. split; [exact Hkeys |].
  split; [exact Hdocs |]. split; [now apply calculateConfidence_unit |].
  split; [| reflexivity].
  intros Hnone. apply map_eq_nil in Hnone. now rewrite Hnone.
Qed.

(** X14: the shape of every response of [searchComponents]. Its duration
    is the time the call took. Either the cache is enabled and the rest of
    the response is the value of a cache entry, or the response was
    computed from the index: then it lists at most [topK || 5] components
    with one score each, the scores do not increase, each is above zero
    and at most one, no two components share package and name key, every
    component is the record rebuilt from the metadata of a stored document
    (a placeholder description and API text, no examples), the confidence
    lies between zero and one and is zero without components. *)
Theorem X14_search_response
    (this : RAGService.t) (now : string) (clock duration : Z)
    (request : RAGSearchRequest.t) (response : RAGSearchResponse.t)
    (after : RAGService.t) :
  RAGService.searchComponents sqrt this now clock duration request
  = (Ok response, after) ->
  RAGSearchResponse.duration response = duration
  /\ ((RAGService.cacheEnabled this = true
       /\ exists entry,
            In entry (SmartCache.heap (RAGService.cache this))
            /\ sameAnswer response (SmartCache.value entry))
      \/ freshAnswer (RAGService.vectorStore this) now request response).
Proof.
  unfold RAGService.searchComponents. intros H.
  destruct (OpenAIEmbeddings.embedText _ _) as [queryEmbedding | e];
    [| discriminate H].
  destruct (RAGService.cacheEnabled this) eqn:Henabled.
  - destruct (SmartCache.get sqrt _ _ _ _ _ _) as [hit c] eqn:Hget.
    cbv beta iota zeta in H. destruct hit as [cached |].
    + injection H as <- <-. split; [reflexivity |]. left. split; [reflexivity |].
      destruct (get_from_heap _ _ _ _ _ _ cached (f_equal fst Hget))
        as (entry & Hentry & <-).
      exists entry. split; [exact Hentry |]. repeat split.
    + destruct (RAGService.vectorSearch sqrt _ _ _) as [vectorResults | e] eqn:Hsearch;
        [| discriminate H].
      injection H as <- <-. split; [reflexivity |]. right.
      exact (computed_response _ now duration request _ _ Hsearch).
  - cbv beta iota zeta in H.
    destruct (RAGService.vectorSearch sqrt _ _ _) as [vectorResults | e] eqn:Hsearch;
      [| discriminate H].
    injection H as <- <-. split; [reflexivity |]. right.
    exact (computed_response _ now duration request _ _ Hsearch).
Qed.

(** X15: the cache of [searchComponents] is keyed by the query and the
    filters only. After a search that was computed from the index with the
    cache enabled, a second search for the same filters and a query that
    differs at most in case and surrounding white space, made while the
    entry is not older than the time to live and the provider embeds the
    query, returns the components, scores, confidence and suggestions of
    the first: whatever [topK] and [threshold] the second request gives. *)
Theorem X15_search_repeated
    (this : RAGService.t) (now now' : string) (clock clock' duration duration' : Z)
    (request request' : RAGSearchRequest.t)
    (queryEmbedding queryEmbedding' : option (list Q))
    (response : RAGSearchResponse.t) (after : RAGService.t) :
  RAGService.cacheEnabled this = true ->
  OpenAIEmbeddings.embedText (RAGService.embeddings this)
    (RAGSearchRequest.query request) = Ok queryEmbedding ->
  fst (SmartCache.get sqrt (RAGService.cache this) (RAGSearchRequest.query request)
         queryEmbedding
         (option_map RAGSearchRequest.json (RAGSearchRequest.requestFilters request))
         clock clock) = None ->
  RAGService.searchComponents sqrt this now clock duration request
  = (Ok response, after) ->
  trim (toLowerCase (RAGSearchRequest.query request'))
  = trim (toLowerCase (RAGSearchRequest.query request)) ->
  option_map RAGSearchRequest.json (RAGSearchRequest.requestFilters request')
  = option_map RAGSearchRequest.json (RAGSearchRequest.requestFilters request) ->
  OpenAIEmbeddings.embedText (RAGService.embeddings this)
    (RAGSearchRequest.query request') = Ok queryEmbedding' ->
  (clock' - clock <= SmartCache.maxAge (RAGService.cache this))%Z ->
  exists response',
    fst (RAGService.searchComponents sqrt after now' clock' duration' request')
    = Ok response'
    /\ sameAnswer response' response
    /\ RAGSearchResponse.duration response' = duration'.
Proof.
  intros Henabled Hembed Hmiss Hfirst Hquery Hfilters Hembed' Hfresh.
  unfold RAGService.searchComponents in Hfirst.
  rewrite Hembed, Henabled in Hfirst.
  destruct (SmartCache.get sqrt _ _ _ _ _ _) as [hit c] eqn:Hget.
  cbn [fst] in Hmiss. subst hit. cbv beta iota zeta in Hfirst.
  destruct (RAGService.vectorSearch sqrt _ _ _) as [vectorResults | e];
    [| discriminate Hfirst].
  rewrite cacheEnabled_withCache, Henabled in Hfirst.
  injection Hfirst as Hresponse Hafter. rewrite Hresponse in Hafter. subst after.
  unfold RAGService.searchComponents.
  rewrite !cacheEnabled_withCache, Henabled.
  cbn [RAGService.withCache RAGService.embeddings RAGService.cache].
  rewrite Hembed', Hfilters.
  match goal with
  | |- context [SmartCache.get sqrt (SmartCache.set c ?q ?v ?e ?f ?t) ?q' ?e' ?f ?s ?n] =>
      pose proof (get_after_set c q q' v e e' f t s n Hquery) as Hhit;
      destruct (SmartCache.get sqrt (SmartCache.set c q v e f t) q' e' f s n)
        as [found c'] eqn:Hget'
  end.
  cbn [fst] in Hhit. rewrite Hhit.
  - cbv beta iota zeta. cbn [fst]. eexists. split; [reflexivity |].
    repeat split.
  - pose proof (get_maxAge (RAGService.cache this) (RAGSearchRequest.query request)
                  queryEmbedding
                  (option_map RAGSearchRequest.json
                     (RAGSearchRequest.requestFilters request))
                  clock clock) as Hage.
    rewrite Hget in Hage. cbn [snd] in Hage. rewrite Hage. exact Hfresh.
Qed.

End CachedSearch.

Lemma X14_search_response_witness :
  RAGSearchResponse.duration Scenario.firstResponse = 3%Z.
Proof.
  refine (proj1 (X14_search_response Scenario.sqrtQ Scenario.tableService
                   "2026-01-01T00:00:00.000Z" 0 3 Scenario.modalRequest
                   Scenario.firstResponse (snd Scenario.firstSearch) _)).
  vm_compute. reflexivity.
Defined.

Lemma X15_search_repeated_witness :
  exists response',
    fst (RAGService.searchComponents Scenario.sqrtQ (snd Scenario.firstSearch)
           "2026-01-01T00:00:01.000Z" 1000 4 Scenario.modalAgain)
    = Ok response'
    /\ sameAnswer response' Scenario.firstResponse
    /\ RAGSearchResponse.duration response' = 4%Z.
Proof.
  apply (X15_search_repeated Scenario.sqrtQ Scenario.tableService
           "2026-01-01T00:00:00.000Z" "2026-01-01T00:00:01.000Z" 0 1000 3 4
           Scenario.modalRequest Scenario.modalAgain
           (Some [1%Q; 0%Q]) (Some [1%Q; 0%Q])
           Scenario.firstResponse (snd Scenario.firstSearch)).
  - reflexivity.
  - vm_compute. reflexivity.
  - vm_compute. reflexivity.
  - vm_compute. reflexivity.
  - vm_compute. reflexivity.
  - reflexivity.
  - vm_compute. reflexivity.
  - vm_compute. intros H. discriminate H.
Defined.

(** ** The search handler *)

Lemma includes_prefix (hay needle : string) :
  String.prefix needle hay = true -> includes hay needle = true.
Proof. intros H. destruct hay; cbn [includes]; now rewrite H. Qed.

Lemma includes_append (before hay needle : string) :
  includes hay needle = true -> includes (before ++ hay) needle = true.
Proof.
  intros H. induction before as [| c rest IH]; [exact H |].
  cbn [append includes]. rewrite IH. apply orb_true_r.
Qed.

Lemma finalError_mentions (this : OpenAIEmbeddings.t) (error : Error) :
  includes (message (OpenAIEmbeddings.finalError this error)) "OpenAI API" = true.
Proof.
  unfold OpenAIEmbeddings.finalError.
  destruct (includes (message error) "quota"); [reflexivity |].
  destruct (includes (message error) "401"); [reflexivity |].
  apply includes_prefix. reflexivity.
Qed.

Lemma inRange_check (k low high : Q) :
  (k == 0 \/ low <= k <= high)%Q ->
  Route.truthyNumber k && (Route.lessThan k low || Route.lessThan high k) = false.
Proof.
  unfold Route.truthyNumber, Route.lessThan. intros [Hzero | [Hlow Hhigh]].
  - apply Qeq_bool_iff in Hzero. now rewrite Hzero.
  - apply Qle_bool_iff in Hlow, Hhigh. rewrite Hlow, Hhigh. apply andb_false_r.
Qed.

Section SearchHandler.

Variable sqrt : Q -> Q.
Variables (env : Route.Env) (client : OpenAIEmbeddings.Client).
Variables (store : FileVectorStore.t) (now : string) (clock duration : Z).
Variables (body : SearchRoute.Body) (q : string).

Let ragService :=
  RAGService.new client store (Route.config env) (Route.defaultSourcePath env).

(** An accepted body reaches the service. *)
Lemma POST_accepted :
  accepted env body q ->
  SearchRoute.POST sqrt env client store now clock duration (Ok body)
  = match
      fst (RAGService.searchComponents sqrt ragService now clock duration
             (SearchRoute.searchRequest body q))
    with
    | Ok result => Route.Json200 result
    | Err error => SearchRoute.handleError error
    end.
Proof.
  intros (Hquery & Htruthy & HtopK & Hthreshold & Hkey).
  unfold SearchRoute.POST. rewrite Hquery, Htruthy, Hkey. cbn [negb].
  destruct (SearchRoute.topK body) as [k |];
    [rewrite (inRange_check k 1 50 (HtopK k eq_refl)) |];
    (destruct (SearchRoute.threshold body) as [t |];
     [rewrite (inRange_check t 0 1 (or_intror (Hthreshold t eq_refl))) |]);
    reflexivity.
Qed.

(** X16: when the provider is down, the search handler answers 503. For
    an accepted body whose query is not blank, if the provider fails the
    three attempts the service makes, the reply has status 503 and the
    text [AI service temporarily unavailable], whatever the provider
    reported: the replies 429 (quota) and 401 (authentication) of the
    handler are not given for a failure of the provider. *)
Theorem X16_search_route_provider_down (errs : nat -> Error) :
  accepted env body q ->
  nonBlank q ->
  (forall a, (1 <= a <= 3)%nat ->
     client [q] a = OpenAIEmbeddings.Failure (errs a)) ->
  exists details,
    SearchRoute.POST sqrt env client store now clock duration (Ok body)
    = Route.JsonError 503 "AI service temporarily unavailable" (Some details)
    /\ startsWith details
         "Search failed: RAGError: Failed to generate embedding for text: RAGError: OpenAI API"
       = true.
Proof.
  intros Haccepted Hquery Hdown. rewrite (POST_accepted Haccepted).
  unfold RAGService.searchComponents, OpenAIEmbeddings.embedText.
  cbn [RAGSearchRequest.query SearchRoute.searchRequest].
  unfold nonBlank in Hquery. rewrite Hquery. cbn [negb].
  assert (Hfails :
    OpenAIEmbeddings.createEmbedding (RAGService.embeddings ragService) [q]
    = Err (OpenAIEmbeddings.finalError (RAGService.embeddings ragService) (errs 3))).
  { unfold OpenAIEmbeddings.createEmbedding, OpenAIEmbeddings.createEmbeddingTrace.
    change (S (OpenAIEmbeddings.maxRetries (RAGService.embeddings ragService)))
      with 4.
    rewrite (attemptsFrom_fails (RAGService.embeddings ragService) [q] errs 2 1 4);
      [reflexivity | reflexivity | lia | exact Hdown]. }
  rewrite Hfails. cbn [fst bind catch].
  unfold SearchRoute.handleError, RAGError, EmbeddingError, errorToString.
  cbn [message name].
  match goal with
  | |- context [includes ?text "OpenAI API"] =>
      assert (Hmentions : includes text "OpenAI API" = true)
        by (repeat apply includes_append; apply finalError_mentions);
      rewrite Hmentions
  end.
  eexists. split; [reflexivity |].
  unfold OpenAIEmbeddings.finalError.
  destruct (includes (message (errs _)) "quota"); [reflexivity |].
  destruct (includes (message (errs _)) "401"); reflexivity.
Qed.

(** X17: a query of white space only passes the validation of the search
    handler and fails in the service: the reply is a 500 with the text
    [Internal server error], not the 400 of a missing query. *)
Theorem X17_search_route_blank_query :
  accepted env body q ->
  trim q = "" ->
  SearchRoute.POST sqrt env client store now clock duration (Ok body)
  = Route.JsonError 500 "Internal server error"
      (Some "Search failed: RAGError: Text cannot be empty").
Proof.
  intros Haccepted Hblank. rewrite (POST_accepted Haccepted).
  unfold RAGService.searchComponents, OpenAIEmbeddings.embedText.
  cbn [RAGSearchRequest.query SearchRoute.searchRequest].
  rewrite Hblank. reflexivity.
Qed.

Lemma get_empty (c : SmartCache.t) (query : string)
    (embedding : option (list Q)) (filters : option string) (startTime t : Z) :
  SmartCache.cache c = [] -> SmartCache.semanticCache c = [] ->
  fst (SmartCache.get sqrt c query embedding filters startTime t) = None.
Proof.
  intros Hcache Hsemantic. unfold SmartCache.get, SmartCache.getSemantic.
  cbn [SmartCache.withStats SmartCache.cache SmartCache.heap SmartCache.semanticCache].
  rewrite Hcache, Hsemantic. cbn [SmartCache.mapGet map find].
  destruct embedding as [[| x rest] |]; reflexivity.
Qed.

(** X18: what the search handler returns with status 200. For an accepted
    body the data were computed from the index for this request (each
    request starts with an empty cache): at most [topK] components, and
    never more than fifty, with one score each, the scores above zero, at
    most one and not increasing, no component twice, each component
    rebuilt from the metadata of a stored document, and the duration of
    the search. *)
Theorem X18_search_route_ok (data : RAGSearchResponse.t) :
  accepted env body q ->
  SearchRoute.POST sqrt env client store now clock duration (Ok body)
  = Route.Json200 data ->
  freshAnswer store now (SearchRoute.searchRequest body q) data
  /\ (List.length (RAGSearchResponse.components data) <= 50)%nat
  /\ RAGSearchResponse.duration data = duration.
Proof.
  intros Haccepted Hreply. rewrite (POST_accepted Haccepted) in Hreply.
  assert (Hfresh :
    freshAnswer store now (SearchRoute.searchRequest body q) data
    /\ RAGSearchResponse.duration data = duration).
  { unfold RAGService.searchComponents in Hreply.
    destruct (OpenAIEmbeddings.embedText _ _) as [queryEmbedding | e].
    - change (RAGService.cacheEnabled ragService) with true in Hreply.
      cbv iota in Hreply.
      destruct (SmartCache.get sqrt _ _ _ _ _ _) as [hit c] eqn:Hget.
      assert (Hmiss : hit = None).
      { pose proof (get_empty (RAGService.cache ragService)
                      (RAGSearchRequest.query (SearchRoute.searchRequest body q))
                      queryEmbedding
                      (option_map RAGSearchRequest.json
                         (RAGSearchRequest.requestFilters
                            (SearchRoute.searchRequest body q)))
                      clock clock eq_refl eq_refl) as Hnone.
        rewrite Hget in Hnone. exact Hnone. }
      subst hit. cbv beta iota zeta in Hreply.
      destruct (RAGService.vectorSearch sqrt _ _ _) as [vectorResults | e] eqn:Hsearch.
      + cbn [fst] in Hreply. injection Hreply as <-. split; [| reflexivity].
        exact (computed_response sqrt _ now duration _ _ _ Hsearch).
      + cbn [fst] in Hreply. unfold SearchRoute.handleError in Hreply.
        repeat destruct (includes _ _) in Hreply; discriminate Hreply.
    - cbn [fst] in Hreply. unfold SearchRoute.handleError in Hreply.
      repeat destruct (includes _ _) in Hreply; discriminate Hreply. }
  destruct Hfresh as [Hfresh Hduration].
  split; [exact Hfresh |]. split; [| exact Hduration].
  destruct Hfresh as (_ & Hlimit & _).
  etransitivity; [exact Hlimit |].
  unfold resultLimit. cbn [RAGSearchRequest.topK SearchRoute.searchRequest].
  destruct Haccepted as (_ & _ & HtopK & _).
  assert (Hk : (Qfloor
                  match SearchRoute.topK body with
                  | Some k => if Route.truthyNumber k then k else 5%Q
                  | None => 5%Q
                  end <= 50)%Z).
  { assert (H50 : Qfloor 50 = 50%Z) by reflexivity.
    rewrite <- H50. apply Qfloor_resp_le.
    destruct (SearchRoute.topK body) as [k |]; [| discriminate].
    destruct (Route.truthyNumber k) eqn:Htruthy; [| discriminate].
    destruct (HtopK k eq_refl) as [Hzero | [_ Hhigh]]; [| exact Hhigh].
    unfold Route.truthyNumber in Htruthy. apply Qeq_bool_iff in Hzero.
    rewrite Hzero in Htruthy. discriminate Htruthy. }
  destruct (Z.to_nat _) as [| n] eqn:Hn; lia.
Qed.

End SearchHandler.

Lemma X16_search_route_provider_down_witness :
  exists details,
    SearchRoute.POST Scenario.sqrtQ Scenario.env Scenario.quotaClient
      Scenario.tableStore "2026-01-01T00:00:00.000Z" 0 3 (Ok Scenario.modalBody)
    = Route.JsonError 503 "AI service temporarily unavailable" (Some details)
    /\ startsWith details
         "Search failed: RAGError: Failed to generate embedding for text: RAGError: OpenAI API"
       = true.
Proof.
  apply (X16_search_route_provider_down Scenario.sqrtQ Scenario.env
           Scenario.quotaClient Scenario.tableStore "2026-01-01T00:00:00.000Z" 0 3
           Scenario.modalBody "modal"
           (fun _ => mkError "Error" "429 You exceeded your current quota" "")).
  - split; [reflexivity |]. split; [reflexivity |]. split.
    + intros k Hk. injection Hk as <-. right. split; intros H; discriminate H.
    + split; [intros t Ht; discriminate Ht | reflexivity].
  - reflexivity.
  - intros a _. reflexivity.
Defined.

Lemma X17_search_route_blank_query_witness :
  SearchRoute.POST Scenario.sqrtQ Scenario.env Scenario.queryClient
    Scenario.tableStore "2026-01-01T00:00:00.000Z" 0 3 (Ok Scenario.blankBody)
  = Route.JsonError 500 "Internal server error"
      (Some "Search failed: RAGError: Text cannot be empty").
Proof.
  apply (X17_search_route_blank_query Scenario.sqrtQ Scenario.env
           Scenario.queryClient Scenario.tableStore "2026-01-01T00:00:00.000Z" 0 3
           Scenario.blankBody "   ").
  - split; [reflexivity |]. split; [reflexivity |]. split.
    + intros k Hk. discriminate Hk.
    + split; [intros t Ht; discriminate Ht | reflexivity].
  - reflexivity.
Defined.

Lemma X18_search_route_ok_witness :
  (List.length (RAGSearchResponse.components Scenario.routeData) <= 50)%nat.
Proof.
  refine (proj1 (proj2
            (X18_search_route_ok Scenario.sqrtQ Scenario.env Scenario.queryClient
               Scenario.tableStore "2026-01-01T00:00:00.000Z" 0 3
               Scenario.modalBody "modal" Scenario.routeData _ _))).
  - split; [reflexivity |]. split; [reflexivity |]. split.
    + intros k Hk. injection Hk as <-. right. split; intros H; discriminate H.
    + split; [intros t Ht; discriminate Ht | reflexivity].
  - vm_compute. reflexivity.
Defined.

(** ** The handlers that sync *)

Lemma parseAllComponents_listed (parser : ComponentParser.t) (fs : FS.t)
    (now : string) (entries : list FS.Dirent) :
  FS.readdir fs = Ok entries ->
  exists parsedComponents,
    ComponentParser.parseAllComponents parser fs now = Ok parsedComponents.
Proof.
  intros Hlist. unfold ComponentParser.parseAllComponents. rewrite Hlist.
  cbn [bind catch]. eexists. reflexivity.
Qed.

Lemma parseAllComponents_unlisted (parser : ComponentParser.t) (fs : FS.t)
    (now : string) (error : Error) :
  FS.readdir fs = Err error ->
  ComponentParser.parseAllComponents parser fs now
  = Err (ComponentParseError
           ("Failed to parse components: " ++ errorToString error)
           (ComponentParser.sourcePath parser)).
Proof.
  intros Hlist. unfold ComponentParser.parseAllComponents. now rewrite Hlist.
Qed.

(** X19: what the handler [DELETE] of the admin route does. It always
    answers that all index data were deleted. The index is emptied when
    the components directory under the source path can be listed; when it
    cannot, the sync that was to clear the index fails before it clears
    anything and the index files stay as they were. *)
Theorem X19_admin_delete
    (env : Route.Env) (client : OpenAIEmbeddings.Client)
    (store : FileVectorStore.t) (fs : FS.t) (now : string) (duration : Z) :
  let reply := fst (AdminRoute.DELETE env client store fs now duration) in
  let after := snd (AdminRoute.DELETE env client store fs now duration) in
  reply = Route.Json200 "All RAG index data deleted successfully"
  /\ (forall entries, FS.readdir fs = Ok entries -> after = FileVectorStore.empty)
  /\ (forall error, FS.readdir fs = Err error -> after = store).
Proof.
  cbv zeta. unfold AdminRoute.DELETE.
  set (ragService :=
         RAGService.new client store (Route.config env) (Route.defaultSourcePath env)).
  destruct (FS.readdir fs) as [entries | error] eqn:Hlist.
  - destruct (parseAllComponents_listed (RAGService.parser ragService) fs now
                entries Hlist) as [parsedComponents Hparse].
    rewrite (syncComponents_parsed ragService fs now duration _ parsedComponents Hparse).
    cbn [fst snd RAGService.clearCache RAGService.vectorStore].
    split; [reflexivity |]. split; [| intros e He; discriminate He].
    intros _ _.
    unfold componentsToSync. cbn [ComponentSyncRequest.packages].
    assert (Hnone :
      filter
        (fun comp =>
           FileVectorStore.hasId []
             (ComponentDoc.packageName (ParsedComponent.info comp)))
        parsedComponents = []).
    { clear Hparse. induction parsedComponents as [| comp rest IH]; [reflexivity |].
      cbn [filter FileVectorStore.hasId existsb]. exact IH. }
    rewrite Hnone. reflexivity.
  - unfold RAGService.syncComponents.
    rewrite (parseAllComponents_unlisted _ fs now error Hlist).
    cbn [fst snd RAGService.clearCache RAGService.vectorStore].
    split; [reflexivity |]. split; [intros e He; discriminate He |].
    intros _ _. reflexivity.
Qed.

(** X20: the sync handler answers 200 for every body it accepts. With a
    source path, packages that are absent or an array, and an API key,
    the reply is the response of [syncComponents] with status 200. When
    the components directory cannot be listed, that response has the
    status [failed], counts nothing, carries the message of the file
    system in its one error line, and the index files are untouched: the
    replies 404 and 403 of the handler are not given for a source path
    that is missing or unreadable. *)
Theorem X20_sync_route
    (env : Route.Env) (client : OpenAIEmbeddings.Client)
    (store : FileVectorStore.t) (fs : FS.t) (now : string) (duration : Z)
    (body : SyncRoute.Body) (path : string) :
  SyncRoute.sourcePath body = Some path ->
  truthy path = true ->
  SyncRoute.packages body <> SyncRoute.NotAnArray ->
  truthy (Route.apiKey env) = true ->
  let reply := fst (SyncRoute.POST env client store fs now duration (Ok body)) in
  let after := snd (SyncRoute.POST env client store fs now duration (Ok body)) in
  (exists response,
      reply = Route.Json200 response
      /\ ComponentSyncResponse.duration response = duration)
  /\ forall error,
       FS.readdir fs = Err error ->
       reply
       = Route.Json200
           (ComponentSyncResponse.mk ComponentSyncResponse.Failed 0 0 0
              ["Sync error: RAGError: Failed to parse components: "
               ++ errorToString error]
              duration)
       /\ after = store.
Proof.
  intros Hpath Htruthy Harray Hkey. cbv zeta. unfold SyncRoute.POST.
  rewrite Hpath, Htruthy, Hkey. cbn [negb].
  set (ragService := RAGService.new client store (Route.config env) path).
  assert (Hreply : forall request,
    exists response,
      RAGService.syncComponents ragService fs now duration request
      = (response, snd (RAGService.syncComponents ragService fs now duration request))
      /\ ComponentSyncResponse.duration response = duration
      /\ forall error,
           FS.readdir fs = Err error ->
           response
           = ComponentSyncResponse.mk ComponentSyncResponse.Failed 0 0 0
               ["Sync error: RAGError: Failed to parse components: "
                ++ errorToString error]
               duration
           /\ RAGService.vectorStore
                (snd (RAGService.syncComponents ragService fs now duration request))
              = store).
  { intros request. unfold RAGService.syncComponents.
    destruct (FS.readdir fs) as [entries | error] eqn:Hlist.
    - destruct (parseAllComponents_listed (RAGService.parser ragService) fs now
                  entries Hlist) as [parsedComponents Hparse].
      rewrite Hparse. eexists. split; [reflexivity |]. split; [reflexivity |].
      intros e He. discriminate He.
    - rewrite (parseAllComponents_unlisted _ fs now error Hlist).
      eexists. split; [reflexivity |]. split; [reflexivity |].
      intros e He. injection He as <-. split; reflexivity. }
  destruct (SyncRoute.packages body) as [| packages |]; [| | now contradiction Harray];
    match goal with
    | |- context [RAGService.syncComponents ragService fs now duration ?request] =>
        destruct (Hreply request) as (response & Hsync & Hduration & Hfailed);
        rewrite Hsync; cbn [fst snd];
        (split; [exists response; split; [reflexivity | exact Hduration] |]);
        intros error Hlist; destruct (Hfailed error Hlist) as [-> Hstore];
        split; [reflexivity | exact Hstore]
    end.
Qed.

Lemma X20_sync_route_witness :
  snd (SyncRoute.POST Scenario.env Scenario.echoClient Scenario.threeDocs
         Scenario.noTree "2026-01-01T00:00:00.000Z" 7 (Ok Scenario.syncBody))
  = Scenario.threeDocs.
Proof.
  refine (proj2 (proj2
            (X20_sync_route Scenario.env Scenario.echoClient Scenario.threeDocs
               Scenario.noTree "2026-01-01T00:00:00.000Z" 7 Scenario.syncBody
               "./root" eq_refl eq_refl _ eq_refl)
            _ eq_refl)).
  intros H. discriminate H.
Defined.

(** ** Parser: the list of components *)

(** X21: what [parseAllComponents] returns when the components directory
    can be listed. It does not fail, and returns one entry for each
    directory whose name does not start with an underscore, in the order
    of the listing. Each entry has the path of its directory, the
    capitalised name, the package of the parser and the time stamp; it is
    either the component [parseComponent] read, with status [success] and
    no error, or, when the directory cannot be read, the placeholder
    component with status [error] and the reason. The status [partial] is
    never given. *)
Theorem X21_parseAllComponents
    (parser : ComponentParser.t) (fs : FS.t) (now : string)
    (entries : list FS.Dirent) :
  FS.readdir fs = Ok entries ->
  exists parsedComponents,
    ComponentParser.parseAllComponents parser fs now = Ok parsedComponents
    /\ Forall2 (parsedFrom parser fs now) (componentDirs entries) parsedComponents
    /\ Forall
         (fun comp => ParsedComponent.status comp <> ParsedComponent.Partial)
         parsedComponents.
Proof.
  intros Hlist. unfold ComponentParser.parseAllComponents. rewrite Hlist.
  cbn [bind catch]. fold (componentDirs entries).
  eexists. split; [reflexivity |].
  assert (Heach : forall name,
    parsedFrom parser fs now name
      match ComponentParser.parseComponent parser fs now name with
      | Ok parsed => parsed
      | Err error =>
          ParsedComponent.mk
            (ComponentParser.createEmptyComponentDoc parser now name)
            (FS.pathJoin (FS.pathJoin (ComponentParser.sourcePath parser) "components")
               name)
            ParsedComponent.Error (Some (message error))
      end).
  { intros name.
    destruct (ComponentParser.parseComponent parser fs now name)
      as [parsed | error] eqn:Hparse.
    - pose proof Hparse as Hread.
      unfold ComponentParser.parseComponent, ComponentParser.extractComponentDoc
        in Hread.
      apply catch_Ok in Hread; [| discriminate].
      destruct (FS.access _) as [u | e]; [| discriminate Hread].
      cbn [bind] in Hread.
      destruct (ComponentParser.extractTags _) as [tags | e]; [| discriminate Hread].
      cbn [bind] in Hread. injection Hread as <-.
      unfold parsedFrom.
      cbn [ParsedComponent.info ParsedComponent.filePath ParsedComponent.status
           ParsedComponent.error ComponentDoc.componentName
           ComponentDoc.packageName ComponentDoc.updatedAt].
      do 4 (split; [reflexivity |]). left.
      split; [reflexivity |]. split; [reflexivity | exact Hparse].
    - unfold ComponentParser.parseComponent in Hparse.
      destruct (bind _ _) as [parsed | e]; [discriminate Hparse |].
      cbn [catch] in Hparse. injection Hparse as <-.
      unfold parsedFrom.
      cbn [ParsedComponent.info ParsedComponent.filePath ParsedComponent.status
           ParsedComponent.error ComponentDoc.componentName
           ComponentDoc.packageName ComponentDoc.updatedAt
           ComponentParser.createEmptyComponentDoc message ComponentParseError
           RAGError].
      do 4 (split; [reflexivity |]). right.
      split; [reflexivity |]. split; [| reflexivity].
      eexists. reflexivity. }
  split.
  - induction (componentDirs entries) as [| name rest IH]; cbn [map];
      constructor; [apply Heach | exact IH].
  - apply Forall_forall. intros comp Hcomp. apply in_map_iff in Hcomp.
    destruct Hcomp as (name & <- & _).
    destruct (Heach name) as (_ & _ & _ & _ & [(Hs & _) | (Hs & _)]);
      rewrite Hs; discriminate.
Qed.

Lemma X21_parseAllComponents_witness :
  exists parsedComponents,
    ComponentParser.parseAllComponents (ComponentParser.new "./root")
      Scenario.buttonTree "2026-01-01T00:00:00.000Z" = Ok parsedComponents
    /\ Forall2
         (parsedFrom (ComponentParser.new "./root") Scenario.buttonTree
            "2026-01-01T00:00:00.000Z")
         (componentDirs [FS.mkDirent "button" true]) parsedComponents
    /\ Forall
         (fun comp => ParsedComponent.status comp <> ParsedComponent.Partial)
         parsedComponents.
Proof.
  apply (X21_parseAllComponents (ComponentParser.new "./root") Scenario.buttonTree
           "2026-01-01T00:00:00.000Z" [FS.mkDirent "button" true]).
  reflexivity.
Defined.

(** ** Parser and vectors: the facets of a parsed component *)

Lemma sliceFromFirst_holds (p : string -> bool) (s found : string) :
  ComponentParser.sliceFromFirst p s = Some found -> p found = true.
Proof.
  induction s as [| c rest IH]; cbn [ComponentParser.sliceFromFirst].
  - destruct (p "") eqn:Hp; intros H; [| discriminate H].
    injection H as <-. exact Hp.
  - destruct (p (String c rest)) eqn:Hp; intros H; [| apply IH, H].
    injection H as <-. exact Hp.
Qed.

Lemma apiSection_head (s : string) :
  startsWith s "## API" = true -> exists rest, s = String "#" rest.
Proof.
  unfold startsWith. destruct s as [| c rest]; cbn [String.prefix]; [discriminate |].
  destruct (ascii_dec "#" c) as [<- | _]; [| discriminate]. intros _. now exists rest.
Qed.

Lemma extractAPI_cases (md : option string) :
  ComponentParser.extractAPI md = ComponentParser.apiNotAvailable
  \/ exists rest, ComponentParser.extractAPI md = String "#" rest.
Proof.
  unfold ComponentParser.extractAPI. destruct md as [content |]; [| now left].
  destruct (ComponentParser.sliceFromFirst _ content) as [apiContent |] eqn:Hfound;
    [| now left].
  right. apply sliceFromFirst_holds in Hfound.
  destruct (apiSection_head apiContent Hfound) as [rest ->].
  cbn [ComponentParser.sliceToFirst].
  change (ComponentParser.nextSection (String "#" rest)) with false. cbv iota.
  unfold trim. cbn [trimStart]. change (isSpace "#") with false. cbv iota.
  apply trimEnd_head. reflexivity.
Qed.

Lemma extractAPI_nonBlank (md : option string) :
  nonBlank (ComponentParser.extractAPI md).
Proof.
  destruct (extractAPI_cases md) as [-> | [rest ->]];
    apply nonBlank_head; reflexivity.
Qed.

Lemma examples_bound (read : string * option string -> list string)
    (demoFiles : list (string * option string)) :
  (forall file, (List.length (read file) <= 1)%nat /\ Forall nonBlank (read file)) ->
  (List.length (flat_map read demoFiles) <= List.length demoFiles)%nat
  /\ Forall nonBlank (flat_map read demoFiles).
Proof.
  intros Hread. induction demoFiles as [| file rest [IHlen IHall]].
  - split; [apply Nat.le_refl | constructor].
  - destruct (Hread file) as [Hlen Hall]. cbn [flat_map List.length].
    rewrite length_app. split; [lia |]. apply Forall_app. now split.
Qed.

Lemma extractExamples_spec (demo : option (list (string * option string))) :
  (List.length (ComponentParser.extractExamples demo) <= 3)%nat
  /\ Forall nonBlank (ComponentParser.extractExamples demo).
Proof.
  unfold ComponentParser.extractExamples. destruct demo as [demoFiles |];
    [| split; [apply Nat.le_0_l | constructor]].
  match goal with
  | |- context [flat_map ?read ?files] =>
      destruct (examples_bound read files) as [Hlen Hall]
  end.
  - intros [file content]. cbn [snd]. destruct content as [text |].
    + cbv zeta. destruct (truthy (trim _)) eqn:Hcode.
      * split; [apply Nat.le_refl |]. constructor; [| constructor].
        now apply nonBlank_trim.
      * split; [apply Nat.le_0_l | constructor].
    + split; [apply Nat.le_0_l | constructor].
  - split; [| exact Hall].
    etransitivity; [exact Hlen |]. unfold slice. apply firstn_le_length.
Qed.

Lemma facets_of_examples (examples : list string) :
  Forall nonBlank examples ->
  flat_map
    (fun example =>
       if truthy (trim example) then [(VectorDocument.example, example)] else [])
    examples
  = map (fun example => (VectorDocument.example, example)) examples.
Proof.
  induction 1 as [| example rest Hexample _ IH]; [reflexivity |].
  cbn [flat_map map]. unfold nonBlank in Hexample. now rewrite Hexample, IH.
Qed.

(** X22: nothing the parser reads is lost on the way to the index. For a
    component [parseComponent] has read, [createComponentVectors] collects
    the description first, then the API text unless the documentation has
    no API section, then every example, in order; none of these texts is
    blank, so none is dropped before the embedding; there are at most
    three examples, and between one and five texts in all. *)
Theorem X22_parsed_facets
    (parser : ComponentParser.t) (fs : FS.t) (now name : string)
    (parsed : ParsedComponent.t) :
  ComponentParser.parseComponent parser fs now name = Ok parsed ->
  let component := ParsedComponent.info parsed in
  let facets := RAGService.collectFacets component in
  facets
  = ((VectorDocument.description, ComponentDoc.description component)
     :: (if String.eqb (ComponentDoc.api component) ComponentParser.apiNotAvailable
         then []
         else [(VectorDocument.api, ComponentDoc.api component)])
     ++ map (fun example => (VectorDocument.example, example))
          (ComponentDoc.examples component))%list
  /\ (List.length (ComponentDoc.examples component) <= 3)%nat
  /\ Forall nonBlank (map snd facets)
  /\ (1 <= List.length facets <= 5)%nat.
Proof.
  intros Hparse. cbv zeta.
  unfold ComponentParser.parseComponent, ComponentParser.extractComponentDoc in Hparse.
  apply catch_Ok in Hparse; [| discriminate].
  destruct (FS.access _) as [u | e]; [| discriminate Hparse].
  cbn [bind] in Hparse.
  destruct (ComponentParser.extractTags _) as [tags | e]; [| discriminate Hparse].
  cbn [bind] in Hparse. injection Hparse as <-.
  cbn [ParsedComponent.info].
  set (path := FS.pathJoin _ name).
  set (files := FS.files fs path).
  pose proof (extractDescription_nonBlank path (FS.indexMd files)) as Hdescription.
  pose proof (extractAPI_nonBlank (FS.indexMd files)) as Hapi.
  destruct (extractExamples_spec (FS.demo files)) as [Hthree Hexamples].
  assert (Hfacets :
    RAGService.collectFacets
      (ComponentDoc.mk (ComponentParser.packageName parser)
         (ComponentParser.capitalizeComponentName name)
         (ComponentParser.extractDescription path (FS.indexMd files))
         (ComponentParser.extractAPI (FS.indexMd files))
         (ComponentParser.extractExamples (FS.demo files)) tags
         (ComponentParser.extractVersion (FS.packageVersion fs))
         (ComponentParser.extractDependencies (FS.indexTs files)) now)
    = ((VectorDocument.description,
        ComponentParser.extractDescription path (FS.indexMd files))
       :: (if String.eqb (ComponentParser.extractAPI (FS.indexMd files))
                ComponentParser.apiNotAvailable
           then []
           else [(VectorDocument.api, ComponentParser.extractAPI (FS.indexMd files))])
       ++ map (fun example => (VectorDocument.example, example))
            (ComponentParser.extractExamples (FS.demo files)))%list).
  { unfold RAGService.collectFacets.
    cbn [ComponentDoc.description ComponentDoc.api ComponentDoc.examples].
    rewrite (nonBlank_truthy _ Hdescription), (nonBlank_truthy _ Hapi).
    rewrite (facets_of_examples _ Hexamples). cbn [andb app].
    change "API documentation not available" with ComponentParser.apiNotAvailable.
    now destruct (String.eqb _ ComponentParser.apiNotAvailable). }
  rewrite Hfacets.
  cbn [ComponentDoc.description ComponentDoc.api ComponentDoc.examples].
  split; [reflexivity |]. split; [exact Hthree |]. split.
  - cbn [map snd]. constructor; [exact Hdescription |].
    rewrite map_app, map_map. cbn [snd]. rewrite map_id. apply Forall_app. split.
    + destruct (String.eqb _ _); [constructor | now repeat constructor].
    + exact Hexamples.
  - cbn [List.length]. rewrite length_app, length_map.
    destruct (String.eqb _ _); cbn [List.length]; lia.
Qed.

Lemma X22_parsed_facets_witness :
  (List.length (ComponentDoc.examples Scenario.buttonDoc) <= 3)%nat.
Proof.
  refine (proj1 (proj2
            (X22_parsed_facets (ComponentParser.new "./root") Scenario.buttonTree
               "2026-01-01T00:00:00.000Z" "button"
               (ParsedComponent.mk Scenario.buttonDoc "./root/components/button"
                  ParsedComponent.Success None)
               _))).
  vm_compute. reflexivity.
Defined.

(** X23: one document for each text. For a component none of whose
    collected texts is blank, when the provider answers the request for
    these texts with one item per text, [createComponentVectors] returns
    as many documents as there are texts; the document at each position
    has the content and the type of the text at that position, the
    embedding the provider gave for it, the metadata of the component and
    the id built from the name, the type and the content. *)
Theorem X23_component_vectors
    (embeddings : OpenAIEmbeddings.t) (component : ComponentDoc.t)
    (k : nat) (data : list OpenAIEmbeddings.item) :
  let facets := RAGService.collectFacets component in
  facets <> [] ->
  Forall nonBlank (map snd facets) ->
  respondsAt embeddings (map snd facets) k data ->
  wellFormed data (List.length facets) ->
  exists docs,
    RAGService.createComponentVectors embeddings component = Ok docs
    /\ List.length docs = List.length facets
    /\ forall i type content,
         nth_error facets i = Some (type, content) ->
         exists embedding,
           nth_error (OpenAIEmbeddings.orderedEmbeddings data) i = Some embedding
           /\ nth_error docs i
              = Some
                  (VectorDocument.mk
                     (FileVectorStore.generateDocumentId
                        (ComponentDoc.componentName component)
                        (RAGService.idType type i) content)
                     content embedding
                     (VectorDocument.mkMetadata
                        (ComponentDoc.componentName component)
                        (ComponentDoc.packageName component) type
                        (ComponentDoc.tags component)
                        (ComponentDoc.version component))).
Proof.
  cbv zeta. intros Hsome Hall Hresponds Hwell.
  pose proof (orderedEmbeddings_wellFormed data _ Hwell) as [Hvectors _].
  assert (Hembed :
    OpenAIEmbeddings.embedTexts embeddings
      (map snd (RAGService.collectFacets component))
    = Ok (OpenAIEmbeddings.orderedEmbeddings data)).
  { apply (embedTexts_responds embeddings _ k data);
      rewrite (filter_nonBlank _ Hall); [| exact Hresponds].
    intros Hnil. apply map_eq_nil in Hnil. now apply Hsome. }
  set (build := fun (embedding : list Q) (index : nat) =>
         match nth_error (RAGService.collectFacets component) index with
         | Some (type, content) =>
             Ok (VectorDocument.mk
                   (FileVectorStore.generateDocumentId
                      (ComponentDoc.componentName component)
                      (RAGService.idType type index) content)
                   content embedding
                   (VectorDocument.mkMetadata
                      (ComponentDoc.componentName component)
                      (ComponentDoc.packageName component) type
                      (ComponentDoc.tags component)
                      (ComponentDoc.version component)))
         | None =>
             Err (TypeError "Cannot read properties of undefined (reading 'type')")
         end).
  destruct (documents_built component build) with
    (vectors := OpenAIEmbeddings.orderedEmbeddings data) (start := 0%nat)
    as (docs & Hdocs & Hlength).
  { intros embedding index Hindex. unfold build.
    destruct (nth_error _ index) as [[type content] |] eqn:Hnth; [eauto |].
    apply nth_error_None in Hnth. lia. }
  { rewrite Hvectors. apply Nat.le_refl. }
  assert (Hcreate : RAGService.createComponentVectors embeddings component = Ok docs).
  { unfold RAGService.createComponentVectors.
    destruct (map snd (RAGService.collectFacets component)) as [| text texts] eqn:Htexts.
    - exfalso. apply map_eq_nil in Htexts. now apply Hsome.
    - rewrite Hembed. cbn [bind]. fold build. rewrite Hdocs. reflexivity. }
  exists docs. split; [exact Hcreate |]. split; [now rewrite Hlength |].
  intros i type content Hfacet.
  destruct (nth_error docs i) as [doc |] eqn:Hdoc.
  - destruct (proj2 (sequence_mapiFrom build _ 0 docs Hdocs) i doc Hdoc)
      as (embedding & Hembedding & Hbuilt).
    exists embedding. split; [exact Hembedding |].
    unfold build in Hbuilt. cbn [Nat.add] in Hbuilt. rewrite Hfacet in Hbuilt.
    now injection Hbuilt as <-.
  - exfalso. apply nth_error_None in Hdoc.
    assert (i < List.length (RAGService.collectFacets component))%nat
      by (apply nth_error_Some; now rewrite Hfacet).
    lia.
Qed.

Lemma X23_component_vectors_witness :
  exists docs,
    RAGService.createComponentVectors Scenario.embedder Scenario.buttonDoc = Ok docs
    /\ List.length docs = 3%nat.
Proof.
  destruct (X23_component_vectors Scenario.embedder Scenario.buttonDoc 1
              [OpenAIEmbeddings.mkItem 2 [55%Q; 1%Q];
               OpenAIEmbeddings.mkItem 1 [45%Q; 1%Q];
               OpenAIEmbeddings.mkItem 0 [38%Q; 1%Q]])
    as (docs & Hdocs & Hlength & _).
  - discriminate.
  - vm_compute. repeat constructor.
  - split; [simpl; lia |]. split; [intros a Ha; lia | vm_compute; reflexivity].
  - unfold wellFormed. vm_compute.
    change [2%Z; 1%Z; 0%Z] with (rev [0%Z; 1%Z; 2%Z]).
    apply Permutation_sym, Permutation_rev.
  - exists docs. split; [exact Hdocs | exact Hlength].
Defined.

(** ** Vector store: an entry of another dimension *)

Lemma sequence_fails {A : Type} (steps : list (result A)) (error : Error) :
  In (Err error) steps ->
  (forall e, In (Err e) steps -> e = error) ->
  sequence steps = Err error.
Proof.
  induction steps as [| step rest IH]; intros Hin Hsame; [contradiction |].
  cbn [sequence]. destruct step as [a | e].
  - cbn [bind]. rewrite IH; [reflexivity | |].
    + destruct Hin as [H | H]; [discriminate H | exact H].
    + intros e He. apply Hsame. now right.
  - cbn [bind]. f_equal. apply Hsame. now left.
Qed.

(** X25: one index entry of another dimension fails every search. When
    the index holds an entry whose embedding does not have the length of
    the query vector, [similaritySearch] fails with the message of
    [cosineSimilarity], whatever [topK] and the threshold and whatever the
    other entries, and [searchWithFilters] fails with the same message
    wrapped once more. *)
Theorem X25_dimension_mismatch
    (sqrt : Q -> Q) (store : FileVectorStore.t) (queryEmbedding : list Q)
    (topK : nat) (threshold : Q) (item : FileVectorStore.entry) :
  In item (FileVectorStore.index store) ->
  List.length (FileVectorStore.embedding item) <> List.length queryEmbedding ->
  FileVectorStore.similaritySearch sqrt store queryEmbedding topK threshold
  = Err (VectorStoreError
           "Failed to perform similarity search: Error: Vector dimensions must match"
           "similaritySearch")
  /\ forall filters,
       FileVectorStore.searchWithFilters sqrt store queryEmbedding filters topK
         threshold
       = Err (VectorStoreError
                "Failed to search with filters: RAGError: Failed to perform similarity search: Error: Vector dimensions must match"
                "searchWithFilters").
Proof.
  intros Hitem Hlength.
  assert (Hsearch : forall limit,
    FileVectorStore.similaritySearch sqrt store queryEmbedding limit threshold
    = Err (VectorStoreError
             "Failed to perform similarity search: Error: Vector dimensions must match"
             "similaritySearch")).
  { intros limit. unfold FileVectorStore.similaritySearch.
    destruct (FileVectorStore.index store) as [| first rest] eqn:Hindex;
      [contradiction |].
    rewrite (sequence_fails _ (mkError "Error" "Vector dimensions must match" "")).
    - reflexivity.
    - apply in_map_iff. exists item. split; [| exact Hitem].
      unfold FileVectorStore.cosineSimilarity.
      destruct (Nat.eqb_spec (List.length queryEmbedding)
                  (List.length (FileVectorStore.embedding item))) as [E | _];
        [now contradiction Hlength | reflexivity].
    - intros e He. apply in_map_iff in He. destruct He as (other & Hother & _).
      unfold FileVectorStore.cosineSimilarity in Hother.
      destruct (negb _); cbn [bind] in Hother.
      + now injection Hother as <-.
      + destruct (FileVectorStore.sums _ _ _) as [[dotProduct normA] normB].
        destruct (Qeq_bool _ _); discriminate Hother. }
  split; [apply Hsearch |].
  intros filters. unfold FileVectorStore.searchWithFilters.
  rewrite (Hsearch 1000%nat). reflexivity.
Qed.

Lemma X25_dimension_mismatch_witness :
  FileVectorStore.similaritySearch Scenario.sqrtQ Scenario.threeDocs [1%Q] 5 (1 # 2)%Q
  = Err (VectorStoreError
           "Failed to perform similarity search: Error: Vector dimensions must match"
           "similaritySearch").
Proof.
  refine (proj1
            (X25_dimension_mismatch Scenario.sqrtQ Scenario.threeDocs [1%Q] 5 (1 # 2)%Q
               (FileVectorStore.entryOf Scenario.tableDoc) _ _)).
  - left. reflexivity.
  - discriminate.
Defined.

(** ** Cache: a read protects an entry *)

Lemma mapGet_mapSet_other {V : Type} (m : list (string * V)) (key k : string) (v : V) :
  k <> key -> SmartCache.mapGet (SmartCache.mapSet m key v) k = SmartCache.mapGet m k.
Proof.
  intros Hne. induction m as [| [k' old] rest IH]; cbn [SmartCache.mapSet SmartCache.mapGet].
  - destruct (String.eqb_spec key k) as [E | _]; [now contradiction Hne | reflexivity].
  - destruct (String.eqb_spec k' key) as [-> | Hk']; cbn [SmartCache.mapGet].
    + destruct (String.eqb_spec key k) as [E | _]; [now contradiction Hne | reflexivity].
    + now rewrite IH.
Qed.

Lemma mapGet_mapDelete_other {V : Type} (m : list (string * V)) (key k : string) :
  k <> key -> SmartCache.mapGet (SmartCache.mapDelete m key) k = SmartCache.mapGet m k.
Proof.
  intros Hne. unfold SmartCache.mapDelete.
  induction m as [| [k' v] rest IH]; [reflexivity |].
  cbn [filter fst SmartCache.mapGet].
  destruct (String.eqb_spec k' key) as [-> | Hk']; cbn [negb SmartCache.mapGet].
  - destruct (String.eqb_spec key k) as [E | _]; [now contradiction Hne | exact IH].
  - now rewrite IH.
Qed.

Lemma first_key_after_read {V : Type} (m : list (string * V)) (key other : string)
    (v : V) :
  other <> key -> SmartCache.mapHas m other = true ->
  exists k old rest,
    SmartCache.mapSet (SmartCache.mapDelete m key) key v = (k, old) :: rest
    /\ k <> key.
Proof.
  intros Hne Hhas. unfold SmartCache.mapHas in Hhas.
  rewrite <- (mapGet_mapDelete_other m key other Hne) in Hhas.
  assert (Hkeys : forall kv, In kv (SmartCache.mapDelete m key) -> fst kv <> key).
  { intros kv Hkv. unfold SmartCache.mapDelete in Hkv. apply filter_In in Hkv.
    destruct Hkv as [_ Hkv]. destruct (String.eqb_spec (fst kv) key); [discriminate | assumption]. }
  destruct (SmartCache.mapDelete m key) as [| [k old] rest]; [discriminate Hhas |].
  assert (Hk : k <> key) by (apply (Hkeys (k, old)); now left).
  exists k, old, (SmartCache.mapSet rest key v). split; [| exact Hk].
  cbn [SmartCache.mapSet].
  destruct (String.eqb_spec k key) as [E | _]; [now contradiction Hk | reflexivity].
Qed.

Lemma bumpHits_nth (heap : list SmartCache.CacheEntry) (address : nat)
    (entry : SmartCache.CacheEntry) :
  nth_error heap address = Some entry ->
  nth_error (SmartCache.bumpHits heap address) address
  = Some (SmartCache.mkEntry (SmartCache.value entry) (SmartCache.timestamp entry)
            (S (SmartCache.hits entry)) (SmartCache.embedding entry)).
Proof.
  revert address. induction heap as [| e rest IH]; intros [| address];
    cbn [nth_error SmartCache.bumpHits]; try discriminate.
  - intros H. now injection H as ->.
  - apply IH.
Qed.

(** X24: the cache evicts by recency of use. An entry that was just read
    (an exact hit of [get]) survives the next [set] of another query, also
    when the cache is full and the entry was the oldest, provided the
    cache holds an entry under another key; the read has counted one more
    hit on the entry. An entry that is the oldest and was not read is the
    one a [set] into a full cache removes. *)
Theorem X24_cache_recency
    (sqrt : Q -> Q) (c : SmartCache.t) (query query' : string)
    (embedding embedding' : option (list Q)) (filters filters' : option string)
    (startTime now now' : Z) (address : nat) (entry : SmartCache.CacheEntry)
    (other : string) (value' : RAGSearchResponse.t) :
  let key := SmartCache.generateKey query filters in
  SmartCache.mapGet (SmartCache.cache c) key = Some address ->
  nth_error (SmartCache.heap c) address = Some entry ->
  (now - SmartCache.timestamp entry <= SmartCache.maxAge c)%Z ->
  SmartCache.generateKey query' filters' <> key ->
  let read := SmartCache.get sqrt c query embedding filters startTime now in
  (forall after,
      other <> key -> SmartCache.mapHas (SmartCache.cache c) other = true ->
      after = SmartCache.set (snd read) query' value' embedding' filters' now' ->
      fst read = Some (SmartCache.value entry)
      /\ SmartCache.mapGet (SmartCache.cache after) key = Some address
      /\ nth_error (SmartCache.heap after) address
         = Some (SmartCache.mkEntry (SmartCache.value entry)
                   (SmartCache.timestamp entry) (S (SmartCache.hits entry))
                   (SmartCache.embedding entry)))
  /\ (forall rest,
        SmartCache.cache c = (key, address) :: rest ->
        (SmartCache.maxSize c <= List.length (SmartCache.cache c))%nat ->
        SmartCache.mapGet
          (SmartCache.cache (SmartCache.set c query' value' embedding' filters' now'))
          key = None).
Proof.
  cbv zeta. intros Hkey Hentry Hfresh Hother. split.
  - intros after Hne Hhas ->.
    unfold SmartCache.get.
    cbn [SmartCache.withStats SmartCache.cache SmartCache.heap SmartCache.maxAge].
    rewrite Hkey, Hentry, (proj2 (Z.leb_le _ _) Hfresh).
    cbn [fst snd]. split; [reflexivity |].
    unfold SmartCache.set.
    cbn [SmartCache.withCache SmartCache.recordHit SmartCache.withHeap
         SmartCache.withStats SmartCache.cache SmartCache.heap
         SmartCache.semanticCache SmartCache.maxSize SmartCache.maxAge
         SmartCache.similarityThreshold SmartCache.stats].
    destruct (first_key_after_read (SmartCache.cache c)
                (SmartCache.generateKey query filters) other address Hne Hhas)
      as (k & old & rest & Hcache & Hk).
    rewrite Hcache.
    assert (Hstill :
      SmartCache.mapGet ((k, old) :: rest) (SmartCache.generateKey query filters)
      = Some address) by (rewrite <- Hcache; apply mapGet_mapSet).
    assert (Hheap : forall added,
      nth_error (SmartCache.bumpHits (SmartCache.heap c) address ++ added) address
      = Some (SmartCache.mkEntry (SmartCache.value entry)
                (SmartCache.timestamp entry) (S (SmartCache.hits entry))
                (SmartCache.embedding entry))).
    { intros added. rewrite nth_error_app1.
      - now apply bumpHits_nth.
      - apply nth_error_Some. now rewrite (bumpHits_nth _ _ entry Hentry). }
    destruct (_ <=? _)%nat; [destruct (truthy k) |];
      cbn [SmartCache.cache SmartCache.heap];
      (split; [| apply Hheap]);
      rewrite mapGet_mapSet_other by (intros E; apply Hother; now rewrite E);
      try rewrite mapGet_mapDelete_other by (intros E; apply Hk; now rewrite E);
      exact Hstill.
  - intros rest Hcache Hfull. unfold SmartCache.set.
    assert (Htruthy : truthy (SmartCache.generateKey query filters) = true)
      by (unfold SmartCache.generateKey; apply hex_truthy).
    rewrite (proj2 (Nat.leb_le _ _) Hfull), Hcache, Htruthy. cbn [SmartCache.cache].
    rewrite mapGet_mapSet_other by (intros E; apply Hother; now rewrite E).
    apply mapGet_mapDelete.
Qed.

Lemma X24_cache_recency_witness :
  SmartCache.mapGet
    (SmartCache.cache
       (SmartCache.set
          (snd (SmartCache.get Scenario.sqrtQ Scenario.fullCache "alert" None None
                  2000 2000))
          "card" Scenario.noResults None None 2001))
    (SmartCache.generateKey "alert" None)
  = Some 0%nat.
Proof.
  refine (proj1 (proj2
            (proj1
               (X24_cache_recency Scenario.sqrtQ Scenario.fullCache "alert" "card"
                  None None None None 2000 2000 2001 0
                  (SmartCache.mkEntry Scenario.noResults 1000 0 None)
                  (SmartCache.generateKey "badge" None) Scenario.noResults
                  _ _ _ _)
               _ _ _ eq_refl))).
  - vm_compute. reflexivity.
  - vm_compute. reflexivity.
  - vm_compute. intros H. discriminate H.
  - vm_compute. intros H. discriminate H.
  - vm_compute. intros H. discriminate H.
  - vm_compute. reflexivity.
Defined.

(** ** Cache: no stale answer *)

(** X26: [get] never answers with an entry older than [maxAge]. Whatever
    the cache holds, a value it returns, through the exact map or through
    the semantic search, is the value of an entry of the cache whose age
    at the time of the call is at most [maxAge]; without a query embedding
    (or with an empty one) only the entry stored under the key of the
    query can be returned. *)
Theorem X26_cache_never_stale
    (sqrt : Q -> Q) (c : SmartCache.t) (query : string)
    (embedding : option (list Q)) (filters : option string) (startTime now : Z)
    (found : RAGSearchResponse.t) :
  fst (SmartCache.get sqrt c query embedding filters startTime now) = Some found ->
  exists address entry,
    nth_error (SmartCache.heap c) address = Some entry
    /\ SmartCache.value entry = found
    /\ (now - SmartCache.timestamp entry <= SmartCache.maxAge c)%Z
    /\ ((embedding = None \/ embedding = Some []) ->
        SmartCache.mapGet (SmartCache.cache c) (SmartCache.generateKey query filters)
        = Some address).
Proof.
  assert (Hsemantic : forall c',
    SmartCache.heap c' = SmartCache.heap c ->
    SmartCache.maxAge c' = SmartCache.maxAge c ->
    fst (SmartCache.getSemantic sqrt c' embedding startTime now) = Some found ->
    exists address entry,
      nth_error (SmartCache.heap c) address = Some entry
      /\ SmartCache.value entry = found
      /\ (now - SmartCache.timestamp entry <= SmartCache.maxAge c)%Z
      /\ ((embedding = None \/ embedding = Some []) -> False)).
  { intros c' Hheap Hage. unfold SmartCache.getSemantic.
    destruct embedding as [[| x rest] |]; cbn [fst]; try discriminate.
    destruct (find _ _) as [address |] eqn:Hfind; cbn [fst]; [| discriminate].
    apply find_some in Hfind. destruct Hfind as [_ Hmatch].
    unfold SmartCache.semanticMatch in Hmatch. rewrite Hheap, Hage in *.
    destruct (nth_error (SmartCache.heap c) address) as [entry |] eqn:Hentry;
      [| discriminate Hmatch].
    cbn [option_map]. intros H. injection H as <-.
    destruct (SmartCache.embedding entry); [| discriminate Hmatch].
    apply andb_true_iff in Hmatch. destruct Hmatch as [Hfresh _].
    exists address, entry. split; [exact Hentry |]. split; [reflexivity |].
    split; [now apply Z.leb_le |]. intros [H | H]; discriminate H. }
  unfold SmartCache.get.
  cbn [SmartCache.withStats SmartCache.cache SmartCache.heap SmartCache.maxAge].
  destruct (SmartCache.mapGet (SmartCache.cache c) _) as [address |] eqn:Hkey.
  - destruct (nth_error (SmartCache.heap c) address) as [exactMatch |] eqn:Hentry.
    + destruct (_ <=? _)%Z eqn:Hfresh.
      * cbn [fst]. intros H. injection H as <-.
        exists address, exactMatch. split; [exact Hentry |]. split; [reflexivity |].
        split; [now apply Z.leb_le | intros _; reflexivity].
      * intros H. apply Hsemantic in H; [| reflexivity | reflexivity].
        destruct H as (a & e & H1 & H2 & H3 & H4).
        exists a, e. repeat split; try assumption. intros H. now contradiction (H4 H).
    + intros H. apply Hsemantic in H; [| reflexivity | reflexivity].
      destruct H as (a & e & H1 & H2 & H3 & H4).
      exists a, e. repeat split; try assumption. intros H. now contradiction (H4 H).
  - intros H. apply Hsemantic in H; [| reflexivity | reflexivity].
    destruct H as (a & e & H1 & H2 & H3 & H4).
    exists a, e. repeat split; try assumption. intros H. now contradiction (H4 H).
Qed.

Lemma X26_cache_never_stale_witness :
  exists address entry,
    nth_error (SmartCache.heap Scenario.fullCache) address = Some entry
    /\ SmartCache.value entry = Scenario.noResults
    /\ (2000 - SmartCache.timestamp entry <= SmartCache.maxAge Scenario.fullCache)%Z
    /\ ((@None (list Q) = None \/ @None (list Q) = Some []) ->
        SmartCache.mapGet (SmartCache.cache Scenario.fullCache)
          (SmartCache.generateKey "alert" None)
        = Some address).
Proof.
  apply (X26_cache_never_stale Scenario.sqrtQ Scenario.fullCache "alert" None None
           2000 2000 Scenario.noResults).
  vm_compute. reflexivity.
Defined.

(** ** Parser: component names *)

Lemma upperChar_dash (c : ascii) : c <> "-"%char -> upperChar c <> "-"%char.
Proof.
  destruct c as [[] [] [] [] [] [] [] []]; vm_compute; intros H E;
    first [ discriminate E | now apply H ].
Qed.

Lemma upperChar_idempotent (c : ascii) : upperChar (upperChar c) = upperChar c.
Proof. destruct c as [[] [] [] [] [] [] [] []]; reflexivity. Qed.

Lemma chars_append (a b : string) :
  list_ascii_of_string (a ++ b)
  = (list_ascii_of_string a ++ list_ascii_of_string b)%list.
Proof. induction a as [| c rest IH]; cbn; [reflexivity | now rewrite IH]. Qed.

Lemma without_append (sep : ascii) (a b : string) :
  without sep a -> without sep b -> without sep (a ++ b).
Proof.
  unfold without. rewrite chars_append. intros Ha Hb Hin.
  apply in_app_or in Hin. tauto.
Qed.

Lemma splitAux_without (sep : ascii) (s : string) :
  forall cur, without sep cur -> Forall (without sep) (splitAux sep s cur).
Proof.
  induction s as [| c rest IH]; intros cur Hcur; cbn [splitAux].
  - now constructor.
  - destruct (Ascii.eqb_spec c sep) as [-> | Hc].
    + constructor; [exact Hcur |]. apply IH. intros [].
    + apply IH. apply without_append; [exact Hcur |].
      intros [E | []]. now apply Hc.
Qed.

Lemma splitAux_whole (sep : ascii) (s : string) :
  without sep s -> forall cur, splitAux sep s cur = [(cur ++ s)%string].
Proof.
  induction s as [| c rest IH]; intros Hs cur; cbn [splitAux].
  - f_equal. induction cur as [| d cur' IHc]; cbn; [reflexivity | now rewrite <- IHc].
  - destruct (Ascii.eqb_spec c sep) as [-> | Hc].
    + exfalso. apply Hs. now left.
    + rewrite IH by (intros Hin; apply Hs; now right).
      f_equal. now rewrite append_assoc.
Qed.

Lemma capitalizeWord_without (word : string) :
  without "-"%char word -> without "-"%char (ComponentParser.capitalizeWord word).
Proof.
  destruct word as [| c rest]; [trivial |]. unfold without. cbn.
  intros Hword [E | Hin].
  - apply (upperChar_dash c); [| now symmetry]. intros ->. apply Hword. now left.
  - apply Hword. now right.
Qed.

Lemma join_without (words : list string) :
  Forall (without "-"%char) words -> without "-"%char (join "" words).
Proof.
  induction 1 as [| word rest Hword Hrest IH]; [intros [] |].
  cbn [join]. destruct rest as [| next rest']; [exact Hword |].
  apply without_append; [exact Hword |].
  apply without_append; [intros [] | exact IH].
Qed.

Lemma join_capitalized (words : list string) :
  ComponentParser.capitalizeWord (join "" (map ComponentParser.capitalizeWord words))
  = join "" (map ComponentParser.capitalizeWord words).
Proof.
  induction words as [| word rest IH]; [reflexivity |].
  cbn [map join].
  destruct (map ComponentParser.capitalizeWord rest) as [| next rest'] eqn:Hrest.
  - destruct word as [| c t]; [reflexivity |]. cbn. now rewrite upperChar_idempotent.
  - destruct word as [| c t].
    + cbn [ComponentParser.capitalizeWord append]. exact IH.
    + cbn. now rewrite upperChar_idempotent.
Qed.

(** X27: component names. [capitalizeComponentName] removes every dash:
    its result contains none, whatever the directory name; applying it to
    its own result changes nothing; and on a name without dash it only
    puts the first letter in upper case. *)
Theorem X27_capitalizeComponentName (name : string) :
  without "-"%char (ComponentParser.capitalizeComponentName name)
  /\ ComponentParser.capitalizeComponentName
       (ComponentParser.capitalizeComponentName name)
     = ComponentParser.capitalizeComponentName name
  /\ (without "-"%char name ->
      ComponentParser.capitalizeComponentName name
      = ComponentParser.capitalizeWord name).
Proof.
  assert (Hplain : forall s, without "-"%char s ->
            ComponentParser.capitalizeComponentName s
            = ComponentParser.capitalizeWord s).
  { intros s Hs. unfold ComponentParser.capitalizeComponentName, split.
    now rewrite (splitAux_whole "-" s Hs ""). }
  assert (Hclean : without "-"%char (ComponentParser.capitalizeComponentName name)).
  { unfold ComponentParser.capitalizeComponentName, split.
    apply join_without. apply Forall_map.
    eapply Forall_impl; [| apply (splitAux_without "-" name ""); intros []].
    intros word. apply capitalizeWord_without. }
  split; [exact Hclean |]. split; [| apply Hplain].
  rewrite (Hplain _ Hclean). unfold ComponentParser.capitalizeComponentName.
  apply join_capitalized.
Qed.
